(** * Template tiling and compositing engine (Blue Marble userscript)

    A shallow embedding of [Template.js] (palette search and tile slicing)
    and of [templateManager.js] (registry, compositor, lazy index maps),
    together with the properties of the written specification that were
    checked against them.

    Conventions of the embedding:
    - JavaScript numbers that hold integers are [Z]; [%] is [Z.rem]
      (the sign follows the dividend) and [Math.floor (a / b)] for a
      positive literal [b] is [Z.div].
    - Typed arrays are [list Z] with the store conversion written out
      ([clamp8] for [Uint8ClampedArray], [mod 256] for [Uint8Array],
      [mod 65536] for [Uint16Array]).
    - Plain objects used as dictionaries keep insertion order (their keys
      here are never integer-like), so they are association lists
      ([jsobj]); a [Map] whose order is never observed is a [gmap].
    - Loops whose step is computed take fuel and return [None] when it
      runs out; the fuel given is the image extent, which the source
      never exceeds when it terminates.
    - The canvas, the PNG codec, the overlay, the userscript storage and
      the clock are collaborators: their results are parameters or
      recorded calls. *)

From Stdlib Require Import ZArith QArith Ascii String.
From stdpp Require Import base list list_numbers strings pretty gmap.

Open Scope Z_scope.

(* ===================================================================== *)
(** * JavaScript primitives used by the two source files                  *)
(* ===================================================================== *)

Module JS.

(** [Number.prototype.toString] on an integer (of magnitude below
    10^21, where JavaScript still prints every digit). *)
Definition toString (n : Z) : string := pretty n.

Fixpoint repeat0 (n : nat) : string :=
  match n with
  | O => EmptyString
  | S n' => String "0"%char (repeat0 n')
  end.

(** [s.padStart(n, '0')]. *)
Definition padStart0 (n : nat) (s : string) : string :=
  (repeat0 (n - String.length s) +:+ s)%string.

(** [s.startsWith(p)]. *)
Definition startsWith (s p : string) : bool := String.prefix p s.

(** [s.split(sep)] for a separator of one character. *)
Fixpoint split_go (sep : ascii) (cur : string) (s : string)
  : list string :=
  match s with
  | EmptyString => [String.rev cur]
  | String c s' =>
      if Ascii.eqb c sep
      then String.rev cur :: split_go sep EmptyString s'
      else split_go sep (String c cur) s'
  end.
Definition splitComma (s : string) : list string :=
  split_go ","%char EmptyString s.
Definition splitSpace (s : string) : list string :=
  split_go " "%char EmptyString s.

(** [xs.join(', ')] on an array of integers. *)
Definition joinCommaSpace (xs : list Z) : string :=
  String.concat ", " (toString <$> xs).

(** Store conversions of typed arrays, on integer values. *)
Definition clamp8 (v : Z) : Z := Z.max 0 (Z.min 255 v).
Definition wrap8 (v : Z) : Z := v mod 256.
Definition wrap16 (v : Z) : Z := v mod 65536.

(** [x++] on a number holding a non-negative integer: exact below 2^53,
    and absorbed at 2^53 (the successor is not representable). *)
Definition incr (v : Z) : Z := if v <? 2 ^ 53 then v + 1 else v.

(** [Math.round (a / b)] for a positive divisor: halves round up. *)
Definition roundDiv (a b : Z) : Z := (2 * a + b) / (2 * b).

(** Reading a typed array: [undefined] out of range. *)
Definition at_ (l : list Z) (i : Z) : option Z :=
  if i <? 0 then None else l !! Z.to_nat i.

(** [l[i] || 0] and [l[i] | 0]: a read that defaults to 0. *)
Definition get0 (l : list Z) (i : Z) : Z := default 0 (at_ l i).

(** Writing a typed array: ignored out of range. *)
Definition put (l : list Z) (i : Z) (v : Z) : list Z :=
  if i <? 0 then l else <[Z.to_nat i := v]> l.

(** [for (let i = 0; i < n; i++) body], threading the loop state. *)
Definition forRange {S : Type} (n : Z) (body : Z → S → S) (s : S) : S :=
  foldl (λ acc i, body i acc) s (seqZ 0 n).

End JS.

(** ** Plain objects as insertion-ordered dictionaries *)

Module Obj.
Section obj.
Context {V : Type}.

Fixpoint get (o : list (string * V)) (k : string) : option V :=
  match o with
  | [] => None
  | (k', v) :: o' => if String.eqb k' k then Some v else get o' k
  end.

(** [o[k] = v]: overwrites in place, else appends. *)
Fixpoint set (o : list (string * V)) (k : string) (v : V)
  : list (string * V) :=
  match o with
  | [] => [(k, v)]
  | (k', v') :: o' =>
      if String.eqb k' k then (k', v) :: o' else (k', v') :: set o' k v
  end.

(** [delete o[k]]. *)
Fixpoint remove (o : list (string * V)) (k : string)
  : list (string * V) :=
  match o with
  | [] => []
  | (k', v') :: o' =>
      if String.eqb k' k then o' else (k', v') :: remove o' k
  end.

(** [Object.keys(o)]. *)
Definition keys (o : list (string * V)) : list string := fst <$> o.
End obj.
End Obj.

Abbreviation jsobj V := (list (string * V)).

(* ===================================================================== *)
(** * Template.js: the palette search                                     *)
(* ===================================================================== *)

(** An entry of [colorpalette].  [pe_rgb = None] stands for an entry
    whose [rgb] is missing or empty (the [pr === undefined] guard). *)
Record PaletteEntry := {
  pe_name : string;
  pe_rgb : option (Z * Z * Z)
}.

(** [bestDist] starts at [Infinity]. *)
Inductive jsdist := Infinity | Finite (d : Z).

Definition dist_lt (d : Z) (best : jsdist) : bool :=
  match best with
  | Infinity => true
  | Finite b => d <? b
  end.

Definition sqdist (r g b : Z) (p : Z * Z * Z) : Z :=
  let '(pr, pg, pb) := p in
  let dr := r - pr in
  let dg := g - pg in
  let db := b - pb in
  dr * dr + dg * dg + db * db.

Section Palette.

(** [colorpalette] is imported from [utils]; it is a parameter here. *)
Variable colorpalette : list PaletteEntry.

Definition rgb_step (r g b : Z) (acc : option (Z * Z * Z) * jsdist)
    (c : PaletteEntry) : option (Z * Z * Z) * jsdist :=
  if String.eqb (pe_name c) "Transparent" then acc
  else match pe_rgb c with
       | None => acc
       | Some p =>
           let dist := sqdist r g b p in
           if dist_lt dist (snd acc) then (Some p, Finite dist) else acc
       end.

Definition nearestPaletteRGB (r g b : Z) : Z * Z * Z :=
  match fst (foldl (rgb_step r g b) (None, Infinity) colorpalette) with
  | Some best => best
  | None => (r, g, b)
  end.

Definition index_step (r g b : Z) (acc : Z * jsdist)
    (ic : Z * PaletteEntry) : Z * jsdist :=
  let '(i, c) := ic in
  if String.eqb (pe_name c) "Transparent" then acc
  else match pe_rgb c with
       | None => acc
       | Some p =>
           let dist := sqdist r g b p in
           if dist_lt dist (snd acc) then (i, Finite dist) else acc
       end.

Definition nearestPaletteIndex (r g b : Z) : Z :=
  fst (foldl (index_step r g b) (1, Infinity)
         (zip (seqZ 0 (Z.of_nat (length colorpalette))) colorpalette)).

End Palette.

(* ===================================================================== *)
(** * Template.js: the template and its slicing into tile regions         *)
(* ===================================================================== *)

(** A decoded image ([ImageBitmap] or [ImageData]): RGBA bytes, row-major.
    The canvas is taken as an exact pixel store: drawing a bitmap and
    reading it back returns the same bytes. *)
Record Bitmap := {
  bm_width : Z;
  bm_height : Z;
  bm_data : list Z
}.

(** An entry of [colorIndexTiles]: [{ w, h, data }]. *)
Record IndexTile := {
  it_w : Z;
  it_h : Z;
  it_data : list Z
}.

Record Template := {
  displayName : string;
  sortID : Z;
  authorID : string;
  url : string;
  file : option Bitmap;
  coords : option (Z * Z * Z * Z);
  chunked : option (jsobj Bitmap);
  autoColor : bool;
  tileSize : Z;
  pixelCount : Z;
  colorIndexTiles : option (jsobj IndexTile);
  enabled : bool;
  idKey : string;
  (* the four variant maps attached by the manager after slicing *)
  chunkedOriginal : option (jsobj Bitmap);
  chunkedAuto : option (jsobj Bitmap);
  chunkedOriginalFull : option (jsobj Bitmap);
  chunkedAutoFull : option (jsobj Bitmap)
}.

(** Field updates of a [Template] object. *)
Definition set_chunked (v : option (jsobj Bitmap)) (t : Template) : Template :=
  {| displayName := displayName t; sortID := sortID t; authorID := authorID
     t; url := url t; file := file t; coords := coords t; chunked := v;
     autoColor := autoColor t; tileSize := tileSize t; pixelCount :=
     pixelCount t; colorIndexTiles := colorIndexTiles t; enabled := enabled
     t; idKey := idKey t; chunkedOriginal := chunkedOriginal t; chunkedAuto
     := chunkedAuto t; chunkedOriginalFull := chunkedOriginalFull t;
     chunkedAutoFull := chunkedAutoFull t |}.
Definition set_pixelCount (v : Z) (t : Template) : Template :=
  {| displayName := displayName t; sortID := sortID t; authorID := authorID
     t; url := url t; file := file t; coords := coords t; chunked :=
     chunked t; autoColor := autoColor t; tileSize := tileSize t;
     pixelCount := v; colorIndexTiles := colorIndexTiles t; enabled :=
     enabled t; idKey := idKey t; chunkedOriginal := chunkedOriginal t;
     chunkedAuto := chunkedAuto t; chunkedOriginalFull :=
     chunkedOriginalFull t; chunkedAutoFull := chunkedAutoFull t |}.
Definition set_colorIndexTiles (v : option (jsobj IndexTile)) (t : Template) : Template :=
  {| displayName := displayName t; sortID := sortID t; authorID := authorID
     t; url := url t; file := file t; coords := coords t; chunked :=
     chunked t; autoColor := autoColor t; tileSize := tileSize t;
     pixelCount := pixelCount t; colorIndexTiles := v; enabled := enabled
     t; idKey := idKey t; chunkedOriginal := chunkedOriginal t; chunkedAuto
     := chunkedAuto t; chunkedOriginalFull := chunkedOriginalFull t;
     chunkedAutoFull := chunkedAutoFull t |}.
Definition set_enabled (v : bool) (t : Template) : Template :=
  {| displayName := displayName t; sortID := sortID t; authorID := authorID
     t; url := url t; file := file t; coords := coords t; chunked :=
     chunked t; autoColor := autoColor t; tileSize := tileSize t;
     pixelCount := pixelCount t; colorIndexTiles := colorIndexTiles t;
     enabled := v; idKey := idKey t; chunkedOriginal := chunkedOriginal t;
     chunkedAuto := chunkedAuto t; chunkedOriginalFull :=
     chunkedOriginalFull t; chunkedAutoFull := chunkedAutoFull t |}.
Definition set_idKey (v : string) (t : Template) : Template :=
  {| displayName := displayName t; sortID := sortID t; authorID := authorID
     t; url := url t; file := file t; coords := coords t; chunked :=
     chunked t; autoColor := autoColor t; tileSize := tileSize t;
     pixelCount := pixelCount t; colorIndexTiles := colorIndexTiles t;
     enabled := enabled t; idKey := v; chunkedOriginal := chunkedOriginal
     t; chunkedAuto := chunkedAuto t; chunkedOriginalFull :=
     chunkedOriginalFull t; chunkedAutoFull := chunkedAutoFull t |}.
Definition set_chunkedOriginal (v : option (jsobj Bitmap)) (t : Template) : Template :=
  {| displayName := displayName t; sortID := sortID t; authorID := authorID
     t; url := url t; file := file t; coords := coords t; chunked :=
     chunked t; autoColor := autoColor t; tileSize := tileSize t;
     pixelCount := pixelCount t; colorIndexTiles := colorIndexTiles t;
     enabled := enabled t; idKey := idKey t; chunkedOriginal := v;
     chunkedAuto := chunkedAuto t; chunkedOriginalFull :=
     chunkedOriginalFull t; chunkedAutoFull := chunkedAutoFull t |}.
Definition set_chunkedAuto (v : option (jsobj Bitmap)) (t : Template) : Template :=
  {| displayName := displayName t; sortID := sortID t; authorID := authorID
     t; url := url t; file := file t; coords := coords t; chunked :=
     chunked t; autoColor := autoColor t; tileSize := tileSize t;
     pixelCount := pixelCount t; colorIndexTiles := colorIndexTiles t;
     enabled := enabled t; idKey := idKey t; chunkedOriginal :=
     chunkedOriginal t; chunkedAuto := v; chunkedOriginalFull :=
     chunkedOriginalFull t; chunkedAutoFull := chunkedAutoFull t |}.
Definition set_chunkedOriginalFull (v : option (jsobj Bitmap)) (t : Template) : Template :=
  {| displayName := displayName t; sortID := sortID t; authorID := authorID
     t; url := url t; file := file t; coords := coords t; chunked :=
     chunked t; autoColor := autoColor t; tileSize := tileSize t;
     pixelCount := pixelCount t; colorIndexTiles := colorIndexTiles t;
     enabled := enabled t; idKey := idKey t; chunkedOriginal :=
     chunkedOriginal t; chunkedAuto := chunkedAuto t; chunkedOriginalFull
     := v; chunkedAutoFull := chunkedAutoFull t |}.
Definition set_chunkedAutoFull (v : option (jsobj Bitmap)) (t : Template) : Template :=
  {| displayName := displayName t; sortID := sortID t; authorID := authorID
     t; url := url t; file := file t; coords := coords t; chunked :=
     chunked t; autoColor := autoColor t; tileSize := tileSize t;
     pixelCount := pixelCount t; colorIndexTiles := colorIndexTiles t;
     enabled := enabled t; idKey := idKey t; chunkedOriginal :=
     chunkedOriginal t; chunkedAuto := chunkedAuto t; chunkedOriginalFull
     := chunkedOriginalFull t; chunkedAutoFull := v |}.

(** [new Template({...})] with the constructor's defaults. *)
Definition newTemplate (displayName : string) (sortID : Z)
    (authorID : string) (file : option Bitmap)
    (coords : option (Z * Z * Z * Z)) (autoColor enabled : bool)
    (idKey : string) : Template :=
  {| displayName := displayName; sortID := sortID; authorID := authorID;
     url := EmptyString; file := file; coords := coords; chunked := None;
     autoColor := autoColor; tileSize := 1000; pixelCount := 0;
     colorIndexTiles := Some []; enabled := enabled; idKey := idKey;
     chunkedOriginal := None; chunkedAuto := None;
     chunkedOriginalFull := None; chunkedAutoFull := None |}.

(** One iteration of the slicing loops: the region cut at the absolute
    pixel position [(rg_pixelX, rg_pixelY)] with its three buffers. *)
Record Region := {
  rg_key : string;
  rg_pixelX : Z;
  rg_pixelY : Z;
  rg_w : Z;
  rg_h : Z;
  rg_orig : list Z;
  rg_mapped : list Z;
  rg_idx : list Z
}.

(** The value returned by [createTemplateTiles]. *)
Record TemplateTiles := {
  templateTiles : jsobj Bitmap;
  templateTilesAuto : jsobj Bitmap;
  templateTilesFull : jsobj Bitmap;
  templateTilesAutoFull : jsobj Bitmap;
  templateTilesBuffers : jsobj string
}.

(** The pixel of a bitmap at [(x, y)]; transparent black outside. *)
Definition pixelAt (bm : Bitmap) (x y : Z) : list Z :=
  if (0 <=? x) && (x <? bm_width bm) && (0 <=? y) && (y <? bm_height bm)
  then
    let p := (y * bm_width bm + x) * 4 in
    [JS.get0 (bm_data bm) p; JS.get0 (bm_data bm) (p + 1);
     JS.get0 (bm_data bm) (p + 2); JS.get0 (bm_data bm) (p + 3)]
  else [0; 0; 0; 0].

(** [drawImage(bitmap, sx, sy, w, h, 0, 0, w, h)] on a cleared [w]x[h]
    canvas followed by [getImageData(0, 0, w, h).data]. *)
Definition cropImageData (bm : Bitmap) (sx sy w h : Z) : list Z :=
  y ← seqZ 0 h; x ← seqZ 0 w; pixelAt bm (sx + x) (sy + y).

(** Upscaling by [k], without and with the repeating mask that keeps the
    centre pixel of each [k]x[k] block.

    The two definitions write the scaling as a nearest-neighbour copy.
    That is an idealisation of the canvas: the source sets
    [imageSmoothingEnabled = false] once, before the loops, and every
    rendering then assigns [largeCanvas.width] and [largeCanvas.height],
    which resets the state of the context, so the scaling that runs may
    interpolate between neighbouring pixels.  The pixel at the centre of
    a block maps to the centre of its source pixel and is the same either
    way; the other pixels of the solid variant are not.  The properties
    below read these bitmaps at block centres only, or compare them as
    whole values; none describes the off-centre pixels of a rendering. *)
Definition renderToBitmapNoMask (k : Z) (img : Bitmap) : Bitmap :=
  {| bm_width := bm_width img * k;
     bm_height := bm_height img * k;
     bm_data :=
       Y ← seqZ 0 (bm_height img * k); X ← seqZ 0 (bm_width img * k);
       pixelAt img (X / k) (Y / k) |}.

Definition renderToBitmap (k : Z) (img : Bitmap) : Bitmap :=
  let center := k / 2 in
  {| bm_width := bm_width img * k;
     bm_height := bm_height img * k;
     bm_data :=
       Y ← seqZ 0 (bm_height img * k); X ← seqZ 0 (bm_width img * k);
       if (X mod k =? center) && (Y mod k =? center)
       then pixelAt img (X / k) (Y / k)
       else [0; 0; 0; 0] |}.

(** Creates the "0000,0000,000,000" key name. *)
Definition templateTileName (c0 c1 pixelX pixelY : Z) : string :=
  (JS.padStart0 4 (JS.toString (c0 + pixelX / 1000)) +:+ "," +:+
   JS.padStart0 4 (JS.toString (c1 + pixelY / 1000)) +:+ "," +:+
   JS.padStart0 3 (JS.toString (Z.rem pixelX 1000)) +:+ "," +:+
   JS.padStart0 3 (JS.toString (Z.rem pixelY 1000)))%string.

Definition shreadSize : Z := 3.

Section Slicing.

Variable colorpalette : list PaletteEntry.
(** [convertToBlob], [arrayBuffer] and [uint8ToBase64] in one step. *)
Variable encodeBase64PNG : Bitmap → string.

(** The body of the two pixel loops, for the pixel [(x, y)]. *)
Definition pixelBody (drawSizeX : Z) (src : list Z) (y x : Z)
    (bufs : list Z * list Z * list Z) : list Z * list Z * list Z :=
  let '(orig, mapped, idxMap) := bufs in
  let p := (y * drawSizeX + x) * 4 in
  let r := JS.get0 src p in
  let g := JS.get0 src (p + 1) in
  let b := JS.get0 src (p + 2) in
  let a := JS.get0 src (p + 3) in
  if (r =? 222) && (g =? 250) && (b =? 206) then
    let '(orig, mapped) :=
      if Z.rem (x + y) 2 =? 0 then
        (JS.put (JS.put (JS.put (JS.put orig p 0) (p + 1) 0) (p + 2) 0)
           (p + 3) 32,
         JS.put (JS.put (JS.put (JS.put mapped p 0) (p + 1) 0) (p + 2) 0)
           (p + 3) 32)
      else (JS.put orig (p + 3) 0, JS.put mapped (p + 3) 0) in
    (orig, mapped, JS.put idxMap (y * drawSizeX + x) 0)
  else if negb (a =? 0) then
    let idxMap :=
      JS.put idxMap (y * drawSizeX + x)
        (JS.wrap8 (nearestPaletteIndex colorpalette r g b)) in
    let '(nr, ng, nb) := nearestPaletteRGB colorpalette r g b in
    let orig :=
      JS.put (JS.put (JS.put (JS.put orig p (JS.clamp8 r))
        (p + 1) (JS.clamp8 g)) (p + 2) (JS.clamp8 b)) (p + 3) 255 in
    let mapped :=
      JS.put (JS.put (JS.put (JS.put mapped p (JS.clamp8 nr))
        (p + 1) (JS.clamp8 ng)) (p + 2) (JS.clamp8 nb)) (p + 3) 255 in
    (orig, mapped, idxMap)
  else (orig, mapped, JS.put idxMap (y * drawSizeX + x) 0).

(** The buffers [orig], [mapped] and [idxMap] after the pixel loops. *)
Definition classifyRegion (drawSizeX drawSizeY : Z) (src : list Z)
    : list Z * list Z * list Z :=
  JS.forRange drawSizeY
    (λ y, JS.forRange drawSizeX (pixelBody drawSizeX src y))
    (src, src, replicate (Z.to_nat (drawSizeX * drawSizeY)) 0).

(** The body of the inner tile loop, up to the stores into the maps. *)
Definition makeRegion (bitmap : Bitmap) (c : Z * Z * Z * Z)
    (pixelX pixelY drawSizeX drawSizeY : Z) : Region :=
  let '(c0, c1, c2, c3) := c in
  let src :=
    cropImageData bitmap (pixelX - c2) (pixelY - c3) drawSizeX drawSizeY in
  let '(orig, mapped, idxMap) := classifyRegion drawSizeX drawSizeY src in
  {| rg_key := templateTileName c0 c1 pixelX pixelY;
     rg_pixelX := pixelX; rg_pixelY := pixelY;
     rg_w := drawSizeX; rg_h := drawSizeY;
     rg_orig := orig; rg_mapped := mapped; rg_idx := idxMap |}.

(** [for (let pixelX = coords[2]; pixelX < imageWidth + coords[2]; )]. *)
Fixpoint loopX (fuel : nat) (bitmap : Bitmap) (c : Z * Z * Z * Z)
    (tileSize pixelY drawSizeY pixelX : Z) : option (list Region) :=
  if pixelX <? bm_width bitmap + c.1.2 then
    match fuel with
    | O => None
    | S fuel' =>
        let drawSizeX :=
          Z.min (tileSize - Z.rem pixelX tileSize)
                (bm_width bitmap - (pixelX - c.1.2)) in
        let region :=
          makeRegion bitmap c pixelX pixelY drawSizeX drawSizeY in
        rest ← loopX fuel' bitmap c tileSize pixelY drawSizeY
                     (pixelX + drawSizeX);
        Some (region :: rest)
    end
  else Some [].

(** [for (let pixelY = coords[3]; pixelY < imageHeight + coords[3]; )]. *)
Fixpoint loopY (fuel : nat) (bitmap : Bitmap) (c : Z * Z * Z * Z)
    (tileSize pixelY : Z) : option (list Region) :=
  if pixelY <? bm_height bitmap + c.2 then
    match fuel with
    | O => None
    | S fuel' =>
        let drawSizeY :=
          Z.min (tileSize - Z.rem pixelY tileSize)
                (bm_height bitmap - (pixelY - c.2)) in
        row ← loopX (Z.to_nat (bm_width bitmap)) bitmap c tileSize
                    pixelY drawSizeY c.1.2;
        rest ← loopY fuel' bitmap c tileSize (pixelY + drawSizeY);
        Some (row ++ rest)
    end
  else Some [].

(** The regions visited by the loops of [createTemplateTiles], in
    order.  [None]: the call does not return (no image or anchor, a
    zero tile size whose [NaN] sizes make [getImageData] throw, or
    loops that never reach their bound). *)
Definition sliceRegions (t : Template) : option (list Region) :=
  bitmap ← file t;
  c ← coords t;
  if tileSize t =? 0 then None
  else loopY (Z.to_nat (bm_height bitmap)) bitmap c (tileSize t) c.2.

Definition origImageData (r : Region) : Bitmap :=
  {| bm_width := rg_w r; bm_height := rg_h r; bm_data := rg_orig r |}.
Definition mappedImageData (r : Region) : Bitmap :=
  {| bm_width := rg_w r; bm_height := rg_h r; bm_data := rg_mapped r |}.

(** The stores of one iteration into an object keyed by tile name. *)
Definition storeAll {V : Type} (f : Region → V) (o : jsobj V)
    (rs : list Region) : jsobj V :=
  foldl (λ acc r, Obj.set acc (rg_key r) (f r)) o rs.

Definition createTemplateTiles (t : Template)
    : option (Template * TemplateTiles) :=
  bitmap ← file t;
  rs ← sliceRegions t;
  let t' :=
    set_colorIndexTiles
      (Some (storeAll
               (λ r, {| it_w := rg_w r; it_h := rg_h r;
                        it_data := rg_idx r |})
               (default [] (colorIndexTiles t)) rs))
      (set_pixelCount (bm_width bitmap * bm_height bitmap) t) in
  Some (t',
    {| templateTiles :=
         storeAll (λ r, renderToBitmap shreadSize (origImageData r)) [] rs;
       templateTilesAuto :=
         storeAll (λ r, renderToBitmap shreadSize (mappedImageData r))
           [] rs;
       templateTilesFull :=
         storeAll (λ r, renderToBitmapNoMask shreadSize (origImageData r))
           [] rs;
       templateTilesAutoFull :=
         storeAll
           (λ r, renderToBitmapNoMask shreadSize (mappedImageData r))
           [] rs;
       templateTilesBuffers :=
         storeAll
           (λ r, encodeBase64PNG
                   (renderToBitmap shreadSize (origImageData r)))
           [] rs |}).

End Slicing.

(* ===================================================================== *)
(** * templateManager.js: the registry, the compositor and its cache      *)
(* ===================================================================== *)

(** One entry of [templatesJSON.templates]. *)
Record TemplateJSON := {
  tj_name : string;
  tj_coords : option string;
  tj_enabled : option bool;
  tj_tiles : jsobj string
}.

Record TemplatesJSON := {
  whoami : string;
  scriptVersion : string;
  schemaVersion : string;
  templates : jsobj TemplateJSON
}.

(** One [context.drawImage(bitmap, x * drawMult, y * drawMult)] under a
    [globalAlpha]; [x] and [y] are the key fields as split, before
    [Number]. *)
Record DrawCall := {
  dc_bitmap : option Bitmap;
  dc_pixelCoords : option string * option string;
  dc_drawMult : Z;
  dc_globalAlpha : Q
}.

(** A tile image: the bytes received from the site, or the PNG of a
    [drawSize] canvas on which the tile and then the calls were drawn. *)
Inductive Blob :=
| TileBlob (bytes : list Z)
| MergedBlob (drawSize : Z) (tile : Blob) (calls : list DrawCall).

(** Calls received by the overlay (status sink). *)
Inductive OverlayCall :=
| DisplayStatus (text : string)
| DisplayError (text : string).

(** The fields of [TemplateManager] read or written by the functions
    below ([mgrTileSize] is the field [tileSize]), followed by the two
    collaborators they act on: the values written to the userscript
    storage under 'bmTemplates' (newest first) and the calls made on the
    overlay (newest first). *)
Record Manager := {
  name : string;
  version : string;
  templatesVersion : string;
  userID : option Z;
  encodingBase : string;
  mgrTileSize : Z;
  drawMult : Z;
  templatesArray : list Template;
  templatesJSON : option TemplatesJSON;
  templatesShouldBeDrawn : bool;
  statusLastUpdate : Z;
  statusUpdateIntervalMs : Z;
  autoColorLive : bool;
  mergedTileCache : gmap string Blob;
  cacheVersion : Z;
  maxTemplates : Z;
  zoomLevel : option Q;
  zoomOutThreshold : Q;
  zoomOpacity : Q;
  isZoomedOut : bool;
  gmWrites : list (option TemplatesJSON);
  overlayLog : list OverlayCall
}.

(** Field updates of the manager. *)
Definition set_templatesArray (v : list Template) (m : Manager) : Manager :=
  {| name := name m; version := version m; templatesVersion :=
     templatesVersion m; userID := userID m; encodingBase := encodingBase
     m; mgrTileSize := mgrTileSize m; drawMult := drawMult m;
     templatesArray := v; templatesJSON := templatesJSON m;
     templatesShouldBeDrawn := templatesShouldBeDrawn m; statusLastUpdate
     := statusLastUpdate m; statusUpdateIntervalMs :=
     statusUpdateIntervalMs m; autoColorLive := autoColorLive m;
     mergedTileCache := mergedTileCache m; cacheVersion := cacheVersion m;
     maxTemplates := maxTemplates m; zoomLevel := zoomLevel m;
     zoomOutThreshold := zoomOutThreshold m; zoomOpacity := zoomOpacity m;
     isZoomedOut := isZoomedOut m; gmWrites := gmWrites m; overlayLog :=
     overlayLog m |}.
Definition set_templatesJSON (v : option TemplatesJSON) (m : Manager) : Manager :=
  {| name := name m; version := version m; templatesVersion :=
     templatesVersion m; userID := userID m; encodingBase := encodingBase
     m; mgrTileSize := mgrTileSize m; drawMult := drawMult m;
     templatesArray := templatesArray m; templatesJSON := v;
     templatesShouldBeDrawn := templatesShouldBeDrawn m; statusLastUpdate
     := statusLastUpdate m; statusUpdateIntervalMs :=
     statusUpdateIntervalMs m; autoColorLive := autoColorLive m;
     mergedTileCache := mergedTileCache m; cacheVersion := cacheVersion m;
     maxTemplates := maxTemplates m; zoomLevel := zoomLevel m;
     zoomOutThreshold := zoomOutThreshold m; zoomOpacity := zoomOpacity m;
     isZoomedOut := isZoomedOut m; gmWrites := gmWrites m; overlayLog :=
     overlayLog m |}.
Definition set_templatesShouldBeDrawn (v : bool) (m : Manager) : Manager :=
  {| name := name m; version := version m; templatesVersion :=
     templatesVersion m; userID := userID m; encodingBase := encodingBase
     m; mgrTileSize := mgrTileSize m; drawMult := drawMult m;
     templatesArray := templatesArray m; templatesJSON := templatesJSON m;
     templatesShouldBeDrawn := v; statusLastUpdate := statusLastUpdate m;
     statusUpdateIntervalMs := statusUpdateIntervalMs m; autoColorLive :=
     autoColorLive m; mergedTileCache := mergedTileCache m; cacheVersion :=
     cacheVersion m; maxTemplates := maxTemplates m; zoomLevel := zoomLevel
     m; zoomOutThreshold := zoomOutThreshold m; zoomOpacity := zoomOpacity
     m; isZoomedOut := isZoomedOut m; gmWrites := gmWrites m; overlayLog :=
     overlayLog m |}.
Definition set_statusLastUpdate (v : Z) (m : Manager) : Manager :=
  {| name := name m; version := version m; templatesVersion :=
     templatesVersion m; userID := userID m; encodingBase := encodingBase
     m; mgrTileSize := mgrTileSize m; drawMult := drawMult m;
     templatesArray := templatesArray m; templatesJSON := templatesJSON m;
     templatesShouldBeDrawn := templatesShouldBeDrawn m; statusLastUpdate
     := v; statusUpdateIntervalMs := statusUpdateIntervalMs m;
     autoColorLive := autoColorLive m; mergedTileCache := mergedTileCache
     m; cacheVersion := cacheVersion m; maxTemplates := maxTemplates m;
     zoomLevel := zoomLevel m; zoomOutThreshold := zoomOutThreshold m;
     zoomOpacity := zoomOpacity m; isZoomedOut := isZoomedOut m; gmWrites
     := gmWrites m; overlayLog := overlayLog m |}.
Definition set_autoColorLive (v : bool) (m : Manager) : Manager :=
  {| name := name m; version := version m; templatesVersion :=
     templatesVersion m; userID := userID m; encodingBase := encodingBase
     m; mgrTileSize := mgrTileSize m; drawMult := drawMult m;
     templatesArray := templatesArray m; templatesJSON := templatesJSON m;
     templatesShouldBeDrawn := templatesShouldBeDrawn m; statusLastUpdate
     := statusLastUpdate m; statusUpdateIntervalMs :=
     statusUpdateIntervalMs m; autoColorLive := v; mergedTileCache :=
     mergedTileCache m; cacheVersion := cacheVersion m; maxTemplates :=
     maxTemplates m; zoomLevel := zoomLevel m; zoomOutThreshold :=
     zoomOutThreshold m; zoomOpacity := zoomOpacity m; isZoomedOut :=
     isZoomedOut m; gmWrites := gmWrites m; overlayLog := overlayLog m |}.
Definition set_mergedTileCache (v : gmap string Blob) (m : Manager) : Manager :=
  {| name := name m; version := version m; templatesVersion :=
     templatesVersion m; userID := userID m; encodingBase := encodingBase
     m; mgrTileSize := mgrTileSize m; drawMult := drawMult m;
     templatesArray := templatesArray m; templatesJSON := templatesJSON m;
     templatesShouldBeDrawn := templatesShouldBeDrawn m; statusLastUpdate
     := statusLastUpdate m; statusUpdateIntervalMs :=
     statusUpdateIntervalMs m; autoColorLive := autoColorLive m;
     mergedTileCache := v; cacheVersion := cacheVersion m; maxTemplates :=
     maxTemplates m; zoomLevel := zoomLevel m; zoomOutThreshold :=
     zoomOutThreshold m; zoomOpacity := zoomOpacity m; isZoomedOut :=
     isZoomedOut m; gmWrites := gmWrites m; overlayLog := overlayLog m |}.
Definition set_cacheVersion (v : Z) (m : Manager) : Manager :=
  {| name := name m; version := version m; templatesVersion :=
     templatesVersion m; userID := userID m; encodingBase := encodingBase
     m; mgrTileSize := mgrTileSize m; drawMult := drawMult m;
     templatesArray := templatesArray m; templatesJSON := templatesJSON m;
     templatesShouldBeDrawn := templatesShouldBeDrawn m; statusLastUpdate
     := statusLastUpdate m; statusUpdateIntervalMs :=
     statusUpdateIntervalMs m; autoColorLive := autoColorLive m;
     mergedTileCache := mergedTileCache m; cacheVersion := v; maxTemplates
     := maxTemplates m; zoomLevel := zoomLevel m; zoomOutThreshold :=
     zoomOutThreshold m; zoomOpacity := zoomOpacity m; isZoomedOut :=
     isZoomedOut m; gmWrites := gmWrites m; overlayLog := overlayLog m |}.
Definition set_zoomLevel (v : option Q) (m : Manager) : Manager :=
  {| name := name m; version := version m; templatesVersion :=
     templatesVersion m; userID := userID m; encodingBase := encodingBase
     m; mgrTileSize := mgrTileSize m; drawMult := drawMult m;
     templatesArray := templatesArray m; templatesJSON := templatesJSON m;
     templatesShouldBeDrawn := templatesShouldBeDrawn m; statusLastUpdate
     := statusLastUpdate m; statusUpdateIntervalMs :=
     statusUpdateIntervalMs m; autoColorLive := autoColorLive m;
     mergedTileCache := mergedTileCache m; cacheVersion := cacheVersion m;
     maxTemplates := maxTemplates m; zoomLevel := v; zoomOutThreshold :=
     zoomOutThreshold m; zoomOpacity := zoomOpacity m; isZoomedOut :=
     isZoomedOut m; gmWrites := gmWrites m; overlayLog := overlayLog m |}.
Definition set_isZoomedOut (v : bool) (m : Manager) : Manager :=
  {| name := name m; version := version m; templatesVersion :=
     templatesVersion m; userID := userID m; encodingBase := encodingBase
     m; mgrTileSize := mgrTileSize m; drawMult := drawMult m;
     templatesArray := templatesArray m; templatesJSON := templatesJSON m;
     templatesShouldBeDrawn := templatesShouldBeDrawn m; statusLastUpdate
     := statusLastUpdate m; statusUpdateIntervalMs :=
     statusUpdateIntervalMs m; autoColorLive := autoColorLive m;
     mergedTileCache := mergedTileCache m; cacheVersion := cacheVersion m;
     maxTemplates := maxTemplates m; zoomLevel := zoomLevel m;
     zoomOutThreshold := zoomOutThreshold m; zoomOpacity := zoomOpacity m;
     isZoomedOut := v; gmWrites := gmWrites m; overlayLog := overlayLog m |}.
Definition set_gmWrites (v : list (option TemplatesJSON)) (m : Manager) : Manager :=
  {| name := name m; version := version m; templatesVersion :=
     templatesVersion m; userID := userID m; encodingBase := encodingBase
     m; mgrTileSize := mgrTileSize m; drawMult := drawMult m;
     templatesArray := templatesArray m; templatesJSON := templatesJSON m;
     templatesShouldBeDrawn := templatesShouldBeDrawn m; statusLastUpdate
     := statusLastUpdate m; statusUpdateIntervalMs :=
     statusUpdateIntervalMs m; autoColorLive := autoColorLive m;
     mergedTileCache := mergedTileCache m; cacheVersion := cacheVersion m;
     maxTemplates := maxTemplates m; zoomLevel := zoomLevel m;
     zoomOutThreshold := zoomOutThreshold m; zoomOpacity := zoomOpacity m;
     isZoomedOut := isZoomedOut m; gmWrites := v; overlayLog := overlayLog
     m |}.
Definition set_overlayLog (v : list OverlayCall) (m : Manager) : Manager :=
  {| name := name m; version := version m; templatesVersion :=
     templatesVersion m; userID := userID m; encodingBase := encodingBase
     m; mgrTileSize := mgrTileSize m; drawMult := drawMult m;
     templatesArray := templatesArray m; templatesJSON := templatesJSON m;
     templatesShouldBeDrawn := templatesShouldBeDrawn m; statusLastUpdate
     := statusLastUpdate m; statusUpdateIntervalMs :=
     statusUpdateIntervalMs m; autoColorLive := autoColorLive m;
     mergedTileCache := mergedTileCache m; cacheVersion := cacheVersion m;
     maxTemplates := maxTemplates m; zoomLevel := zoomLevel m;
     zoomOutThreshold := zoomOutThreshold m; zoomOpacity := zoomOpacity m;
     isZoomedOut := isZoomedOut m; gmWrites := gmWrites m; overlayLog := v |}.

(** The state built by the constructor. *)
Definition newManager (name version : string) : Manager :=
  {| name := name; version := version; templatesVersion := "1.0.0";
     userID := None;
     encodingBase := "!#$%&'()*+,-./0123456789:;<=>?@ABCDEFGHIJKLMNOPQRSTUVWXYZ[]^_`abcdefghijklmnopqrstuvwxyz{|}~";
     mgrTileSize := 1000; drawMult := 3; templatesArray := [];
     templatesJSON := None; templatesShouldBeDrawn := true;
     statusLastUpdate := 0; statusUpdateIntervalMs := 500;
     autoColorLive := true; mergedTileCache := ∅; cacheVersion := 0;
     maxTemplates := 10; zoomLevel := None; zoomOutThreshold := 3 # 4;
     zoomOpacity := 4 # 10; isZoomedOut := true; gmWrites := [];
     overlayLog := [] |}.

(** [name.replace(' ', '')]: drops the first space. *)
Fixpoint dropFirstSpace (s : string) : string :=
  match s with
  | EmptyString => EmptyString
  | String c s' =>
      if Ascii.eqb c " "%char then s' else String c (dropFirstSpace s')
  end.

Definition createJSON (m : Manager) : TemplatesJSON :=
  {| whoami := dropFirstSpace (name m); scriptVersion := version m;
     schemaVersion := templatesVersion m; templates := [] |}.

(** [GM.setValue('bmTemplates', JSON.stringify(this.templatesJSON))]. *)
Definition storeTemplates (m : Manager) : Manager :=
  set_gmWrites (templatesJSON m :: gmWrites m) m.

Definition handleDisplayStatus (text : string) (m : Manager) : Manager :=
  set_overlayLog (DisplayStatus text :: overlayLog m) m.
Definition handleDisplayError (text : string) (m : Manager) : Manager :=
  set_overlayLog (DisplayError text :: overlayLog m) m.

(** [this.cacheVersion++; this.mergedTileCache.clear()]. *)
Definition invalidateCache (m : Manager) : Manager :=
  set_mergedTileCache ∅ (set_cacheVersion (JS.incr (cacheVersion m)) m).

(** [x?.idKey || `${x?.sortID} ${x?.authorID}`]. *)
Definition keyOf (x : Template) : string :=
  if String.eqb (idKey x) EmptyString then
    (JS.toString (sortID x) +:+ " " +:+ authorID x)%string
  else idKey x.

(** [let nextSortID = 0; while (usedSortIDs.has(nextSortID)) nextSortID++]. *)
Fixpoint nextSortIDFrom (fuel : nat) (used : list Z) (n : Z) : option Z :=
  if bool_decide (n ∈ used) then
    match fuel with
    | O => None
    | S fuel' => nextSortIDFrom fuel' used (n + 1)
    end
  else Some n.

(** How a call of [createTemplate] ended: at the capacity guard (the
    error is shown on the overlay and the call returns), or at its end. *)
Inductive CreateOutcome := CapacityExceeded | Created.

(** What [#updateZoomState] finds in [event.detail]: nothing, or the
    first of [zoom], [level], [scale] that is a number.  A number is
    [None] when it is [NaN]; for [scale] it is [Math.log2(scale)]. *)
Inductive ZoomDetail :=
| NoDetail
| DetailZoom (z : option Q)
| DetailLevel (z : option Q)
| DetailScale (log2scale : option Q).

(** What a call reads from its surroundings: [Date.now()], and
    [Math.log2(Math.max(1e-6, s))] for the scale [s] of the main canvas
    ([None] when [#getCanvasScale] returns [null]), read once by
    [#updateZoomState] and once before drawing. *)
Record Env := {
  env_now : Z;
  env_canvasZoom : option Q;
  env_canvasZoomAtDraw : option Q
}.

(** [templateArray.sort((a, b) => a.sortID - b.sortID)]: stable. *)
Fixpoint insertBySortID (x : Template) (l : list Template) : list Template :=
  match l with
  | [] => [x]
  | y :: l' =>
      if sortID x <=? sortID y then x :: y :: l'
      else y :: insertBySortID x l'
  end.
Definition sortBySortID (l : list Template) : list Template :=
  foldr insertBySortID [] l.

(** The object built for a template that has a chunk on the tile. *)
Record TileDraw := {
  td_bitmap : option Bitmap;
  td_tileCoords : option string * option string;
  td_pixelCoords : option string * option string
}.

Section Manager.

Variable colorpalette : list PaletteEntry.
Variable encodeBase64PNG : Bitmap → string.
(** [numberToEncoded] of [utils] and [Intl.NumberFormat().format]. *)
Variable numberToEncoded : Z → string → string.
Variable formatNumber : Z → string.
(** [base64ToUint8], [new Blob] and [createImageBitmap] in one step. *)
Variable decodeBase64PNG : string → Bitmap.
(** [Number(s)] on a string whose value is an integer; [None] for
    [NaN]. *)
Variable parseNumber : string → option Z.

Definition createTemplate (blob : Bitmap) (name : string)
    (coords : Z * Z * Z * Z) (autoColor : bool) (m : Manager)
    : option (CreateOutcome * Manager) :=
  let '(c0, c1, c2, c3) := coords in
  let coordsText := JS.joinCommaSpace [c0; c1; c2; c3] in
  (* Creates the JSON object if it does not already exist *)
  let m :=
    match templatesJSON m with
    | None => set_templatesJSON (Some (createJSON m)) m
    | Some _ => m
    end in
  let m :=
    handleDisplayStatus
      ("Creating template at " +:+ coordsText +:+ "...")%string m in
  (* Enforce maximum template count *)
  if maxTemplates m <=? Z.of_nat (length (templatesArray m)) then
    Some (CapacityExceeded,
          handleDisplayError
            ("You can have up to " +:+ JS.toString (maxTemplates m) +:+
             " templates. Remove one to add another.")%string m)
  else
    let usedSortIDs := sortID <$> templatesArray m in
    nextSortID ← nextSortIDFrom (length usedSortIDs) usedSortIDs 0;
    let template :=
      newTemplate name nextSortID
        (numberToEncoded (default 0 (userID m)) (encodingBase m))
        (Some blob) (Some coords) autoColor true EmptyString in
    let template :=
      set_idKey
        (JS.toString (sortID template) +:+ " " +:+ authorID template)%string
        template in
    '(template, tiles) ←
      createTemplateTiles colorpalette encodeBase64PNG template;
    let template :=
      set_chunkedAutoFull (Some (templateTilesAutoFull tiles))
        (set_chunkedOriginalFull (Some (templateTilesFull tiles))
           (set_chunkedAuto (Some (templateTilesAuto tiles))
              (set_chunkedOriginal (Some (templateTiles tiles))
                 template))) in
    let template :=
      set_chunked
        (if autoColorLive m || autoColor then chunkedAuto template
         else chunkedOriginal template)
        template in
    json ← templatesJSON m;
    let json :=
      {| whoami := whoami json; scriptVersion := scriptVersion json;
         schemaVersion := schemaVersion json;
         templates :=
           Obj.set (templates json) (idKey template)
             {| tj_name := displayName template;
                tj_coords := Some coordsText;
                tj_enabled := Some true;
                tj_tiles := templateTilesBuffers tiles |} |} in
    let m := set_templatesJSON (Some json) m in
    let m := set_templatesArray (templatesArray m ++ [template]) m in
    let m :=
      handleDisplayStatus
        ("Template created at " +:+ coordsText +:+ "! Total pixels: " +:+
         formatNumber (pixelCount template))%string m in
    (* Invalidate merged tile cache because template set changed *)
    let m := invalidateCache m in
    Some (Created, storeTemplates m).

(** The body of the [for ... in] loop of [#parseBlueMarble]. *)
Definition parseTemplateEntry (m : Manager)
    (entry : string * TemplateJSON) : Manager :=
  let '(templateKey, templateValue) := entry in
  let templateKeyArray := JS.splitSpace templateKey in
  let sortID : option Z := templateKeyArray !! 0%nat ≫= parseNumber in
  let authorID :=
    match templateKeyArray !! 1%nat with
    | Some a => if String.eqb a EmptyString then "0" else a
    | None => "0"
    end in
  let displayName :=
    if String.eqb (tj_name templateValue) EmptyString then
      ("Template " +:+
       match sortID with
       | Some n => if (n =? 0)%Z then EmptyString else JS.toString n
       | None => EmptyString
       end)%string
    else tj_name templateValue in
  let templateTiles :=
    foldl (λ acc tile, Obj.set acc tile.1 (decodeBase64PNG tile.2)) []
      (tj_tiles templateValue) in
  (* Respect max templates *)
  if maxTemplates m <=? Z.of_nat (length (templatesArray m)) then m
  else
    let templateObj :=
      newTemplate displayName
        (match sortID with
         | Some n =>
             if n =? 0 then Z.of_nat (length (templatesArray m)) else n
         | None => Z.of_nat (length (templatesArray m))
         end)
        authorID None None false
        (negb (bool_decide (tj_enabled templateValue = Some false)))
        templateKey in
    let templateObj := set_chunked (Some templateTiles) templateObj in
    set_templatesArray (templatesArray m ++ [templateObj]) m.

Definition parseBlueMarble (json : TemplatesJSON) (m : Manager)
    : Manager :=
  foldl parseTemplateEntry m (templates json).

(** [importJSON(json)] for a parsed document of the persisted shape. *)
Definition importJSON (json : TemplatesJSON) (m : Manager) : Manager :=
  let validWhoami :=
    String.eqb (whoami json) "BlueMarble"
    || String.eqb (whoami json) (dropFirstSpace (name m)) in
  if validWhoami then
    parseBlueMarble json (set_templatesJSON (Some json) m)
  else m.

(** [#updateZoomState(event)]. *)
Definition updateZoomState (canvasZoom : option Q) (d : ZoomDetail)
    (m : Manager) : Manager :=
  let z :=
    match d with
    | NoDetail => zoomLevel m
    | DetailZoom z | DetailLevel z | DetailScale z => z
    end in
  (* Fallback: compute from canvas CSS transform scale *)
  let z := match z with None => canvasZoom | Some _ => z end in
  let prev := isZoomedOut m in
  let m :=
    match z with
    | Some q =>
        set_isZoomedOut (Qle_bool q (zoomOutThreshold m))
          (set_zoomLevel (Some q) m)
    | None => m
    end in
  if negb (eqb prev (isZoomedOut m)) then invalidateCache m else m.

Definition setAutoColorLive (value : bool) (m : Manager) : Manager :=
  set_autoColorLive value m.

Definition setTemplatesShouldBeDrawn (value : bool) (m : Manager)
    : Manager :=
  set_templatesShouldBeDrawn value m.

(** The [map] callback of [drawTemplateOnTile]: the first chunk of the
    active map whose key starts with the tile coordinates, with the
    bitmap to draw for it.  The outer [None] is the [TypeError] of
    [Object.keys(null)]; the inner one is the [null] for no match. *)
Definition chunkForTile (autoColorLive : bool) (tileCoords : string)
    (template : Template) : option (option TileDraw) :=
  active ← chunked template;
  let matchingTiles :=
    filter (λ tile, JS.startsWith tile tileCoords = true)
      (Obj.keys active) in
  let matchingTileBlobs :=
    (λ tile,
      let coords := JS.splitComma tile in
      (* Choose which bitmap set to draw from *)
      let sourceMap :=
        if autoColorLive
        then default active (chunkedAuto template)
        else default active (chunkedOriginal template) in
      let sourceMapFull :=
        if autoColorLive
        then default sourceMap (chunkedAutoFull template)
        else default sourceMap (chunkedOriginalFull template) in
      (* Use the masked 3x3 scaled bitmap *)
      {| td_bitmap := Obj.get sourceMap tile;
         td_tileCoords := (coords !! 0%nat, coords !! 1%nat);
         td_pixelCoords := (coords !! 2%nat, coords !! 3%nat) |})
    <$> matchingTiles in
  Some (head matchingTileBlobs).

(** [localIsZoomedOut]. *)
Definition localIsZoomedOut (canvasZoomAtDraw : option Q) (m : Manager)
    : bool :=
  let zEff :=
    match canvasZoomAtDraw with
    | Some q => Some q
    | None => zoomLevel m
    end in
  match zEff with
  | Some q => Qle_bool q (zoomOutThreshold m)
  | None => isZoomedOut m
  end.

(** The [drawImage] of the final loop for one template of the tile. *)
Definition drawCall (zoomedOut : bool) (m : Manager) (td : TileDraw)
    : DrawCall :=
  if zoomedOut then
    {| dc_bitmap := td_bitmap td; dc_pixelCoords := td_pixelCoords td;
       dc_drawMult := drawMult m; dc_globalAlpha := zoomOpacity m |}
  else
    {| dc_bitmap := td_bitmap td; dc_pixelCoords := td_pixelCoords td;
       dc_drawMult := drawMult m; dc_globalAlpha := 1 |}.

Definition hasChunkOnTile (tileCoords : string) (template : Template)
    : bool :=
  bool_decide
    (Exists (λ tile, JS.startsWith tile tileCoords = true)
       (Obj.keys (default [] (chunked template)))).

Definition drawTemplateOnTile (env : Env) (tileBlob : Blob)
    (tileCoords : Z * Z) (m : Manager) : option (Blob * Manager) :=
  (* Returns early if no templates should be drawn *)
  if negb (templatesShouldBeDrawn m) then Some (tileBlob, m) else
  let drawSize := mgrTileSize m * drawMult m in
  let tileCoords :=
    (JS.padStart0 4 (JS.toString tileCoords.1) +:+ "," +:+
     JS.padStart0 4 (JS.toString tileCoords.2))%string in
  (* Fast path: nothing to draw if there are no templates at all *)
  if bool_decide (templatesArray m = []) then Some (tileBlob, m) else
  let m := updateZoomState (env_canvasZoom env) NoDetail m in
  let zoomKey := if isZoomedOut m then "full" else "mask" in
  let cacheKey :=
    (tileCoords +:+ "|" +:+ (if autoColorLive m then "auto" else "orig")
     +:+ "|" +:+ zoomKey +:+ "|v" +:+ JS.toString (cacheVersion m))%string in
  match mergedTileCache m !! cacheKey with
  | Some cached => Some (cached, m)
  | None =>
      let templateArray :=
        sortBySortID (filter (λ t, enabled t = true) (templatesArray m)) in
      match mapM (M := option) (chunkForTile (autoColorLive m) tileCoords)
              templateArray with
      | None => None
      | Some found =>
      let templatesToDraw : list TileDraw := omap id found in
      if bool_decide (templatesToDraw = []) then Some (tileBlob, m) else
      (* Throttle expensive status updates *)
      let m :=
        if statusUpdateIntervalMs m <=? env_now env - statusLastUpdate m
        then
          let templateCount := Z.of_nat (length templatesToDraw) in
          let totalPixels :=
            foldl (λ sum t, sum + pixelCount t) 0
              (filter (λ t, hasChunkOnTile tileCoords t = true)
                 templateArray) in
          set_statusLastUpdate (env_now env)
            (if 0 <? templateCount then
               handleDisplayStatus
                 ("Displaying " +:+ JS.toString templateCount +:+
                  " template" +:+
                  (if (templateCount =? 1)%Z then EmptyString else "s") +:+
                  "." +:+ String "010"%char "Total pixels: " +:+
                  formatNumber totalPixels)%string m
             else
               handleDisplayStatus
                 ("Displaying " +:+ JS.toString templateCount +:+
                  " templates.")%string m)
        else m in
      let zoomedOut := localIsZoomedOut (env_canvasZoomAtDraw env) m in
      let outBlob :=
        MergedBlob drawSize tileBlob
          (drawCall zoomedOut m <$> templatesToDraw) in
      Some (outBlob,
            set_mergedTileCache (<[cacheKey := outBlob]> (mergedTileCache m))
              m)
      end
  end.

(** The local [nearestIdx] of [#ensureIndexMapForTemplateTile]. *)
Definition nearestIdx (r g b : Z) : Z :=
  fst (foldl (index_step r g b) (1, Infinity)
         (zip (seqZ 0 (Z.of_nat (length colorpalette))) colorpalette)).

(** [#ensureIndexMapForTemplateTile(tpl, key)], for the manager's
    [drawMult]; the 2d context is taken to exist. *)
Definition ensureIndexMapForTemplateTile (m : Manager) (tpl : Template)
    (key : string) : Template :=
  if String.eqb key EmptyString then tpl else
  let tpl :=
    match colorIndexTiles tpl with
    | None => set_colorIndexTiles (Some []) tpl
    | Some _ => tpl
    end in
  let idxTiles := default [] (colorIndexTiles tpl) in
  match Obj.get idxTiles key with
  | Some _ => tpl (* already computed *)
  | None =>
      match chunked tpl ≫= λ o, Obj.get o key with
      | None => tpl
      | Some bmp =>
          if (bm_width bmp =? 0) || (bm_height bmp =? 0) then tpl else
          let drawMult :=
            Z.max 1 (if drawMult m =? 0 then 1 else drawMult m) in
          let w := Z.max 1 (JS.roundDiv (bm_width bmp) drawMult) in
          let h := Z.max 1 (JS.roundDiv (bm_height bmp) drawMult) in
          let mid := drawMult / 2 in
          let data := bm_data bmp in
          let idxMap :=
            JS.forRange h (λ y,
              JS.forRange w (λ x idxMap,
                let sx := x * drawMult + mid in
                let sy := y * drawMult + mid in
                let p := (sy * bm_width bmp + sx) * 4 in
                let a := JS.get0 data (p + 3) in
                if a =? 0 then JS.put idxMap (y * w + x) 0
                else
                  let r := JS.get0 data p in
                  let g := JS.get0 data (p + 1) in
                  let b := JS.get0 data (p + 2) in
                  JS.put idxMap (y * w + x)
                    (JS.wrap16 (nearestIdx r g b))))
              (replicate (Z.to_nat (w * h)) 0) in
          set_colorIndexTiles
            (Some (Obj.set idxTiles key
                     {| it_w := w; it_h := h; it_data := idxMap |}))
            tpl
      end
  end.

(** [getTemplateSummaries()]: [{ idKey, name, enabled }] per template;
    an empty display name falls back to 'Template'. *)
Definition getTemplateSummaries (m : Manager)
    : list (string * string * bool) :=
  (λ t, (keyOf t,
         if String.eqb (displayName t) EmptyString then "Template"
         else displayName t,
         enabled t)) <$> templatesArray m.

(** [t.enabled = v] on the first template whose key is [idKey]. *)
Fixpoint setEnabledFirst (idKey : string) (v : bool) (l : list Template)
    : list Template :=
  match l with
  | [] => []
  | x :: l' =>
      if String.eqb (keyOf x) idKey then set_enabled v x :: l'
      else x :: setEnabledFirst idKey v l'
  end.

Definition setTemplateEnabled (idKey : string) (enabled : bool)
    (m : Manager) : Manager :=
  match find (λ x, String.eqb (keyOf x) idKey) (templatesArray m) with
  | None => m
  | Some _ =>
      let m :=
        set_templatesArray
          (setEnabledFirst idKey enabled (templatesArray m)) m in
      let m :=
        match templatesJSON m with
        | Some json =>
            match Obj.get (templates json) idKey with
            | Some entry =>
                set_templatesJSON
                  (Some
                     {| whoami := whoami json;
                        scriptVersion := scriptVersion json;
                        schemaVersion := schemaVersion json;
                        templates :=
                          Obj.set (templates json) idKey
                            {| tj_name := tj_name entry;
                               tj_coords := tj_coords entry;
                               tj_enabled := Some enabled;
                               tj_tiles := tj_tiles entry |} |}) m
            | None => m
            end
        | None => m
        end in
      (* Invalidate caches and persist *)
      storeTemplates (invalidateCache m)
  end.

Definition removeTemplate (idKey : string) (m : Manager) : Manager :=
  let beforeLen := length (templatesArray m) in
  let m :=
    set_templatesArray
      (filter (λ x, String.eqb (keyOf x) idKey = false) (templatesArray m))
      m in
  let m :=
    if negb (beforeLen =? length (templatesArray m))%nat then
      match templatesJSON m with
      | Some json =>
          match Obj.get (templates json) idKey with
          | Some _ =>
              set_templatesJSON
                (Some
                   {| whoami := whoami json;
                      scriptVersion := scriptVersion json;
                      schemaVersion := schemaVersion json;
                      templates := Obj.remove (templates json) idKey |}) m
          | None => m
          end
      | None => m
      end
    else m in
  (* Invalidate caches and persist *)
  storeTemplates (invalidateCache m).

End Manager.


(* ===================================================================== *)
(** * templateManager.js: the colour picked under the cursor              *)
(* ===================================================================== *)

(** [enabled.sort((a, b) => a.sortID - b.sortID)] on templates that carry
    their position in [templatesArray] (the objects are shared with it). *)
Fixpoint insertIndexedBySortID (x : nat * Template)
    (l : list (nat * Template)) : list (nat * Template) :=
  match l with
  | [] => [x]
  | y :: l' =>
      if sortID x.2 <=? sortID y.2 then x :: y :: l'
      else y :: insertIndexedBySortID x l'
  end.
Definition sortIndexedBySortID (l : list (nat * Template))
    : list (nat * Template) :=
  foldr insertIndexedBySortID [] l.

Section ColorPicker.

Variable colorpalette : list PaletteEntry.
(** [Number(s)] on a string whose value is an integer; [None] for
    [NaN]. *)
Variable parseNumber : string → option Z.

(** The loop over [searchKeys]: the first region of the grid that holds
    a positive index at the pixel. *)
Fixpoint searchIndexTiles (idxTiles : jsobj IndexTile) (pxX pxY : Z)
    (searchKeys : list string) : option Z :=
  match searchKeys with
  | [] => None
  | key :: rest =>
      let parts := JS.splitComma key in
      let startX : option Z := parts !! 2%nat ≫= parseNumber in
      let startY : option Z := parts !! 3%nat ≫= parseNumber in
      match Obj.get idxTiles key, startX, startY with
      | Some it, Some startX, Some startY =>
          if (it_w it =? 0) || (it_h it =? 0)
          then searchIndexTiles idxTiles pxX pxY rest
          else
            let localX := pxX - startX in
            let localY := pxY - startY in
            if (0 <=? localX) && (0 <=? localY) &&
               (localX <? it_w it) && (localY <? it_h it)
            then
              let idx := JS.get0 (it_data it) (localY * it_w it + localX) in
              if 0 <? idx then Some idx
              else searchIndexTiles idxTiles pxX pxY rest
            else searchIndexTiles idxTiles pxX pxY rest
      | Some it, _, _ =>
          (* a start that is [NaN] fails every comparison *)
          searchIndexTiles idxTiles pxX pxY rest
      | None, _, _ => searchIndexTiles idxTiles pxX pxY rest
      end
  end.

(** The body of the loop over the enabled templates: the template with
    its index grids completed, and the index found in it, if any. *)
Definition pickInTemplate (m : Manager) (tilePrefix : string)
    (pxX pxY : Z) (tpl : Template) : Template * option Z :=
  (* Ensure colorIndexTiles container exists for lazy computation *)
  let tpl :=
    match colorIndexTiles tpl with
    | None => set_colorIndexTiles (Some []) tpl
    | Some _ => tpl
    end in
  let keys :=
    filter (λ k, JS.startsWith k tilePrefix = true)
      (Obj.keys (default [] (colorIndexTiles tpl))) in
  (* If no precomputed keys found, compute from bitmaps for this tile *)
  let tpl :=
    match keys, chunked tpl with
    | [], Some active =>
        foldl (λ t key,
                 if JS.startsWith key tilePrefix
                 then ensureIndexMapForTemplateTile colorpalette m t key
                 else t)
          tpl (Obj.keys active)
    | _, _ => tpl
    end in
  let idxTiles := default [] (colorIndexTiles tpl) in
  let keys2 :=
    filter (λ k, JS.startsWith k tilePrefix = true) (Obj.keys idxTiles) in
  let searchKeys := match keys2 with [] => keys | _ => keys2 end in
  (tpl, searchIndexTiles idxTiles pxX pxY searchKeys).

(** The loop from the topmost template down; [arr] is [templatesArray],
    whose objects the loop completes in place. *)
Fixpoint pickLoop (m : Manager) (tilePrefix : string) (pxX pxY : Z)
    (todo : list (nat * Template)) (arr : list Template)
    : Z * list Template :=
  match todo with
  | [] => (0, arr)
  | (i, tpl) :: rest =>
      let '(tpl', found) := pickInTemplate m tilePrefix pxX pxY tpl in
      let arr := <[i := tpl']> arr in
      match found with
      | Some idx => (idx, arr)
      | None => pickLoop m tilePrefix pxX pxY rest arr
      end
  end.

(** [#getNearestPaletteIndexAt(tileCoords, pixelCoords)]. *)
Definition getNearestPaletteIndexAt (tileCoords pixelCoords : Z * Z)
    (m : Manager) : Z * Manager :=
  let enabled :=
    sortIndexedBySortID
      (filter (λ it, enabled it.2 = true)
         (imap (λ i t, (i, t)) (templatesArray m))) in
  let tilePrefix :=
    (JS.padStart0 4 (JS.toString tileCoords.1) +:+ "," +:+
     JS.padStart0 4 (JS.toString tileCoords.2) +:+ ",")%string in
  let '(idx, arr) :=
    pickLoop m tilePrefix pixelCoords.1 pixelCoords.2
      (reverse enabled) (templatesArray m) in
  (idx, set_templatesArray arr m).

End ColorPicker.

(* ===================================================================== *)
(** * templateManager.js: a creation that is suspended and resumed         *)
(* ===================================================================== *)

(** [createTemplate] is an [async] method: between its capacity guard and
    the [push] onto [templatesArray] it awaits the slicing, and other
    calls of the manager may run meanwhile.  The two definitions below
    are the two halves of [createTemplate] on either side of that
    [await]; run one after the other they are [createTemplate] itself. *)

(** What a [createTemplate] call holds while it is suspended at
    [await template.createTemplateTiles(...)]: the template it built and
    the arguments it still needs. *)
Record PendingTemplate := {
  pt_template : Template;
  pt_tiles : TemplateTiles;
  pt_coords : Z * Z * Z * Z;
  pt_autoColor : bool
}.

Section CreateInTwoSteps.

Variable colorpalette : list PaletteEntry.
Variable encodeBase64PNG : Bitmap → string.
Variable numberToEncoded : Z → string → string.
Variable formatNumber : Z → string.

(** [createTemplate] up to that [await]: the capacity guard, the choice
    of the sort ID and the slicing, which touches the new template
    only.  The result is [None] for a call that ended at the guard.
    (The earlier [await this.createJSON()], taken only while no JSON
    document exists, is not a point of suspension here.) *)
Definition createTemplateBegin (blob : Bitmap) (name : string)
    (coords : Z * Z * Z * Z) (autoColor : bool) (m : Manager)
    : option (option PendingTemplate * Manager) :=
  let '(c0, c1, c2, c3) := coords in
  let coordsText := JS.joinCommaSpace [c0; c1; c2; c3] in
  (* Creates the JSON object if it does not already exist *)
  let m :=
    match templatesJSON m with
    | None => set_templatesJSON (Some (createJSON m)) m
    | Some _ => m
    end in
  let m :=
    handleDisplayStatus
      ("Creating template at " +:+ coordsText +:+ "...")%string m in
  (* Enforce maximum template count *)
  if maxTemplates m <=? Z.of_nat (length (templatesArray m)) then
    Some (None,
          handleDisplayError
            ("You can have up to " +:+ JS.toString (maxTemplates m) +:+
             " templates. Remove one to add another.")%string m)
  else
    let usedSortIDs := sortID <$> templatesArray m in
    nextSortID ← nextSortIDFrom (length usedSortIDs) usedSortIDs 0;
    let template :=
      newTemplate name nextSortID
        (numberToEncoded (default 0 (userID m)) (encodingBase m))
        (Some blob) (Some coords) autoColor true EmptyString in
    let template :=
      set_idKey
        (JS.toString (sortID template) +:+ " " +:+ authorID template)%string
        template in
    '(template, tiles) ←
      createTemplateTiles colorpalette encodeBase64PNG template;
    Some (Some {| pt_template := template; pt_tiles := tiles;
                  pt_coords := coords; pt_autoColor := autoColor |}, m).

(** [createTemplate] from that [await] on, in the state the manager has
    when the call resumes. *)
Definition createTemplateFinish (p : PendingTemplate) (m : Manager)
    : option Manager :=
  let '(c0, c1, c2, c3) := pt_coords p in
  let coordsText := JS.joinCommaSpace [c0; c1; c2; c3] in
  let tiles := pt_tiles p in
  let template :=
    set_chunkedAutoFull (Some (templateTilesAutoFull tiles))
      (set_chunkedOriginalFull (Some (templateTilesFull tiles))
         (set_chunkedAuto (Some (templateTilesAuto tiles))
            (set_chunkedOriginal (Some (templateTiles tiles))
               (pt_template p)))) in
  let template :=
    set_chunked
      (if autoColorLive m || pt_autoColor p then chunkedAuto template
       else chunkedOriginal template)
      template in
  json ← templatesJSON m;
  let json :=
    {| whoami := whoami json; scriptVersion := scriptVersion json;
       schemaVersion := schemaVersion json;
       templates :=
         Obj.set (templates json) (idKey template)
           {| tj_name := displayName template;
              tj_coords := Some coordsText;
              tj_enabled := Some true;
              tj_tiles := templateTilesBuffers tiles |} |} in
  let m := set_templatesJSON (Some json) m in
  let m := set_templatesArray (templatesArray m ++ [template]) m in
  let m :=
    handleDisplayStatus
      ("Template created at " +:+ coordsText +:+ "! Total pixels: " +:+
       formatNumber (pixelCount template))%string m in
  (* Invalidate merged tile cache because template set changed *)
  let m := invalidateCache m in
  Some (storeTemplates m).

(** Two calls of [createTemplate], the second one started while the
    first is suspended at its [await]; each resumes in turn. *)
Definition createTemplateOverlapped
    (blob1 : Bitmap) (name1 : string) (coords1 : Z * Z * Z * Z)
    (autoColor1 : bool)
    (blob2 : Bitmap) (name2 : string) (coords2 : Z * Z * Z * Z)
    (autoColor2 : bool) (m : Manager) : option Manager :=
  '(p1, m) ← createTemplateBegin blob1 name1 coords1 autoColor1 m;
  '(p2, m) ← createTemplateBegin blob2 name2 coords2 autoColor2 m;
  m ← match p1 with Some p => createTemplateFinish p m | None => Some m end;
  match p2 with Some p => createTemplateFinish p m | None => Some m end.

End CreateInTwoSteps.

(* ===================================================================== *)
(** * main.js: the text of the template list                              *)
(* ===================================================================== *)

(** The replacement of one character by [escapeHtml]. *)
Definition escapeChar (c : ascii) : string :=
  if Ascii.eqb c "&"%char then "&amp;"
  else if Ascii.eqb c "<"%char then "&lt;"
  else if Ascii.eqb c ">"%char then "&gt;"
  else if Ascii.eqb c "034"%char then "&quot;"
  else if Ascii.eqb c "'"%char then "&#39;"
  else String c EmptyString.

(** [escapeHtml(str)] of [renderTemplateList], on a string. *)
Fixpoint escapeHtml (str : string) : string :=
  match str with
  | EmptyString => EmptyString
  | String c rest => (escapeChar c +:+ escapeHtml rest)%string
  end.

(* ===================================================================== *)
(** * Vocabulary of the specification, and sample inputs                  *)
(* ===================================================================== *)

(** ** Palette search *)

(** The triples the scan compares against, in palette order. *)
Definition candidates (pal : list PaletteEntry) : list (Z * Z * Z) :=
  omap (λ c, if String.eqb (pe_name c) "Transparent" then None
             else pe_rgb c) pal.

(** The scan restricted to the candidates. *)
Definition cand_step (r g b : Z) (acc : option (Z * Z * Z) * jsdist)
    (p : Z * Z * Z) : option (Z * Z * Z) * jsdist :=
  if dist_lt (sqdist r g b p) (snd acc)
  then (Some p, Finite (sqdist r g b p)) else acc.

(** What the specification says of [nearestColor]: the result is the
    triple of the first searchable entry of least squared distance, and
    the input itself when nothing is searchable. *)
Definition first_minimum_of (searchable : list PaletteEntry)
    (r g b : Z) (res : Z * Z * Z) : Prop :=
  (searchable = [] → res = (r, g, b)) ∧
  (searchable ≠ [] →
   ∃ (i : nat) c,
     searchable !! i = Some c ∧ pe_rgb c = Some res ∧
     ∀ (j : nat) c' p', searchable !! j = Some c' → pe_rgb c' = Some p' →
       sqdist r g b res ≤ sqdist r g b p' ∧
       ((j < i)%nat → sqdist r g b res < sqdist r g b p')).

Definition demoPalette : list PaletteEntry :=
  [ {| pe_name := "Transparent"; pe_rgb := Some (0, 0, 0) |};
    {| pe_name := "Black"; pe_rgb := Some (0, 0, 0) |};
    {| pe_name := "White"; pe_rgb := Some (255, 255, 255) |} ].

(** ** Strings *)

(** Every character of the string satisfies [P]. *)
Fixpoint all_chars (P : ascii → Prop) (s : string) : Prop :=
  match s with
  | EmptyString => True
  | String c s' => P c ∧ all_chars P s'
  end.

Definition not_comma (c : ascii) : Prop := c ≠ ","%char.

(** A decimal numeral as [toString] prints it: not empty, and with a
    leading zero only when it is "0". *)
Definition canonical (s : string) : Prop :=
  s ≠ EmptyString ∧ ∀ s', s = String "0"%char s' → s' = EmptyString.

(** ** Slicing *)

(** The pixel [(i, j)] of the image lies in the rectangle of the region;
    [(c2, c3)] is the pixel part of the anchor. *)
Definition covers (c2 c3 i j : Z) (r : Region) : bool :=
  (rg_pixelX r - c2 <=? i) && (i <? rg_pixelX r - c2 + rg_w r) &&
  (rg_pixelY r - c3 <=? j) && (j <? rg_pixelY r - c3 + rg_h r).

(** In how many of the regions the pixel lies. *)
Definition coverCount (c2 c3 i j : Z) (rs : list Region) : nat :=
  length (filter (λ r, covers c2 c3 i j r = true) rs).

(** The rectangle of the region lies in the [W]x[H] box and is not
    empty. *)
Definition insideBox (c2 c3 W H : Z) (r : Region) : Prop :=
  0 ≤ rg_pixelX r - c2 ∧ rg_pixelX r - c2 + rg_w r ≤ W ∧
  0 ≤ rg_pixelY r - c3 ∧ rg_pixelY r - c3 + rg_h r ≤ H ∧
  1 ≤ rg_w r ∧ 1 ≤ rg_h r.

(** The size of the next region along one axis, in the words of the
    specification. *)
Definition specExtent (tileSize coord remaining : Z) : Z :=
  Z.min (tileSize - coord mod tileSize) remaining.


(** What the loops guarantee of a region of the row at [pixelY]. *)
Definition regionOK (bitmap : Bitmap) (c : Z * Z * Z * Z) (ts : Z)
    (r : Region) : Prop :=
  rg_key r = templateTileName c.1.1.1 c.1.1.2 (rg_pixelX r) (rg_pixelY r) ∧
  rg_w r = Z.min (ts - Z.rem (rg_pixelX r) ts)
                 (bm_width bitmap - (rg_pixelX r - c.1.2)) ∧
  rg_h r = Z.min (ts - Z.rem (rg_pixelY r) ts)
                 (bm_height bitmap - (rg_pixelY r - c.2)) ∧
  1 ≤ rg_w r ∧ rg_pixelX r + rg_w r ≤ bm_width bitmap + c.1.2 ∧
  1 ≤ rg_h r ∧ rg_pixelY r + rg_h r ≤ bm_height bitmap + c.2.

Definition opaquePixel : Bitmap :=
  {| bm_width := 1; bm_height := 1; bm_data := [10; 20; 30; 255] |}.

(** A two-pixel image across a tile boundary of the default grid. *)
Definition twoPixels : Bitmap :=
  {| bm_width := 2; bm_height := 1;
     bm_data := [222; 250; 206; 255; 10; 10; 10; 7] |}.

Definition boundaryTemplate : Template :=
  {| displayName := "boundary"; sortID := 0; authorID := "A";
     url := EmptyString; file := Some twoPixels;
     coords := Some (1, 2, 999, 0); chunked := None; autoColor := false;
     tileSize := 1000; pixelCount := 0; colorIndexTiles := Some [];
     enabled := true; idKey := "0 A";
     chunkedOriginal := None; chunkedAuto := None;
     chunkedOriginalFull := None; chunkedAutoFull := None |}.

(** The same image in a template as the constructor builds it
    ([createTemplate] and [#parseBlueMarble] pass no tile size, so a
    template of the program always has the constructor's 1000), anchored
    at a pixel offset beyond the tile size. *)
Definition farAnchored : Template :=
  newTemplate "far" 0 "A" (Some twoPixels) (Some (1, 2, 1999, 0))
    false true "0 A".

(** ** Pixel classification *)

(** What the three buffers hold for the pixel [(x, y)] of a region of
    width [w]: the four bytes of [orig], the four bytes of [mapped] and
    the entry of the index grid ([None] outside a buffer). *)
Definition pixelView (w x y : Z) (bufs : list Z * list Z * list Z)
    : list (option Z) * list (option Z) * option Z :=
  let '(orig, mapped, idxMap) := bufs in
  let p := (y * w + x) * 4 in
  ([JS.at_ orig p; JS.at_ orig (p + 1); JS.at_ orig (p + 2);
    JS.at_ orig (p + 3)],
   [JS.at_ mapped p; JS.at_ mapped (p + 1); JS.at_ mapped (p + 2);
    JS.at_ mapped (p + 3)],
   JS.at_ idxMap (y * w + x)).

(** The outcome the specification gives for a sentinel pixel at the
    region-local position [(x, y)]. *)
Definition sentinelOutcome (x y : Z)
    (v : list (option Z) * list (option Z) * option Z) : Prop :=
  let '(o, m, i) := v in
  i = Some 0 ∧
  if (x + y) mod 2 =? 0 then
    o = [Some 0; Some 0; Some 0; Some 32] ∧
    m = [Some 0; Some 0; Some 0; Some 32]
  else o !! 3%nat = Some (Some 0) ∧ m !! 3%nat = Some (Some 0).

(** The buffers have the sizes of a [w] x [h] region. *)
Definition bufsSized (w h : Z) (bufs : list Z * list Z * list Z) : Prop :=
  let '(orig, mapped, idxMap) := bufs in
  length orig = Z.to_nat (4 * (w * h)) ∧
  length mapped = Z.to_nat (4 * (w * h)) ∧
  length idxMap = Z.to_nat (w * h).

(** A 2 x 1 source made of two sentinel pixels of different alpha. *)
Definition sentinelPair : list Z := [222; 250; 206; 255; 222; 250; 206; 0].

(** ** Registry *)

(** The [templates] object of the persisted JSON; empty while the JSON
    document does not exist. *)
Definition templatesOf (m : Manager) : jsobj TemplateJSON :=
  match templatesJSON m with
  | Some json => templates json
  | None => []
  end.

(** No loaded template answers to [idKey]. *)
Definition noTemplateWithKey (idKey : string) (m : Manager) : Prop :=
  Forall (λ x, keyOf x ≠ idKey) (templatesArray m).

(** Some loaded template answers to [idKey]. *)
Definition someTemplateWithKey (idKey : string) (m : Manager) : Prop :=
  Exists (λ x, keyOf x = idKey) (templatesArray m).

(** The states of a manager: the one built by the constructor, and those
    that the operations of the class lead to when they are called one
    at a time.  (The colour picker only fills [colorIndexTiles] of the
    loaded templates; it is among the calls of [serialCall] below.) *)
Inductive reachable (colorpalette : list PaletteEntry)
    (encodeBase64PNG : Bitmap → string)
    (numberToEncoded : Z → string → string) (formatNumber : Z → string)
    (decodeBase64PNG : string → Bitmap) (parseNumber : string → option Z)
    : Manager → Prop :=
| reach_new name version :
    reachable colorpalette encodeBase64PNG numberToEncoded formatNumber
      decodeBase64PNG parseNumber (newManager name version)
| reach_create m blob name coords autoColor outcome m' :
    reachable colorpalette encodeBase64PNG numberToEncoded formatNumber
      decodeBase64PNG parseNumber m →
    createTemplate colorpalette encodeBase64PNG numberToEncoded
      formatNumber blob name coords autoColor m = Some (outcome, m') →
    reachable colorpalette encodeBase64PNG numberToEncoded formatNumber
      decodeBase64PNG parseNumber m'
| reach_import m json :
    reachable colorpalette encodeBase64PNG numberToEncoded formatNumber
      decodeBase64PNG parseNumber m →
    reachable colorpalette encodeBase64PNG numberToEncoded formatNumber
      decodeBase64PNG parseNumber
      (importJSON decodeBase64PNG parseNumber json m)
| reach_remove m idKey :
    reachable colorpalette encodeBase64PNG numberToEncoded formatNumber
      decodeBase64PNG parseNumber m →
    reachable colorpalette encodeBase64PNG numberToEncoded formatNumber
      decodeBase64PNG parseNumber (removeTemplate idKey m)
| reach_enable m idKey v :
    reachable colorpalette encodeBase64PNG numberToEncoded formatNumber
      decodeBase64PNG parseNumber m →
    reachable colorpalette encodeBase64PNG numberToEncoded formatNumber
      decodeBase64PNG parseNumber (setTemplateEnabled idKey v m)
| reach_draw m env tileBlob tileCoords out m' :
    reachable colorpalette encodeBase64PNG numberToEncoded formatNumber
      decodeBase64PNG parseNumber m →
    drawTemplateOnTile formatNumber env tileBlob tileCoords m
    = Some (out, m') →
    reachable colorpalette encodeBase64PNG numberToEncoded formatNumber
      decodeBase64PNG parseNumber m'
| reach_zoom m canvasZoom d :
    reachable colorpalette encodeBase64PNG numberToEncoded formatNumber
      decodeBase64PNG parseNumber m →
    reachable colorpalette encodeBase64PNG numberToEncoded formatNumber
      decodeBase64PNG parseNumber (updateZoomState canvasZoom d m)
| reach_autoColor m v :
    reachable colorpalette encodeBase64PNG numberToEncoded formatNumber
      decodeBase64PNG parseNumber m →
    reachable colorpalette encodeBase64PNG numberToEncoded formatNumber
      decodeBase64PNG parseNumber (setAutoColorLive v m)
| reach_shouldDraw m v :
    reachable colorpalette encodeBase64PNG numberToEncoded formatNumber
      decodeBase64PNG parseNumber m →
    reachable colorpalette encodeBase64PNG numberToEncoded formatNumber
      decodeBase64PNG parseNumber (setTemplatesShouldBeDrawn v m).

(** The invariant behind the capacity guard: the bound is the
    constructor's, and a registry with templates has its JSON document. *)
Definition registryInv (m : Manager) : Prop :=
  maxTemplates m = 10 ∧ (templatesArray m ≠ [] → templatesJSON m ≠ None).

(** ** Compositor *)

(** The map the specification selects: colour mode crossed with zoom
    mode, the full variant when zoomed out. *)
Definition specVariantMap (autoColorLive zoomedOut : bool) (t : Template)
    : option (jsobj Bitmap) :=
  match autoColorLive, zoomedOut with
  | true, true => chunkedAutoFull t
  | true, false => chunkedAuto t
  | false, true => chunkedOriginalFull t
  | false, false => chunkedOriginal t
  end.

(** The map the compositor draws from: the masked map of the live colour
    mode, or the active map when the template has none. *)
Definition drawnMap (autoColorLive : bool) (t : Template)
    (active : jsobj Bitmap) : jsobj Bitmap :=
  if autoColorLive then default active (chunkedAuto t)
  else default active (chunkedOriginal t).

Definition tileCoordsText (tileCoords : Z * Z) : string :=
  (JS.padStart0 4 (JS.toString tileCoords.1) +:+ "," +:+
   JS.padStart0 4 (JS.toString tileCoords.2))%string.

(** The key under which a composited tile is cached. *)
Definition cacheKeyOf (tileCoords : Z * Z) (m : Manager) : string :=
  (tileCoordsText tileCoords +:+ "|" +:+
   (if autoColorLive m then "auto" else "orig") +:+ "|" +:+
   (if isZoomedOut m then "full" else "mask") +:+ "|v" +:+
   JS.toString (cacheVersion m))%string.

(** The template has a chunk on the tile: a key of its active map
    starts with the coordinates of the tile. *)
Definition showsOnTile (tileCoords : Z * Z) (t : Template) : Prop :=
  ∃ active tile,
    chunked t = Some active ∧ tile ∈ Obj.keys active ∧
    JS.startsWith tile (tileCoordsText tileCoords) = true.

(** The opacity of a draw.  It goes by the zoom as read just before
    drawing: the scale of the canvas when it can be read, else the zoom
    level the manager stored, else the zoom mode the manager stored; at
    or below the threshold the draw is [zoomOpacity], else opaque. *)
Definition opacityAtDraw (env : Env) (m : Manager) : Q :=
  match env_canvasZoomAtDraw env, zoomLevel m with
  | Some q, _ | None, Some q =>
      if Qle_bool q (zoomOutThreshold m) then zoomOpacity m else 1
  | None, None => if isZoomedOut m then zoomOpacity m else 1
  end.

(** What the [drawImage] for the template [t] on the tile is, in the
    state [m] (after the zoom update): the chunk under the first key of
    the tile, taken from the masked map of the live colour mode, at the
    place the key names, scaled by [drawMult], with the opacity of the
    zoom read at draw time. *)
Definition layerDraw (env : Env) (tileCoords : Z * Z) (m : Manager)
    (t : Template) (call : DrawCall) : Prop :=
  ∃ active tile rest,
    chunked t = Some active ∧
    filter (λ k, JS.startsWith k (tileCoordsText tileCoords) = true)
      (Obj.keys active) = tile :: rest ∧
    dc_bitmap call = Obj.get (drawnMap (autoColorLive m) t active) tile ∧
    dc_pixelCoords call
    = (JS.splitComma tile !! 2%nat, JS.splitComma tile !! 3%nat) ∧
    dc_drawMult call = drawMult m ∧
    dc_globalAlpha call = opacityAtDraw env m.

(** What the compositor does for one enabled template: one draw as
    above, or none when the template has no chunk on the tile. *)
Definition layerMark (env : Env) (tileCoords : Z * Z) (m : Manager)
    (t : Template) (mark : option DrawCall) : Prop :=
  match mark with
  | Some call => layerDraw env tileCoords m t call
  | None => ¬ showsOnTile tileCoords t
  end.

(** ** Sample states *)

Definition demoEncode (b : Bitmap) : string := "png".
Definition demoAuthor (n : Z) (base : string) : string := "A".

(** A fresh manager after one template was created at the origin. *)
Definition oneTemplateManager : option (CreateOutcome * Manager) :=
  createTemplate demoPalette demoEncode demoAuthor JS.toString
    opaquePixel "dot" (0, 0, 0, 0) false
    (newManager "Blue Marble" "0.82.1").

Definition demoEnv : Env :=
  {| env_now := 1000; env_canvasZoom := None;
     env_canvasZoomAtDraw := None |}.

(** That manager after the tile (0, 0) was composited once: the cache
    holds the merged tile. *)
Definition drawnManager : option (Blob * Manager) :=
  '(_, m) ← oneTemplateManager;
  drawTemplateOnTile JS.toString demoEnv (TileBlob []) (0, 0) m.

(** The manager that the creation leaves. *)
Definition createdManager : Manager :=
  default (newManager "Blue Marble" "0.82.1") (snd <$> oneTemplateManager).

(** [Number] on a string of decimal digits. *)
Fixpoint digitsValue (acc : Z) (s : string) : option Z :=
  match s with
  | EmptyString => Some acc
  | String c s' =>
      match Ascii.is_nat c with
      | Some d => digitsValue (10 * acc + Z.of_nat d) s'
      | None => None
      end
  end.
Definition demoNumber (s : string) : option Z := digitsValue 0 s.
Definition demoDecode (s : string) : Bitmap := opaquePixel.

(** A persisted document with ten templates, and the registry that
    importing it into a fresh manager fills up. *)
Definition tenTemplatesJSON : TemplatesJSON :=
  {| whoami := "BlueMarble"; scriptVersion := "0.82.1";
     schemaVersion := "1.0.0";
     templates :=
       (λ n, ((JS.toString n +:+ " A")%string,
              {| tj_name := "Template"; tj_coords := None;
                 tj_enabled := Some true; tj_tiles := [] |}))
       <$> seqZ 0 10 |}.

Definition fullManager : Manager :=
  importJSON demoDecode demoNumber tenTemplatesJSON
    (newManager "Blue Marble" "0.82.1").

(** A document of nine templates: the registry it fills has room for
    one more. *)
Definition nineTemplatesJSON : TemplatesJSON :=
  {| whoami := "BlueMarble"; scriptVersion := "0.82.1";
     schemaVersion := "1.0.0";
     templates :=
       (λ n, ((JS.toString n +:+ " A")%string,
              {| tj_name := "Template"; tj_coords := None;
                 tj_enabled := Some true; tj_tiles := [] |}))
       <$> seqZ 0 9 |}.

Definition nineManager : Manager :=
  importJSON demoDecode demoNumber nineTemplatesJSON
    (newManager "Blue Marble" "0.82.1").

(** Four templates, registered from the topmost down: two with a chunk
    on the tile (0, 0), a hidden one with a chunk there, and one whose
    chunk lies on another tile. *)
Definition layeredManager : Manager :=
  importJSON demoDecode demoNumber
    {| whoami := "BlueMarble"; scriptVersion := "0.82.1";
       schemaVersion := "1.0.0";
       templates :=
         [ ("7 A", {| tj_name := "upper"; tj_coords := None;
                      tj_enabled := Some true;
                      tj_tiles := [("0000,0000,000,000", "png")] |});
           ("5 A", {| tj_name := "hidden"; tj_coords := None;
                      tj_enabled := Some false;
                      tj_tiles := [("0000,0000,020,020", "png")] |});
           ("3 A", {| tj_name := "elsewhere"; tj_coords := None;
                      tj_enabled := Some true;
                      tj_tiles := [("0005,0005,000,000", "png")] |});
           ("1 A", {| tj_name := "lower"; tj_coords := None;
                      tj_enabled := Some true;
                      tj_tiles := [("0000,0000,010,010", "png")] |}) ] |}
    (newManager "Blue Marble" "0.82.1").

(** A template as imported (one masked chunk, no index grid yet), and
    the same template after its index grid was rebuilt. *)
Definition importedDot : Template :=
  set_chunked
    (Some [("0000,0000,000,000", renderToBitmap 3 opaquePixel)])
    (newTemplate "Template" 0 "A" None None false true "0 A").

Definition populatedDot : Template :=
  ensureIndexMapForTemplateTile demoPalette
    (newManager "Blue Marble" "0.82.1") importedDot "0000,0000,000,000".

Definition dotIndexTile : IndexTile :=
  {| it_w := 1; it_h := 1; it_data := [1] |}.


(* ===================================================================== *)
(** * Vocabulary of the further properties                                *)
(* ===================================================================== *)

(** ** Palette search by index *)

(** The entry takes part in the scans, with the triple [p]. *)
Definition searchable (c : PaletteEntry) (p : Z * Z * Z) : Prop :=
  String.eqb (pe_name c) "Transparent" = false ∧ pe_rgb c = Some p.

(** The index [i] points at the first entry of least squared distance to
    [(r, g, b)] among the entries that take part in the scan. *)
Definition first_minimum_at (pal : list PaletteEntry) (r g b : Z)
    (i : Z) : Prop :=
  ∃ c p,
    0 ≤ i ∧ pal !! Z.to_nat i = Some c ∧ searchable c p ∧
    ∀ (j : nat) c' p', pal !! j = Some c' → searchable c' p' →
      sqdist r g b p ≤ sqdist r g b p' ∧
      ((j < Z.to_nat i)%nat → sqdist r g b p < sqdist r g b p').

(** A palette with a gap, a repeated colour and no black. *)
Definition gapPalette : list PaletteEntry :=
  [ {| pe_name := "Transparent"; pe_rgb := Some (0, 0, 0) |};
    {| pe_name := "Unlisted"; pe_rgb := None |};
    {| pe_name := "Red"; pe_rgb := Some (255, 0, 0) |};
    {| pe_name := "Crimson"; pe_rgb := Some (255, 0, 0) |};
    {| pe_name := "White"; pe_rgb := Some (255, 255, 255) |} ].

(** ** Pixel classification *)

(** The bytes [(r, g, b)] are the sentinel colour #DEFACE. *)
Definition isSentinel (r g b : Z) : bool :=
  (r =? 222) && (g =? 250) && (b =? 206).

(** The source bytes of the pixel [(x, y)] of a region of width [w]. *)
Definition srcPixel (w : Z) (src : list Z) (x y : Z) : list (option Z) :=
  let p := (y * w + x) * 4 in
  [JS.at_ src p; JS.at_ src (p + 1); JS.at_ src (p + 2);
   JS.at_ src (p + 3)].

(** A 2 x 1 source: an opaque pixel that is out of the palette, and a
    coloured pixel of alpha 0. *)
Definition mixedPair : list Z := [250; 10; 10; 7; 40; 50; 60; 0].

(** ** Registry *)

(** What a completed [createTemplate] leaves: the state [m'] is [m] with
    the template [t] appended, and [entry] is its persisted entry. *)
Definition appendedTemplate (name : string) (m : Manager) (t : Template)
    (m' : Manager) (entry : TemplateJSON) : Prop :=
  templatesArray m' = templatesArray m ++ [t] ∧
  0 ≤ sortID t ∧ (sortID t ∉ sortID <$> templatesArray m) ∧
  (∀ k, 0 ≤ k < sortID t → k ∈ sortID <$> templatesArray m) ∧
  displayName t = name ∧ enabled t = true ∧
  keyOf t = (JS.toString (sortID t) +:+ " " +:+ authorID t)%string ∧
  Obj.get (templatesOf m') (keyOf t) = Some entry ∧
  tj_name entry = name ∧ tj_enabled entry = Some true ∧
  cacheVersion m' = JS.incr (cacheVersion m) ∧
  mergedTileCache m' = ∅ ∧
  gmWrites m' = templatesJSON m' :: gmWrites m.

(** The registry holds no more templates than the constructor allows. *)
Definition withinCapacity (m : Manager) : Prop :=
  maxTemplates m = 10 ∧ Z.of_nat (length (templatesArray m)) ≤ 10.

(** How an entry of a persisted document shows in the template that
    [#parseBlueMarble] builds from it. *)
Definition importedFrom (decodeBase64PNG : string → Bitmap)
    (e : string * TemplateJSON) (t : Template) : Prop :=
  idKey t = e.1 ∧
  enabled t = negb (bool_decide (tj_enabled e.2 = Some false)) ∧
  file t = None ∧ coords t = None ∧
  chunked t
  = Some (foldl (λ acc tile, Obj.set acc tile.1 (decodeBase64PNG tile.2))
            [] (tj_tiles e.2)) ∧
  chunkedOriginal t = None ∧ chunkedAuto t = None ∧
  chunkedOriginalFull t = None ∧ chunkedAutoFull t = None.

(** A persisted document of three templates, the second one hidden. *)
Definition threeTemplatesJSON : TemplatesJSON :=
  {| whoami := "BlueMarble"; scriptVersion := "0.82.1";
     schemaVersion := "1.0.0";
     templates :=
       [ ("0 A", {| tj_name := "first"; tj_coords := None;
                    tj_enabled := Some true; tj_tiles := [] |});
         ("1 A", {| tj_name := "second"; tj_coords := None;
                    tj_enabled := Some false; tj_tiles := [] |});
         ("2 A", {| tj_name := "third"; tj_coords := None;
                    tj_enabled := None; tj_tiles := [] |}) ] |}.

Definition threeManager : Manager :=
  importJSON demoDecode demoNumber threeTemplatesJSON
    (newManager "Blue Marble" "0.82.1").

(** ** Compositor *)

(** The zoom state is what [#updateZoomState] would make it, for the
    zoom [canvasZoom] read from the canvas. *)
Definition zoomSettled (canvasZoom : option Q) (m : Manager) : Prop :=
  match zoomLevel m with
  | Some q => isZoomedOut m = Qle_bool q (zoomOutThreshold m)
  | None => canvasZoom = None
  end.

(** The zoom level that [#updateZoomState] goes by: the one of the
    event, else the stored one, else the one of the canvas. *)
Definition zoomFound (canvasZoom : option Q) (d : ZoomDetail)
    (m : Manager) : option Q :=
  match match d with
        | NoDetail => zoomLevel m
        | DetailZoom z | DetailLevel z | DetailScale z => z
        end with
  | Some q => Some q
  | None => canvasZoom
  end.

(** The sort IDs never decrease along the list. *)
Fixpoint ascendingSortIDs (l : list Template) : Prop :=
  match l with
  | [] => True
  | x :: l' => Forall (λ y, sortID x ≤ sortID y) l' ∧ ascendingSortIDs l'
  end.

(** The draw call shows a chunk of the template on the tile. *)
Definition drawsChunkOf (tileCoords : Z * Z) (m : Manager) (t : Template)
    (call : DrawCall) : Prop :=
  ∃ active tile,
    chunked t = Some active ∧ tile ∈ Obj.keys active ∧
    JS.startsWith tile (tileCoordsText tileCoords) = true ∧
    dc_bitmap call = Obj.get (drawnMap (autoColorLive m) t active) tile.

(** Two templates with one chunk each on the tile (0, 0), registered
    with the higher sort ID first. *)
Definition twoLayerManager : Manager :=
  importJSON demoDecode demoNumber
    {| whoami := "BlueMarble"; scriptVersion := "0.82.1";
       schemaVersion := "1.0.0";
       templates :=
         [ ("7 A", {| tj_name := "upper"; tj_coords := None;
                      tj_enabled := Some true;
                      tj_tiles := [("0000,0000,000,000", "png")] |});
           ("3 A", {| tj_name := "lower"; tj_coords := None;
                      tj_enabled := Some true;
                      tj_tiles := [("0000,0000,010,010", "png")] |}) ] |}
    (newManager "Blue Marble" "0.82.1").

(** The tile (0, 0) composited once in that state. *)
Definition twoLayerDraw : option (Blob * Manager) :=
  drawTemplateOnTile JS.toString demoEnv (TileBlob []) (0, 0)
    twoLayerManager.

(** ** Index grids rebuilt from a chunk *)

(** The entry that the loop of [#ensureIndexMapForTemplateTile] stores
    for the cell [(x, y)], as the loop computes it: from the bytes of
    the chunk's buffer at the position it derives from the cell. *)
Definition sampledIndex (pal : list PaletteEntry) (drawMult : Z)
    (bmp : Bitmap) (x y : Z) : Z :=
  let sx := x * drawMult + drawMult / 2 in
  let sy := y * drawMult + drawMult / 2 in
  let p := (sy * bm_width bmp + sx) * 4 in
  if JS.get0 (bm_data bmp) (p + 3) =? 0 then 0
  else JS.wrap16
         (nearestIdx pal (JS.get0 (bm_data bmp) p)
            (JS.get0 (bm_data bmp) (p + 1))
            (JS.get0 (bm_data bmp) (p + 2))).

(** The entry that the cell [(x, y)] of a rebuilt grid should hold: 0
    where the pixel at the centre of the cell's block of the chunk is
    transparent, else the nearest palette index of its colour (as a
    16-bit entry). *)
Definition centreIndex (pal : list PaletteEntry) (drawMult : Z)
    (bmp : Bitmap) (x y : Z) : Z :=
  match pixelAt bmp (x * drawMult + drawMult / 2)
          (y * drawMult + drawMult / 2) with
  | [r; g; b; a] =>
      if a =? 0 then 0 else JS.wrap16 (nearestPaletteIndex pal r g b)
  | _ => 0
  end.

(** The scale that [#ensureIndexMapForTemplateTile] divides by. *)
Definition effectiveDrawMult (m : Manager) : Z :=
  Z.max 1 (if drawMult m =? 0 then 1 else drawMult m).

(** The grid stored for [key] in the template, if any. *)
Definition indexGrid (t : Template) (key : string) : option IndexTile :=
  colorIndexTiles t ≫= λ o, Obj.get o key.

(** A region of one sentinel pixel, as sliced and as rendered. *)
Definition sentinelDot : list Z := [222; 250; 206; 255].

Definition importedSentinel : Template :=
  set_chunked
    (Some [("0000,0000,000,000",
            renderToBitmap shreadSize
              {| bm_width := 1; bm_height := 1;
                 bm_data := (classifyRegion gapPalette 1 1 sentinelDot).1.1 |})])
    (newTemplate "Template" 0 "A" None None false true "0 A").

(** The same for a region of one opaque pixel. *)
Definition importedOpaque : Template :=
  set_chunked
    (Some [("0000,0000,000,000",
            renderToBitmap shreadSize
              {| bm_width := 1; bm_height := 1;
                 bm_data :=
                   (classifyRegion gapPalette 1 1 [250; 10; 10; 7]).1.1 |})])
    (newTemplate "Template" 0 "A" None None false true "0 A").

(** A chunk of 2 x 1 blocks, and a chunk whose sides are not multiples
    of the draw scale. *)
Definition importedPair : Template :=
  set_chunked
    (Some [("0000,0000,000,000",
            renderToBitmap shreadSize
              {| bm_width := 2; bm_height := 1;
                 bm_data := [250; 10; 10; 7; 250; 250; 250; 255] |})])
    (newTemplate "Template" 0 "A" None None false true "0 A").

Definition narrowChunk : Bitmap :=
  {| bm_width := 1; bm_height := 6;
     bm_data := [0; 0; 0; 0; 0; 0; 0; 0; 250; 10; 10; 255;
                 0; 0; 0; 0; 0; 0; 0; 0; 0; 0; 0; 0] |}.

Definition importedNarrow : Template :=
  set_chunked (Some [("0000,0000,000,000", narrowChunk)])
    (newTemplate "Template" 0 "A" None None false true "0 A").

(** ** Colour picker *)

(** The two templates differ at most in their index grids. *)
Definition sameButGrids (t t' : Template) : Prop :=
  set_colorIndexTiles None t' = set_colorIndexTiles None t.

(** Every grid of [t] is still there, unchanged, in [t']. *)
Definition gridsKept (t t' : Template) : Prop :=
  ∀ k it, indexGrid t k = Some it → indexGrid t' k = Some it.

(** The text that the colour picker matches keys against. *)
Definition tilePrefixText (tileCoords : Z * Z) : string :=
  (JS.padStart0 4 (JS.toString tileCoords.1) +:+ "," +:+
   JS.padStart0 4 (JS.toString tileCoords.2) +:+ ",")%string.

(** The template has the entry [v] for the cell under the pixel: one of
    its grids is stored under a key of the tile, the rectangle that
    starts at the offsets named by the key and has the size of the grid
    holds the pixel, and [v] is the entry of the grid, row by row, at
    the pixel's place in the rectangle. *)
Definition cellUnder (parseNumber : string → option Z)
    (tileCoords pixelCoords : Z * Z) (t : Template) (v : Z) : Prop :=
  ∃ key it startX startY,
    indexGrid t key = Some it ∧
    JS.startsWith key (tilePrefixText tileCoords) = true ∧
    JS.splitComma key !! 2%nat ≫= parseNumber = Some startX ∧
    JS.splitComma key !! 3%nat ≫= parseNumber = Some startY ∧
    0 ≤ pixelCoords.1 - startX < it_w it ∧
    0 ≤ pixelCoords.2 - startY < it_h it ∧
    JS.get0 (it_data it)
      ((pixelCoords.2 - startY) * it_w it + (pixelCoords.1 - startX)) = v.

(** A document whose two templates both cover the pixel (0, 0) of the
    tile (0, 0), decoded to the masked chunk of one opaque pixel. *)
Definition chunkDecode (s : string) : Bitmap :=
  renderToBitmap shreadSize opaquePixel.

Definition pickManager : Manager :=
  importJSON chunkDecode demoNumber
    {| whoami := "BlueMarble"; scriptVersion := "0.82.1";
       schemaVersion := "1.0.0";
       templates :=
         [ ("7 A", {| tj_name := "upper"; tj_coords := None;
                      tj_enabled := Some true;
                      tj_tiles := [("0000,0000,000,000", "png")] |});
           ("3 A", {| tj_name := "lower"; tj_coords := None;
                      tj_enabled := Some true;
                      tj_tiles := [("0000,0000,000,000", "png")] |}) ] |}
    (newManager "Blue Marble" "0.82.1").

(** ** Escaped text *)

(** The character may stand in HTML text and in an attribute value. *)
Definition htmlSafe (c : ascii) : Prop :=
  c ≠ "<"%char ∧ c ≠ ">"%char ∧ c ≠ "034"%char ∧ c ≠ "'"%char.

(** The character is one of the five that [escapeHtml] replaces. *)
Definition htmlSpecial (c : ascii) : bool :=
  Ascii.eqb c "&"%char || Ascii.eqb c "<"%char || Ascii.eqb c ">"%char
  || Ascii.eqb c "034"%char || Ascii.eqb c "'"%char.

(** ** The operations of the manager *)

(** One call of a method of the manager, the colour picker included,
    that runs from its start to its end with no other call in between,
    takes the state [m] to the state [m'].  The methods are [async]: a
    call that starts while another one is suspended at an [await] is not
    a step of this relation (see [createTemplateOverlapped]). *)
Inductive serialCall (colorpalette : list PaletteEntry)
    (encodeBase64PNG : Bitmap → string)
    (numberToEncoded : Z → string → string) (formatNumber : Z → string)
    (decodeBase64PNG : string → Bitmap) (parseNumber : string → option Z)
    : Manager → Manager → Prop :=
| step_create m blob name coords autoColor outcome m' :
    createTemplate colorpalette encodeBase64PNG numberToEncoded
      formatNumber blob name coords autoColor m = Some (outcome, m') →
    serialCall colorpalette encodeBase64PNG numberToEncoded formatNumber
      decodeBase64PNG parseNumber m m'
| step_import m json :
    serialCall colorpalette encodeBase64PNG numberToEncoded formatNumber
      decodeBase64PNG parseNumber m
      (importJSON decodeBase64PNG parseNumber json m)
| step_remove m idKey :
    serialCall colorpalette encodeBase64PNG numberToEncoded formatNumber
      decodeBase64PNG parseNumber m (removeTemplate idKey m)
| step_enable m idKey v :
    serialCall colorpalette encodeBase64PNG numberToEncoded formatNumber
      decodeBase64PNG parseNumber m (setTemplateEnabled idKey v m)
| step_draw m env tileBlob tileCoords out m' :
    drawTemplateOnTile formatNumber env tileBlob tileCoords m
    = Some (out, m') →
    serialCall colorpalette encodeBase64PNG numberToEncoded formatNumber
      decodeBase64PNG parseNumber m m'
| step_zoom m canvasZoom d :
    serialCall colorpalette encodeBase64PNG numberToEncoded formatNumber
      decodeBase64PNG parseNumber m (updateZoomState canvasZoom d m)
| step_autoColor m v :
    serialCall colorpalette encodeBase64PNG numberToEncoded formatNumber
      decodeBase64PNG parseNumber m (setAutoColorLive v m)
| step_shouldDraw m v :
    serialCall colorpalette encodeBase64PNG numberToEncoded formatNumber
      decodeBase64PNG parseNumber m (setTemplatesShouldBeDrawn v m)
| step_pick m tileCoords pixelCoords :
    serialCall colorpalette encodeBase64PNG numberToEncoded formatNumber
      decodeBase64PNG parseNumber m
      (getNearestPaletteIndexAt colorpalette parseNumber tileCoords
         pixelCoords m).2.

(* ===================================================================== *)
(** * Properties of the palette search                                    *)
(* ===================================================================== *)

Section PaletteFacts.

Variables (r g b : Z).

Lemma rgb_fold_candidates pal acc :
  foldl (rgb_step r g b) acc pal
  = foldl (cand_step r g b) acc (candidates pal).
Proof.
  revert acc. induction pal as [|c pal IH]; intros acc; [done|].
  cbn [foldl candidates omap list_omap]. unfold rgb_step at 2.
  destruct (String.eqb (pe_name c) "Transparent"); [apply IH|].
  destruct (pe_rgb c) as [p|]; [|apply IH].
  cbn [foldl]. rewrite IH. done.
Qed.

Lemma dist_lt_trans x y d :
  x < y → dist_lt y d = true → dist_lt x d = true.
Proof. destruct d; cbn; [done|]. rewrite !Z.ltb_lt. lia. Qed.

Lemma dist_lt_not x y d :
  dist_lt x d = true → dist_lt y d = false → x < y.
Proof. destruct d; cbn; [done|]. rewrite Z.ltb_lt, Z.ltb_ge. lia. Qed.

(** The scan keeps its accumulator when nothing beats it, and otherwise
    ends on the first element of least distance. *)
Lemma cand_fold_spec l best d :
  (foldl (cand_step r g b) (best, d) l = (best, d) ∧
   ∀ p, p ∈ l → dist_lt (sqdist r g b p) d = false) ∨
  (∃ (i : nat) p,
     l !! i = Some p ∧
     foldl (cand_step r g b) (best, d) l
     = (Some p, Finite (sqdist r g b p)) ∧
     dist_lt (sqdist r g b p) d = true ∧
     ∀ (j : nat) q, l !! j = Some q →
       sqdist r g b p ≤ sqdist r g b q ∧
       ((j < i)%nat → sqdist r g b p < sqdist r g b q)).
Proof.
  revert best d. induction l as [|p0 l IH]; intros best d.
  { left. split; [done|]. intros p Hp. inversion Hp. }
  cbn [foldl]. unfold cand_step at 2 4. cbn [snd].
  destruct (dist_lt (sqdist r g b p0) d) eqn:Hlt.
  - right.
    destruct (IH (Some p0) (Finite (sqdist r g b p0)))
      as [[Heq Hall]|(i & p & Hi & Heq & Hp & Hmin)].
    + exists 0%nat, p0. split; [done|]. split; [done|]. split; [done|].
      intros [|j] q Hq; cbn in Hq.
      * inversion Hq; subst. split; [lia|lia].
      * assert (q ∈ l) as Hin by (eapply list_elem_of_lookup_2; done).
        apply Hall in Hin. cbn in Hin. apply Z.ltb_ge in Hin.
        split; [done|lia].
    + cbn in Hp. apply Z.ltb_lt in Hp.
      exists (S i), p. split; [done|]. split; [done|].
      split; [by eapply dist_lt_trans|].
      intros [|j] q Hq; cbn in Hq.
      * inversion Hq; subst. split; intros; lia.
      * destruct (Hmin j q Hq) as [? Hs]. split; [done|].
        intros ?. apply Hs. lia.
  - destruct (IH best d) as [[Heq Hall]|(i & p & Hi & Heq & Hp & Hmin)].
    + left. split; [done|]. intros p Hp.
      apply elem_of_cons in Hp as [->|Hp]; [done|by apply Hall].
    + right. exists (S i), p. split; [done|]. split; [done|].
      split; [done|].
      intros [|j] q Hq; cbn in Hq.
      * inversion Hq; subst.
        pose proof (dist_lt_not _ _ _ Hp Hlt). split; intros; lia.
      * destruct (Hmin j q Hq) as [? Hs]. split; [done|].
        intros ?. apply Hs. lia.
Qed.

(** On a palette whose entries all carry a triple, the candidates are
    the triples of the entries not named "Transparent". *)
Lemma candidates_searchable pal :
  Forall (λ c, is_Some (pe_rgb c)) pal →
  Some <$> candidates pal =
  pe_rgb <$> filter (λ c, pe_name c ≠ "Transparent"%string) pal.
Proof.
  induction 1 as [|c pal [p Hp] _ IH]; [done|].
  cbn [candidates omap list_omap]. rewrite filter_cons.
  destruct (String.eqb_spec (pe_name c) "Transparent") as [Heq|Hne].
  - rewrite decide_False by (intros ?; done). apply IH.
  - rewrite decide_True by done. rewrite Hp. cbn [fmap list_fmap].
    rewrite Hp. f_equal. apply IH.
Qed.

End PaletteFacts.

Lemma sqdist_euclidean r g b pr pg pb :
  sqdist r g b (pr, pg, pb) = (r - pr) ^ 2 + (g - pg) ^ 2 + (b - pb) ^ 2.
Proof. unfold sqdist. lia. Qed.

(** C7. On a palette whose entries all carry an RGB triple,
    [nearestPaletteRGB] searches exactly the entries not named
    "Transparent", by squared Euclidean distance, and returns the triple
    of the first entry (in palette order) that attains the least
    distance; with no such entry it returns the input unchanged. *)
Theorem nearestPaletteRGB_first_minimum colorpalette r g b :
  Forall (λ c, is_Some (pe_rgb c)) colorpalette →
  first_minimum_of
    (filter (λ c, pe_name c ≠ "Transparent"%string) colorpalette)
    r g b (nearestPaletteRGB colorpalette r g b).
Proof.
  intros Hrgb. pose proof (candidates_searchable colorpalette Hrgb) as Hc.
  unfold nearestPaletteRGB. rewrite rgb_fold_candidates.
  set (S := filter _ colorpalette) in *.
  destruct (cand_fold_spec r g b (candidates colorpalette) None Infinity)
    as [[Heq Hall]|(i & p & Hi & Heq & _ & Hmin)].
  - assert (candidates colorpalette = []) as Hnil.
    { destruct (candidates colorpalette) as [|p l]; [done|].
      specialize (Hall p ltac:(left)). done. }
    rewrite Heq, Hnil in *. cbn. split; [done|].
    intros HS. destruct S; [done|]. done.
  - rewrite Heq. cbn [fst]. split.
    + intros HS. rewrite HS in Hc. destruct (candidates colorpalette); done.
    + intros _.
      assert ((pe_rgb <$> S) !! i = Some (Some p)) as HSi.
      { rewrite <- Hc, list_lookup_fmap, Hi. done. }
      rewrite list_lookup_fmap in HSi.
      destruct (S !! i) as [c|] eqn:Hci; [|done].
      exists i, c. split; [done|]. split; [by inversion HSi|].
      intros j c' p' Hj Hp'. apply (Hmin j p').
      assert ((Some <$> candidates colorpalette) !! j = Some (Some p')) as H.
      { rewrite Hc, list_lookup_fmap, Hj. cbn. by rewrite Hp'. }
      rewrite list_lookup_fmap in H.
      destruct (candidates colorpalette !! j); inversion H; done.
Qed.

Lemma nearestPaletteRGB_first_minimum_witness :
  Forall (λ c, is_Some (pe_rgb c)) demoPalette ∧
  first_minimum_of
    (filter (λ c, pe_name c ≠ "Transparent"%string) demoPalette)
    127 127 127 (nearestPaletteRGB demoPalette 127 127 127).
Proof.
  assert (Forall (λ c, is_Some (pe_rgb c)) demoPalette) as H.
  { repeat constructor; eexists; reflexivity. }
  split; [exact H|].
  apply (nearestPaletteRGB_first_minimum demoPalette 127 127 127 H).
Defined.

(** The sample queries of the specification. *)
Example nearest_dark : nearestPaletteRGB demoPalette 10 10 10 = (0, 0, 0).
Proof. reflexivity. Qed.

Example nearest_light :
  nearestPaletteRGB demoPalette 245 245 245 = (255, 255, 255).
Proof. reflexivity. Qed.

Example nearest_tie :
  sqdist 127 127 127 (0, 0, 0) < sqdist 127 127 127 (255, 255, 255) ∧
  nearestPaletteRGB demoPalette 127 127 127 = (0, 0, 0).
Proof. split; [vm_compute|]; reflexivity. Qed.

Example nearest_exact_tie :
  nearestPaletteRGB
    [ {| pe_name := "A"; pe_rgb := Some (0, 0, 0) |};
      {| pe_name := "B"; pe_rgb := Some (2, 0, 0) |} ] 1 0 0 = (0, 0, 0).
Proof. reflexivity. Qed.

Example nearest_empty :
  nearestPaletteRGB
    [ {| pe_name := "Transparent"; pe_rgb := Some (0, 0, 0) |} ] 1 2 3
  = (1, 2, 3).
Proof. reflexivity. Qed.


(* ===================================================================== *)
(** * Properties of the tile-key text                                     *)
(* ===================================================================== *)

Section StringFacts.

Lemma app_cons c s t : String c s +:+ t = String c (s +:+ t).
Proof. reflexivity. Qed.

Lemma app_empty t : EmptyString +:+ t = t.
Proof. reflexivity. Qed.

Lemma comma_app t : "," +:+ t = String ","%char t.
Proof. reflexivity. Qed.

Lemma all_chars_app P s1 s2 :
  all_chars P (s1 +:+ s2) ↔ all_chars P s1 ∧ all_chars P s2.
Proof.
  induction s1 as [|c s1 IH]; rewrite ?app_cons, ?app_empty;
    cbn [all_chars]; [tauto|].
  rewrite IH. tauto.
Qed.

Lemma pretty_N_char_not_comma x : not_comma (pretty_N_char x).
Proof. unfold not_comma, pretty_N_char. by repeat case_match. Qed.

Lemma pretty_N_go_not_comma x s :
  all_chars not_comma s → all_chars not_comma (pretty_N_go x s).
Proof.
  revert s. induction (N.lt_wf_0 x) as [x _ IH]; intros s Hs.
  assert (x = 0 ∨ 0 < x)%N as [->|?] by lia.
  - by rewrite pretty_N_go_0.
  - rewrite pretty_N_go_step by done. apply IH.
    + by apply N.div_lt.
    + split; [apply pretty_N_char_not_comma|done].
Qed.

Lemma pretty_N_not_comma (x : N) : all_chars not_comma (pretty x).
Proof.
  unfold pretty, pretty_N. case_decide.
  - cbn. split; [done|done].
  - by apply pretty_N_go_not_comma.
Qed.

Lemma toString_not_comma (z : Z) : all_chars not_comma (JS.toString z).
Proof.
  unfold JS.toString, pretty, pretty_Z. destruct z as [|p|p].
  - cbn. split; done.
  - apply pretty_N_not_comma.
  - cbn. split; [done|]. apply pretty_N_not_comma.
Qed.

(** A positive number prints with a first digit other than zero. *)
Lemma pretty_N_go_head x s :
  (0 < x)%N →
  ∃ c s', pretty_N_go x s = String c s' ∧ c ≠ "0"%char.
Proof.
  revert s. induction (N.lt_wf_0 x) as [x _ IH]; intros s Hx.
  rewrite pretty_N_go_step by done.
  assert (x < 10 ∨ 10 ≤ x)%N as [Hlt|Hge] by lia.
  - replace (x `div` 10)%N with 0%N
      by (symmetry; apply N.div_small; done).
    rewrite pretty_N_go_0. eexists _, _. split; [done|].
    rewrite N.mod_small by done.
    assert (x = 1 ∨ x = 2 ∨ x = 3 ∨ x = 4 ∨ x = 5 ∨ x = 6
            ∨ x = 7 ∨ x = 8 ∨ x = 9)%N
      as [->|[->|[->|[->|[->|[->|[->|[->| ->]]]]]]]] by lia; done.
  - apply IH.
    + by apply N.div_lt.
    + apply N.div_str_pos. lia.
Qed.

Lemma pretty_N_canonical (x : N) : canonical (pretty x).
Proof.
  unfold pretty, pretty_N. case_decide.
  - split; [done|]. by intros s' [= <-].
  - destruct (pretty_N_go_head x EmptyString) as (c & s' & -> & Hc);
      [lia|].
    split; [done|]. intros s'' [= ? ?]. done.
Qed.

Lemma toString_canonical (z : Z) : canonical (JS.toString z).
Proof.
  unfold JS.toString, pretty, pretty_Z. destruct z as [|p|p].
  - split; [done|]. by intros s' [= <-].
  - apply pretty_N_canonical.
  - split; [done|]. cbn. intros s' [=].
Qed.

Lemma toString_inj (x y : Z) : JS.toString x = JS.toString y → x = y.
Proof. unfold JS.toString. apply pretty_Z_inj. Qed.

Lemma repeat0_not_comma n : all_chars not_comma (JS.repeat0 n).
Proof. induction n; cbn; [done|]. split; [done|done]. Qed.

Lemma padStart0_not_comma n s :
  all_chars not_comma s → all_chars not_comma (JS.padStart0 n s).
Proof.
  intros Hs. unfold JS.padStart0. apply all_chars_app.
  split; [apply repeat0_not_comma|done].
Qed.

(** Padding with zeros cannot make two canonical numerals collide. *)
Lemma repeat0_app_inj a c s1 s2 :
  canonical s1 → canonical s2 →
  JS.repeat0 a +:+ s1 = JS.repeat0 c +:+ s2 → s1 = s2.
Proof.
  intros [Hne1 Hz1] [Hne2 Hz2]. revert c.
  induction a as [|a IH]; intros [|c]; cbn [JS.repeat0];
    rewrite ?app_cons, ?app_empty.
  - done.
  - intros Heq. apply Hz1 in Heq.
    destruct (JS.repeat0 c), s2; rewrite ?app_cons, ?app_empty in Heq;
      done.
  - intros Heq. symmetry in Heq. apply Hz2 in Heq.
    destruct (JS.repeat0 a), s1; rewrite ?app_cons, ?app_empty in Heq;
      done.
  - intros [= Heq]. by apply (IH c).
Qed.

Lemma padStart0_inj n m s1 s2 :
  canonical s1 → canonical s2 →
  JS.padStart0 n s1 = JS.padStart0 m s2 → s1 = s2.
Proof. unfold JS.padStart0. apply repeat0_app_inj. Qed.

(** Two comma-free fields that are followed by a comma end together. *)
Lemma comma_field_inj s1 s2 r1 r2 :
  all_chars not_comma s1 → all_chars not_comma s2 →
  s1 +:+ String ","%char r1 = s2 +:+ String ","%char r2 →
  s1 = s2 ∧ r1 = r2.
Proof.
  revert s2. induction s1 as [|c s1 IH]; intros [|d s2];
    rewrite ?app_cons, ?app_empty; cbn [all_chars].
  - intros _ _ [= ->]. done.
  - intros _ [Hd _] [= <- _]. done.
  - intros [Hc _] _ [= -> _]. done.
  - intros [_ H1] [_ H2] [= -> Heq].
    destruct (IH s2 H1 H2 Heq) as [-> ->]. done.
Qed.

Lemma padded_number_inj n m x y r1 r2 :
  JS.padStart0 n (JS.toString x) +:+ String ","%char r1
  = JS.padStart0 m (JS.toString y) +:+ String ","%char r2 →
  x = y ∧ r1 = r2.
Proof.
  intros Heq.
  apply comma_field_inj in Heq as [Hpad ->];
    try (apply padStart0_not_comma, toString_not_comma).
  split; [|done].
  apply toString_inj.
  eapply padStart0_inj; [apply toString_canonical..|done].
Qed.

(** A position is determined by its tile offset and its remainder. *)
Lemma div_rem_1000_inj x y :
  x / 1000 = y / 1000 → Z.rem x 1000 = Z.rem y 1000 → x = y.
Proof.
  intros Hd Hr. Z.to_euclidean_division_equations. lia.
Qed.

(** The key of a region determines its absolute pixel position. *)
Lemma templateTileName_inj c0 c1 x y x' y' :
  templateTileName c0 c1 x y = templateTileName c0 c1 x' y' →
  x = x' ∧ y = y'.
Proof.
  unfold templateTileName. intros Heq.
  rewrite !comma_app in Heq.
  apply padded_number_inj in Heq as [Hx Heq].
  apply padded_number_inj in Heq as [Hy Heq].
  apply padded_number_inj in Heq as [Hrx Heq].
  apply padStart0_inj in Heq; [|apply toString_canonical..].
  apply toString_inj in Heq.
  split; apply div_rem_1000_inj; lia.
Qed.

End StringFacts.


(* ===================================================================== *)
(** * Properties of the slicing loops                                     *)
(* ===================================================================== *)

(** Case analysis on every integer comparison of the goal. *)
Ltac cases_Zb :=
  repeat match goal with
  | |- context [?a <=? ?b] => destruct (Z.leb_spec a b)
  | |- context [?a <? ?b] => destruct (Z.ltb_spec a b)
  end.

Section SlicingFacts.

Variable colorpalette : list PaletteEntry.
Variable bitmap : Bitmap.
Variables c0 c1 c2 c3 : Z.
Variable ts : Z.
Hypothesis ts_pos : 0 < ts.

Local Abbreviation c := (c0, c1, c2, c3).
Local Abbreviation W := (bm_width bitmap).
Local Abbreviation H := (bm_height bitmap).

Lemma makeRegion_fields pixelX pixelY dX dY :
  let r := makeRegion colorpalette bitmap c pixelX pixelY dX dY in
  rg_key r = templateTileName c0 c1 pixelX pixelY ∧
  rg_pixelX r = pixelX ∧ rg_pixelY r = pixelY ∧
  rg_w r = dX ∧ rg_h r = dY.
Proof.
  unfold makeRegion.
  destruct (classifyRegion _ _ _ _) as [[orig mapped] idxMap]. done.
Qed.

#[local] Opaque makeRegion.

(** Inside a loop the next size is at least one pixel and does not
    pass the far edge of the image. *)
Lemma drawSize_bounds p start n :
  p < n + start →
  let d := Z.min (ts - Z.rem p ts) (n - (p - start)) in
  1 ≤ d ∧ p + d ≤ n + start.
Proof.
  intros Hp. cbn zeta.
  pose proof (Z.rem_bound_abs p ts ltac:(lia)) as Hb.
  rewrite (Z.abs_eq ts) in Hb by lia. lia.
Qed.

Lemma loopX_total fuel pixelY dY pixelX :
  (Z.to_nat (W + c2 - pixelX) ≤ fuel)%nat →
  is_Some (loopX colorpalette fuel bitmap c ts pixelY dY pixelX).
Proof.
  revert pixelX. induction fuel as [|fuel IH]; intros pixelX Hf;
    cbn [loopX fst snd].
  - destruct (Z.ltb_spec pixelX (W + c2)); [lia|done].
  - destruct (Z.ltb_spec pixelX (W + c2)) as [Hlt|]; [|done].
    destruct (drawSize_bounds pixelX c2 W Hlt) as [Hd _].
    destruct (IH (pixelX + Z.min (ts - Z.rem pixelX ts)
                                 (W - (pixelX - c2)))) as [rs ->];
      [lia|]. done.
Qed.

Lemma loopX_regionOK fuel pixelY dY pixelX rs :
  dY = Z.min (ts - Z.rem pixelY ts) (H - (pixelY - c3)) →
  pixelY < H + c3 →
  loopX colorpalette fuel bitmap c ts pixelY dY pixelX = Some rs →
  Forall (λ r, regionOK bitmap c ts r ∧ rg_pixelY r = pixelY ∧
               pixelX ≤ rg_pixelX r) rs.
Proof.
  intros HdY HY. revert pixelX rs.
  induction fuel as [|fuel IH]; intros pixelX rs;
    cbn [loopX fst snd].
  - destruct (Z.ltb_spec pixelX (W + c2)); [done|].
    intros [= <-]. constructor.
  - destruct (Z.ltb_spec pixelX (W + c2)) as [Hlt|];
      [|intros [= <-]; constructor].
    destruct (drawSize_bounds pixelX c2 W Hlt) as [Hd1 Hd2].
    destruct (drawSize_bounds pixelY c3 H HY) as [He1 He2].
    set (dX := Z.min (ts - Z.rem pixelX ts) (W - (pixelX - c2))) in *.
    destruct (loopX _ fuel _ _ _ _ _ (pixelX + dX)) as [rest|] eqn:Hrest;
      [|done].
    cbn [mbind option_bind]. intros [= <-].
    pose proof (makeRegion_fields pixelX pixelY dX dY)
      as (Hk & Hx & Hy & Hw & Hh).
    constructor.
    + unfold regionOK. cbn [fst snd].
      rewrite Hk, Hx, Hy, Hw, Hh. subst dY. repeat split; try done; lia.
    + eapply Forall_impl; [apply (IH _ _ Hrest)|].
      intros r (? & ? & ?). split; [done|]. split; [done|lia].
Qed.

Lemma loopX_count fuel pixelY dY pixelX rs i j :
  loopX colorpalette fuel bitmap c ts pixelY dY pixelX = Some rs →
  coverCount c2 c3 i j rs =
    if (pixelX - c2 <=? i) && (i <? W) &&
       (pixelY - c3 <=? j) && (j <? pixelY - c3 + dY)
    then 1%nat else 0%nat.
Proof.
  revert pixelX rs.
  induction fuel as [|fuel IH]; intros pixelX rs;
    cbn [loopX fst snd].
  - destruct (Z.ltb_spec pixelX (W + c2)); [done|].
    intros [= <-]. cbn. cases_Zb; cbn; try done. lia.
  - destruct (Z.ltb_spec pixelX (W + c2)) as [Hlt|];
      [|intros [= <-]; cbn; cases_Zb; cbn; try done; lia].
    destruct (drawSize_bounds pixelX c2 W Hlt) as [Hd1 Hd2].
    set (dX := Z.min (ts - Z.rem pixelX ts) (W - (pixelX - c2))) in *.
    destruct (loopX _ fuel _ _ _ _ _ (pixelX + dX)) as [rest|] eqn:Hrest;
      [|done].
    cbn [mbind option_bind]. intros [= <-].
    pose proof (makeRegion_fields pixelX pixelY dX dY)
      as (Hk & Hx & Hy & Hw & Hh).
    pose proof (IH _ _ Hrest) as IHc. unfold coverCount in *.
    rewrite filter_cons.
    case_decide as Hc; cbn [length]; rewrite IHc;
      unfold covers in Hc; rewrite Hx, Hy, Hw, Hh in Hc;
      revert Hc; cases_Zb; cbn; intros Hc; try done; lia.
Qed.

(** Keys of one row are pairwise distinct. *)
Lemma loopX_keys_NoDup fuel pixelY dY pixelX rs :
  dY = Z.min (ts - Z.rem pixelY ts) (H - (pixelY - c3)) →
  pixelY < H + c3 →
  loopX colorpalette fuel bitmap c ts pixelY dY pixelX = Some rs →
  NoDup (rg_key <$> rs).
Proof.
  intros HdY HY. revert pixelX rs.
  induction fuel as [|fuel IH]; intros pixelX rs;
    cbn [loopX fst snd].
  - destruct (Z.ltb_spec pixelX (W + c2)); [done|].
    intros [= <-]. constructor.
  - destruct (Z.ltb_spec pixelX (W + c2)) as [Hlt|];
      [|intros [= <-]; constructor].
    destruct (drawSize_bounds pixelX c2 W Hlt) as [Hd1 Hd2].
    set (dX := Z.min (ts - Z.rem pixelX ts) (W - (pixelX - c2))) in *.
    destruct (loopX _ fuel _ _ _ _ _ (pixelX + dX)) as [rest|] eqn:Hrest;
      [|done].
    cbn [mbind option_bind]. intros [= <-].
    pose proof (makeRegion_fields pixelX pixelY dX dY)
      as (Hk & Hx & Hy & Hw & Hh).
    constructor; [|by eapply IH].
    intros Hin. apply list_elem_of_fmap in Hin as (r & Hkr & Hr).
    pose proof (loopX_regionOK _ _ _ _ _ HdY HY Hrest) as Hall.
    rewrite Forall_forall in Hall.
    destruct (Hall r Hr) as ((Hrk & _) & _ & Hge).
    rewrite Hk, Hrk in Hkr.
    apply templateTileName_inj in Hkr as [? ?]. lia.
Qed.

Lemma loopY_total fuel pixelY :
  (Z.to_nat (H + c3 - pixelY) ≤ fuel)%nat →
  is_Some (loopY colorpalette fuel bitmap c ts pixelY).
Proof.
  revert pixelY. induction fuel as [|fuel IH]; intros pixelY Hf;
    cbn [loopY fst snd].
  - destruct (Z.ltb_spec pixelY (H + c3)); [lia|done].
  - destruct (Z.ltb_spec pixelY (H + c3)) as [Hlt|]; [|done].
    destruct (drawSize_bounds pixelY c3 H Hlt) as [Hd _].
    set (dY := Z.min (ts - Z.rem pixelY ts) (H - (pixelY - c3))) in *.
    destruct (loopX_total (Z.to_nat W) pixelY dY c2) as [row ->]; [lia|].
    destruct (IH (pixelY + dY)) as [rs ->]; [lia|]. done.
Qed.

Lemma loopY_regionOK fuel pixelY rs :
  loopY colorpalette fuel bitmap c ts pixelY = Some rs →
  Forall (λ r, regionOK bitmap c ts r ∧ pixelY ≤ rg_pixelY r ∧
               c2 ≤ rg_pixelX r) rs.
Proof.
  revert pixelY rs. induction fuel as [|fuel IH]; intros pixelY rs;
    cbn [loopY fst snd].
  - destruct (Z.ltb_spec pixelY (H + c3)); [done|].
    intros [= <-]. constructor.
  - destruct (Z.ltb_spec pixelY (H + c3)) as [Hlt|];
      [|intros [= <-]; constructor].
    destruct (drawSize_bounds pixelY c3 H Hlt) as [Hd1 Hd2].
    set (dY := Z.min (ts - Z.rem pixelY ts) (H - (pixelY - c3))) in *.
    destruct (loopX _ _ _ _ _ pixelY dY c2) as [row|] eqn:Hrow; [|done].
    destruct (loopY _ fuel _ _ _ (pixelY + dY)) as [rest|] eqn:Hrest;
      [|done].
    cbn [mbind option_bind]. intros [= <-]. apply Forall_app. split.
    + eapply Forall_impl;
        [apply (loopX_regionOK _ _ _ _ _ eq_refl Hlt Hrow)|].
      intros r (? & ? & ?). split; [done|]. split; lia.
    + eapply Forall_impl; [apply (IH _ _ Hrest)|].
      intros r (? & ? & ?). split; [done|]. split; lia.
Qed.

Lemma loopY_count fuel pixelY rs i j :
  c3 ≤ pixelY →
  loopY colorpalette fuel bitmap c ts pixelY = Some rs →
  coverCount c2 c3 i j rs =
    if (0 <=? i) && (i <? W) && (pixelY - c3 <=? j) && (j <? H)
    then 1%nat else 0%nat.
Proof.
  revert pixelY rs. induction fuel as [|fuel IH]; intros pixelY rs HY;
    cbn [loopY fst snd].
  - destruct (Z.ltb_spec pixelY (H + c3)); [done|].
    intros [= <-]. cbn. cases_Zb; cbn; try done. lia.
  - destruct (Z.ltb_spec pixelY (H + c3)) as [Hlt|];
      [|intros [= <-]; cbn; cases_Zb; cbn; try done; lia].
    destruct (drawSize_bounds pixelY c3 H Hlt) as [Hd1 Hd2].
    set (dY := Z.min (ts - Z.rem pixelY ts) (H - (pixelY - c3))) in *.
    destruct (loopX _ _ _ _ _ pixelY dY c2) as [row|] eqn:Hrow; [|done].
    destruct (loopY _ fuel _ _ _ (pixelY + dY)) as [rest|] eqn:Hrest;
      [|done].
    cbn [mbind option_bind]. intros [= <-].
    pose proof (loopX_count _ _ _ _ _ i j Hrow) as Hc1.
    assert (c3 ≤ pixelY + dY) as HY' by lia.
    pose proof (IH _ _ HY' Hrest) as Hc2.
    unfold coverCount in *. rewrite filter_app, length_app, Hc1, Hc2.
    replace (c2 - c2) with 0 by lia.
    cases_Zb; cbn; try done; lia.
Qed.

Lemma loopY_keys_NoDup fuel pixelY rs :
  loopY colorpalette fuel bitmap c ts pixelY = Some rs →
  NoDup (rg_key <$> rs).
Proof.
  revert pixelY rs. induction fuel as [|fuel IH]; intros pixelY rs;
    cbn [loopY fst snd].
  - destruct (Z.ltb_spec pixelY (H + c3)); [done|].
    intros [= <-]. constructor.
  - destruct (Z.ltb_spec pixelY (H + c3)) as [Hlt|];
      [|intros [= <-]; constructor].
    destruct (drawSize_bounds pixelY c3 H Hlt) as [Hd1 Hd2].
    set (dY := Z.min (ts - Z.rem pixelY ts) (H - (pixelY - c3))) in *.
    destruct (loopX _ _ _ _ _ pixelY dY c2) as [row|] eqn:Hrow; [|done].
    destruct (loopY _ fuel _ _ _ (pixelY + dY)) as [rest|] eqn:Hrest;
      [|done].
    cbn [mbind option_bind]. intros [= <-]. rewrite fmap_app. apply NoDup_app.
    split; [by eapply (loopX_keys_NoDup _ _ _ _ _ eq_refl Hlt Hrow)|].
    split; [|by eapply IH].
    intros k Hk1 Hk2.
    apply list_elem_of_fmap in Hk1 as (r1 & -> & Hr1).
    apply list_elem_of_fmap in Hk2 as (r2 & Heq & Hr2).
    pose proof (loopX_regionOK _ _ _ _ _ eq_refl Hlt Hrow) as Hall1.
    pose proof (loopY_regionOK _ _ _ Hrest) as Hall2.
    rewrite Forall_forall in Hall1, Hall2.
    destruct (Hall1 r1 Hr1) as ((Hk1 & _) & Hy1 & _).
    destruct (Hall2 r2 Hr2) as ((Hk2 & _) & Hy2 & _).
    rewrite Hk1, Hk2 in Heq.
    apply templateTileName_inj in Heq as [? ?]. lia.
Qed.

(** Every region of a run is the one built at its own position. *)
Lemma loopX_made fuel pixelY dY pixelX rs :
  loopX colorpalette fuel bitmap c ts pixelY dY pixelX = Some rs →
  Forall (λ r, r = makeRegion colorpalette bitmap c (rg_pixelX r)
                     (rg_pixelY r) (rg_w r) (rg_h r)) rs.
Proof.
  revert pixelX rs.
  induction fuel as [|fuel IH]; intros pixelX rs; cbn [loopX fst snd].
  - destruct (Z.ltb_spec pixelX (W + c2)); [done|].
    intros [= <-]. constructor.
  - destruct (Z.ltb_spec pixelX (W + c2)) as [Hlt|];
      [|intros [= <-]; constructor].
    set (dX := Z.min (ts - Z.rem pixelX ts) (W - (pixelX - c2))) in *.
    destruct (loopX _ fuel _ _ _ _ _ (pixelX + dX)) as [rest|] eqn:Hrest;
      [|done].
    cbn [mbind option_bind]. intros [= <-].
    pose proof (makeRegion_fields pixelX pixelY dX dY)
      as (Hk & Hx & Hy & Hw & Hh).
    constructor; [|by eapply IH].
    cbn zeta in *. by rewrite Hx, Hy, Hw, Hh.
Qed.

Lemma loopY_made fuel pixelY rs :
  loopY colorpalette fuel bitmap c ts pixelY = Some rs →
  Forall (λ r, r = makeRegion colorpalette bitmap c (rg_pixelX r)
                     (rg_pixelY r) (rg_w r) (rg_h r)) rs.
Proof.
  revert pixelY rs.
  induction fuel as [|fuel IH]; intros pixelY rs; cbn [loopY fst snd].
  - destruct (Z.ltb_spec pixelY (H + c3)); [done|].
    intros [= <-]. constructor.
  - destruct (Z.ltb_spec pixelY (H + c3)) as [Hlt|];
      [|intros [= <-]; constructor].
    set (dY := Z.min (ts - Z.rem pixelY ts) (H - (pixelY - c3))) in *.
    destruct (loopX _ _ _ _ _ pixelY dY c2) as [row|] eqn:Hrow; [|done].
    destruct (loopY _ fuel _ _ _ (pixelY + dY)) as [rest|] eqn:Hrest;
      [|done].
    cbn [mbind option_bind]. intros [= <-]. apply Forall_app.
    split; [by eapply loopX_made|by eapply IH].
Qed.

End SlicingFacts.

(** ** Objects filled by the loops *)

Section ObjFacts.

Context {V : Type}.
Implicit Types (o : jsobj V) (k : string) (v : V).

Lemma get_set_eq o k v : Obj.get (Obj.set o k v) k = Some v.
Proof.
  induction o as [|[k' v'] o IH]; cbn.
  - by rewrite String.eqb_refl.
  - destruct (String.eqb_spec k' k) as [->|Hne]; cbn.
    + by rewrite String.eqb_refl.
    + destruct (String.eqb_spec k' k); [done|apply IH].
Qed.

Lemma get_set_ne o k k' v :
  k ≠ k' → Obj.get (Obj.set o k v) k' = Obj.get o k'.
Proof.
  intros Hne. induction o as [|[k0 v0] o IH]; cbn.
  - destruct (String.eqb_spec k k'); done.
  - destruct (String.eqb_spec k0 k) as [->|?]; cbn.
    + destruct (String.eqb_spec k k'); done.
    + destruct (String.eqb_spec k0 k'); [done|apply IH].
Qed.

Lemma storeAll_get_other (f : Region → V) o rs k :
  k ∉ rg_key <$> rs → Obj.get (storeAll f o rs) k = Obj.get o k.
Proof.
  revert o. induction rs as [|r rs IH]; intros o Hk; [done|].
  cbn in Hk. apply not_elem_of_cons in Hk as [Hne Hk].
  unfold storeAll in *. cbn [foldl]. rewrite IH by done.
  apply get_set_ne. congruence.
Qed.

(** With distinct keys, each region is found under its own key. *)
Lemma storeAll_get (f : Region → V) o rs r :
  NoDup (rg_key <$> rs) → r ∈ rs →
  Obj.get (storeAll f o rs) (rg_key r) = Some (f r).
Proof.
  revert o. induction rs as [|r0 rs IH]; intros o Hnd Hr.
  { inversion Hr. }
  cbn in Hnd. apply NoDup_cons in Hnd as [Hnotin Hnd].
  unfold storeAll in *. cbn [foldl].
  apply elem_of_cons in Hr as [->|Hr].
  - fold (storeAll f (Obj.set o (rg_key r0) (f r0)) rs).
    rewrite storeAll_get_other by done. apply get_set_eq.
  - by apply IH.
Qed.

End ObjFacts.

Lemma sliceRegions_unfold colorpalette t bitmap c :
  file t = Some bitmap → coords t = Some c → tileSize t ≠ 0 →
  sliceRegions colorpalette t
  = loopY colorpalette (Z.to_nat (bm_height bitmap)) bitmap c
      (tileSize t) c.2.
Proof.
  intros Hf Hc Hts. unfold sliceRegions. rewrite Hf, Hc. cbn.
  destruct (Z.eqb_spec (tileSize t) 0); done.
Qed.

(** With a positive tile size the slicing loops end. *)
Lemma sliceRegions_total colorpalette t bitmap c :
  file t = Some bitmap → coords t = Some c → 0 < tileSize t →
  is_Some (sliceRegions colorpalette t).
Proof.
  intros Hf Hc Hts. destruct c as [[[c0 c1] c2] c3].
  rewrite (sliceRegions_unfold _ _ _ _ Hf Hc) by lia.
  apply loopY_total; [done|]. cbn. lia.
Qed.

(** C5. For an image of at least one pixel, an anchor whose pixel
    offsets are not negative and a positive tile size, slicing returns
    regions such that every pixel of the W x H box lies in exactly one
    region and every region lies in the box; along each axis the size of
    a region is [min (tileSize - coord mod tileSize, remaining extent)],
    hence at most [tileSize]. *)
Theorem slicing_partitions_image colorpalette t bitmap c0 c1 c2 c3 :
  file t = Some bitmap → coords t = Some (c0, c1, c2, c3) →
  1 ≤ bm_width bitmap → 1 ≤ bm_height bitmap →
  0 ≤ c2 → 0 ≤ c3 → 0 < tileSize t →
  ∃ rs,
    sliceRegions colorpalette t = Some rs ∧
    (∀ i j, 0 ≤ i < bm_width bitmap → 0 ≤ j < bm_height bitmap →
            coverCount c2 c3 i j rs = 1%nat) ∧
    Forall (λ r,
      insideBox c2 c3 (bm_width bitmap) (bm_height bitmap) r ∧
      rg_w r = specExtent (tileSize t) (rg_pixelX r)
                 (bm_width bitmap - (rg_pixelX r - c2)) ∧
      rg_h r = specExtent (tileSize t) (rg_pixelY r)
                 (bm_height bitmap - (rg_pixelY r - c3)) ∧
      rg_w r ≤ tileSize t ∧ rg_h r ≤ tileSize t) rs.
Proof.
  intros Hf Hc HW HH Hc2 Hc3 Hts.
  destruct (sliceRegions_total colorpalette t _ _ Hf Hc Hts) as [rs Hrs].
  exists rs. split; [done|].
  rewrite (sliceRegions_unfold _ _ _ _ Hf Hc) in Hrs by lia.
  cbn [snd] in Hrs. split.
  - intros i j Hi Hj.
    rewrite (loopY_count _ _ _ _ _ _ _ Hts _ _ _ i j (Z.le_refl c3) Hrs).
    cases_Zb; cbn; try done; lia.
  - eapply Forall_impl; [apply (loopY_regionOK _ _ _ _ _ _ _ Hts _ _ _ Hrs)|].
    intros r ((_ & Hw & Hh & ? & ? & ? & ?) & HY & HX). cbn in *.
    rewrite Z.rem_mod_nonneg in Hw, Hh by lia.
    pose proof (Z.mod_pos_bound (rg_pixelX r) (tileSize t) Hts).
    pose proof (Z.mod_pos_bound (rg_pixelY r) (tileSize t) Hts).
    unfold insideBox, specExtent. repeat split; lia.
Qed.

Lemma slicing_partitions_image_witness :
  ∃ rs,
    sliceRegions demoPalette boundaryTemplate = Some rs ∧
    (∀ i j, 0 ≤ i < 2 → 0 ≤ j < 1 → coverCount 999 0 i j rs = 1%nat) ∧
    Forall (λ r,
      insideBox 999 0 2 1 r ∧
      rg_w r = specExtent 1000 (rg_pixelX r) (2 - (rg_pixelX r - 999)) ∧
      rg_h r = specExtent 1000 (rg_pixelY r) (1 - (rg_pixelY r - 0)) ∧
      rg_w r ≤ 1000 ∧ rg_h r ≤ 1000) rs.
Proof.
  apply (slicing_partitions_image demoPalette boundaryTemplate twoPixels
           1 2 999 0); first [reflexivity | cbn; lia].
Defined.

(** C8. For every image, anchor and positive tile size, one slicing run
    stores its regions under pairwise distinct keys: each key of the four
    chunk maps, of the export buffers and of the colour-index map holds
    the data of exactly one region. *)
Theorem tile_keys_distinct colorpalette encodeBase64PNG t bitmap c :
  file t = Some bitmap → coords t = Some c → 0 < tileSize t →
  ∃ t' tiles rs,
    createTemplateTiles colorpalette encodeBase64PNG t = Some (t', tiles) ∧
    sliceRegions colorpalette t = Some rs ∧
    NoDup (rg_key <$> rs) ∧
    ∀ r, r ∈ rs →
      Obj.get (templateTiles tiles) (rg_key r)
      = Some (renderToBitmap shreadSize (origImageData r)) ∧
      Obj.get (templateTilesAuto tiles) (rg_key r)
      = Some (renderToBitmap shreadSize (mappedImageData r)) ∧
      Obj.get (templateTilesFull tiles) (rg_key r)
      = Some (renderToBitmapNoMask shreadSize (origImageData r)) ∧
      Obj.get (templateTilesAutoFull tiles) (rg_key r)
      = Some (renderToBitmapNoMask shreadSize (mappedImageData r)) ∧
      Obj.get (templateTilesBuffers tiles) (rg_key r)
      = Some (encodeBase64PNG
                (renderToBitmap shreadSize (origImageData r))) ∧
      (colorIndexTiles t' ≫= λ o, Obj.get o (rg_key r))
      = Some {| it_w := rg_w r; it_h := rg_h r; it_data := rg_idx r |}.
Proof.
  intros Hf Hc Hts.
  destruct (sliceRegions_total colorpalette t _ _ Hf Hc Hts) as [rs Hrs].
  assert (NoDup (rg_key <$> rs)) as Hnd.
  { destruct c as [[[c0 c1] c2] c3].
    rewrite (sliceRegions_unfold _ _ _ _ Hf Hc) in Hrs by lia.
    by eapply (loopY_keys_NoDup _ _ _ _ _ _ _ Hts). }
  unfold createTemplateTiles. rewrite Hf, Hrs. cbn [mbind option_bind].
  eexists _, _, rs. split; [reflexivity|]. split; [done|]. split; [done|].
  intros r Hr. cbn.
  repeat split; by rewrite storeAll_get.
Qed.

Lemma tile_keys_distinct_witness :
  ∃ t' tiles rs,
    createTemplateTiles demoPalette (λ _, "png") boundaryTemplate
    = Some (t', tiles) ∧
    sliceRegions demoPalette boundaryTemplate = Some rs ∧
    NoDup (rg_key <$> rs) ∧
    ∀ r, r ∈ rs →
      Obj.get (templateTiles tiles) (rg_key r)
      = Some (renderToBitmap shreadSize (origImageData r)) ∧
      Obj.get (templateTilesAuto tiles) (rg_key r)
      = Some (renderToBitmap shreadSize (mappedImageData r)) ∧
      Obj.get (templateTilesFull tiles) (rg_key r)
      = Some (renderToBitmapNoMask shreadSize (origImageData r)) ∧
      Obj.get (templateTilesAutoFull tiles) (rg_key r)
      = Some (renderToBitmapNoMask shreadSize (mappedImageData r)) ∧
      Obj.get (templateTilesBuffers tiles) (rg_key r)
      = Some ((λ _, "png") (renderToBitmap shreadSize (origImageData r))) ∧
      (colorIndexTiles t' ≫= λ o, Obj.get o (rg_key r))
      = Some {| it_w := rg_w r; it_h := rg_h r; it_data := rg_idx r |}.
Proof.
  apply (tile_keys_distinct demoPalette (λ _, "png") boundaryTemplate
           twoPixels (1, 2, 999, 0)); first [reflexivity | cbn; lia].
Defined.


(** The constructor gives every template the tile size 1000; neither
    [createTemplate] nor [#parseBlueMarble] passes another one. *)
Lemma newTemplate_tileSize displayName sortID authorID file coords autoColor
    enabled idKey :
  tileSize (newTemplate displayName sortID authorID file coords autoColor
              enabled idKey) = 1000.
Proof. reflexivity. Qed.



(** The keys of the two regions of an image anchored at the pixel
    offset 1999 of the tile (1, 2): the offset is carried into the tile
    field, and the image runs over into the next tile. *)
Example farAnchored_keys :
  (λ r, (rg_pixelX r, rg_key r))
    <$> default [] (sliceRegions demoPalette farAnchored)
  = [(1999, "0002,0002,999,000"); (2000, "0003,0002,000,000")].
Proof. vm_compute. reflexivity. Qed.

(** A 3 x 2 image anchored at pixel (1, 1) on a grid of 2-pixel tiles:
    a partial first column and row, then what remains of the image. *)
Example small_grid_rectangles :
  (λ r, (rg_pixelX r, rg_pixelY r, rg_w r, rg_h r)) <$>
    default []
      (sliceRegions demoPalette
         {| displayName := "grid"; sortID := 0; authorID := "A";
            url := EmptyString;
            file := Some {| bm_width := 3; bm_height := 2;
                            bm_data := replicate 24 0 |};
            coords := Some (0, 0, 1, 1); chunked := None;
            autoColor := false; tileSize := 2; pixelCount := 0;
            colorIndexTiles := Some []; enabled := true; idKey := "0 A";
            chunkedOriginal := None; chunkedAuto := None;
            chunkedOriginalFull := None; chunkedAutoFull := None |})
  = [(1, 1, 1, 1); (2, 1, 2, 1); (1, 2, 1, 1); (2, 2, 2, 1)].
Proof. vm_compute. reflexivity. Qed.

Example boundary_keys :
  rg_key <$> default [] (sliceRegions demoPalette boundaryTemplate)
  = ["0001,0002,999,000"; "0002,0002,000,000"].
Proof. vm_compute. reflexivity. Qed.


(* ===================================================================== *)
(** * Properties of the pixel classification                              *)
(* ===================================================================== *)

Section TypedArrayFacts.

Implicit Types (l : list Z) (i j v : Z).

Lemma length_put l i v : length (JS.put l i v) = length l.
Proof.
  unfold JS.put. destruct (i <? 0); [done|]. apply length_insert.
Qed.

Lemma at_put_eq l i v :
  0 ≤ i → (Z.to_nat i < length l)%nat → JS.at_ (JS.put l i v) i = Some v.
Proof.
  intros Hi Hlen. unfold JS.at_, JS.put.
  destruct (Z.ltb_spec i 0); [lia|]. by apply list_lookup_insert_eq.
Qed.

Lemma at_put_ne l i j v :
  i ≠ j → JS.at_ (JS.put l i v) j = JS.at_ l j.
Proof.
  intros Hne. unfold JS.at_, JS.put.
  destruct (Z.ltb_spec j 0); [done|].
  destruct (Z.ltb_spec i 0); [done|].
  apply list_lookup_insert_ne. lia.
Qed.

End TypedArrayFacts.

Section PixelFacts.

Variable colorpalette : list PaletteEntry.
Variables (w h : Z) (src : list Z).

(** Row-major indices of distinct pixels of a row width differ. *)
Lemma linear_index_inj x y x' y' :
  0 ≤ x < w → 0 ≤ x' < w → (x', y') ≠ (x, y) →
  y' * w + x' ≠ y * w + x.
Proof.
  intros Hx Hx' Hne Heq. apply Hne.
  assert (y' = y) as -> by nia. f_equal. lia.
Qed.

Lemma linear_index_bound x y :
  0 ≤ x < w → 0 ≤ y < h → 0 ≤ y * w + x < w * h.
Proof. intros. nia. Qed.

Lemma pixelBody_sized x y bufs :
  bufsSized w h bufs → bufsSized w h (pixelBody colorpalette w src y x bufs).
Proof.
  destruct bufs as [[orig mapped] idxMap]. unfold pixelBody, bufsSized.
  intros (Ho & Hm & Hi).
  repeat (case_match; simplify_eq); rewrite ?length_put; done.
Qed.

(** A pixel step leaves every other pixel of the region as it was. *)
Lemma pixelBody_frame x y x' y' bufs :
  0 ≤ x < w → 0 ≤ x' < w → (x', y') ≠ (x, y) →
  pixelView w x y (pixelBody colorpalette w src y' x' bufs)
  = pixelView w x y bufs.
Proof.
  intros Hx Hx' Hne.
  pose proof (linear_index_inj x y x' y' Hx Hx' Hne) as Hlin.
  destruct bufs as [[orig mapped] idxMap]. unfold pixelBody, pixelView.
  repeat (case_match; simplify_eq);
    rewrite ?at_put_ne by lia; done.
Qed.

(** The step of a sentinel pixel writes the outcome of the
    specification, whatever the alpha of the source pixel. *)
Lemma pixelBody_sentinel x y bufs :
  0 ≤ x < w → 0 ≤ y < h → bufsSized w h bufs →
  JS.at_ src ((y * w + x) * 4) = Some 222 →
  JS.at_ src ((y * w + x) * 4 + 1) = Some 250 →
  JS.at_ src ((y * w + x) * 4 + 2) = Some 206 →
  sentinelOutcome x y
    (pixelView w x y (pixelBody colorpalette w src y x bufs)).
Proof.
  intros Hx Hy Hsz Hr Hg Hb.
  pose proof (linear_index_bound x y Hx Hy) as Hlin.
  destruct bufs as [[orig mapped] idxMap].
  destruct Hsz as (Ho & Hm & Hi).
  unfold pixelBody, JS.get0. rewrite Hr, Hg, Hb. cbn [default].
  rewrite !Z.eqb_refl. cbn [andb].
  rewrite Z.rem_mod_nonneg by lia.
  unfold sentinelOutcome, pixelView.
  destruct ((x + y) mod 2 =? 0).
  - split; [apply at_put_eq; lia|].
    split; repeat f_equal;
      repeat first
        [ rewrite at_put_eq by (rewrite ?length_put; lia)
        | rewrite at_put_ne by lia ]; done.
  - split; [apply at_put_eq; lia|].
    cbn [lookup list_lookup].
    split; f_equal; apply at_put_eq; lia.
Qed.

(** One row of the pixel loops, over any duplicate-free list of
    columns. *)
Lemma row_fold_sized y l bufs :
  bufsSized w h bufs →
  bufsSized w h
    (foldl (λ acc i, pixelBody colorpalette w src y i acc) bufs l).
Proof.
  revert bufs. induction l as [|a l IH]; intros bufs Hs; [done|].
  cbn [foldl]. apply IH. by apply pixelBody_sized.
Qed.

Lemma row_fold_frame x y y' l bufs :
  0 ≤ x < w → Forall (λ x', 0 ≤ x' < w) l →
  (y' ≠ y ∨ x ∉ l) →
  pixelView w x y
    (foldl (λ acc i, pixelBody colorpalette w src y' i acc) bufs l)
  = pixelView w x y bufs.
Proof.
  intros Hx Hl Hne. revert bufs.
  induction Hl as [|a l Ha Hl IH]; intros bufs; [done|].
  cbn [foldl]. rewrite IH.
  - apply pixelBody_frame; [done..|].
    intros [= -> ->]. destruct Hne as [?|Hn]; [done|].
    apply Hn. left.
  - destruct Hne as [?|Hn]; [by left|right].
    intros ?. apply Hn. by right.
Qed.

Lemma row_fold_sentinel x y l bufs :
  0 ≤ x < w → 0 ≤ y < h → bufsSized w h bufs →
  Forall (λ x', 0 ≤ x' < w) l → NoDup l → x ∈ l →
  JS.at_ src ((y * w + x) * 4) = Some 222 →
  JS.at_ src ((y * w + x) * 4 + 1) = Some 250 →
  JS.at_ src ((y * w + x) * 4 + 2) = Some 206 →
  sentinelOutcome x y
    (pixelView w x y
       (foldl (λ acc i, pixelBody colorpalette w src y i acc) bufs l)).
Proof.
  intros Hx Hy Hsz Hl Hnd Hin Hr Hg Hb. revert bufs Hsz.
  induction Hl as [|a l Ha Hl IH]; intros bufs Hsz.
  { inversion Hin. }
  apply NoDup_cons in Hnd as [Hnotin Hnd]. cbn [foldl].
  apply elem_of_cons in Hin as [<-|Hin].
  - rewrite row_fold_frame by (try done; by right).
    by apply pixelBody_sentinel.
  - apply IH; [done..|]. by apply pixelBody_sized.
Qed.

(** The rows, over any duplicate-free list of rows. *)
Lemma rows_fold_sized ly bufs :
  bufsSized w h bufs →
  bufsSized w h
    (foldl (λ acc y, JS.forRange w (pixelBody colorpalette w src y) acc)
       bufs ly).
Proof.
  revert bufs. induction ly as [|a ly IH]; intros bufs Hs; [done|].
  cbn [foldl]. apply IH. unfold JS.forRange. by apply row_fold_sized.
Qed.

Lemma seqZ_in_range n : Forall (λ i, 0 ≤ i < n) (seqZ 0 n).
Proof. apply Forall_seqZ. lia. Qed.

Lemma rows_fold_frame x y ly bufs :
  0 ≤ x < w → y ∉ ly →
  pixelView w x y
    (foldl (λ acc y, JS.forRange w (pixelBody colorpalette w src y) acc)
       bufs ly)
  = pixelView w x y bufs.
Proof.
  intros Hx. revert bufs.
  induction ly as [|a ly IH]; intros bufs Hn; [done|].
  apply not_elem_of_cons in Hn as [Hne Hn].
  cbn [foldl]. rewrite IH by done. unfold JS.forRange.
  apply row_fold_frame; [done|apply seqZ_in_range|]. left. congruence.
Qed.

Lemma rows_fold_sentinel x y ly bufs :
  0 ≤ x < w → 0 ≤ y < h → bufsSized w h bufs →
  NoDup ly → y ∈ ly →
  JS.at_ src ((y * w + x) * 4) = Some 222 →
  JS.at_ src ((y * w + x) * 4 + 1) = Some 250 →
  JS.at_ src ((y * w + x) * 4 + 2) = Some 206 →
  sentinelOutcome x y
    (pixelView w x y
       (foldl (λ acc y, JS.forRange w (pixelBody colorpalette w src y) acc)
          bufs ly)).
Proof.
  intros Hx Hy Hsz Hnd Hin Hr Hg Hb. revert bufs Hsz.
  induction ly as [|a ly IH]; intros bufs Hsz.
  { inversion Hin. }
  apply NoDup_cons in Hnd as [Hnotin Hnd]. cbn [foldl].
  apply elem_of_cons in Hin as [<-|Hin].
  - rewrite rows_fold_frame by done. unfold JS.forRange.
    apply row_fold_sentinel; try done.
    + apply seqZ_in_range.
    + apply NoDup_seqZ.
    + apply elem_of_seqZ. lia.
  - apply IH; [done..|]. unfold JS.forRange. by apply row_fold_sized.
Qed.

End PixelFacts.

(** The source buffer read from the canvas has four bytes per pixel. *)
Lemma pixelAt_length bm x y : length (pixelAt bm x y) = 4%nat.
Proof. unfold pixelAt. by case_match. Qed.

Lemma bind_const_length {A B} (f : A → list B) (n : nat) (l : list A) :
  (∀ a, length (f a) = n) → length (l ≫= f) = (length l * n)%nat.
Proof.
  intros Hf. induction l as [|a l IH]; [done|].
  cbn. rewrite length_app, Hf, IH. lia.
Qed.

Lemma cropImageData_length bm sx sy w h :
  0 ≤ w → 0 ≤ h →
  length (cropImageData bm sx sy w h) = Z.to_nat (4 * (w * h)).
Proof.
  intros Hw Hh. unfold cropImageData.
  rewrite (bind_const_length _ (Z.to_nat w * 4)).
  - rewrite length_seqZ. nia.
  - intros y. rewrite (bind_const_length _ 4).
    + by rewrite length_seqZ.
    + intros x. apply pixelAt_length.
Qed.

(** Reading a concatenation of blocks of one size. *)
Lemma bind_const_lookup {A B} (f : A → list B) (n : nat) (l : list A)
    (i j : nat) :
  (∀ a, length (f a) = n) → (j < n)%nat →
  (l ≫= f) !! (i * n + j)%nat = l !! i ≫= λ a, f a !! j.
Proof.
  intros Hf Hj. revert i. induction l as [|a l IH]; intros i.
  { by rewrite !lookup_nil. }
  cbn [mbind list_bind]. destruct i as [|i].
  - cbn. rewrite lookup_app_l by (rewrite Hf; lia). done.
  - rewrite lookup_app_r by (rewrite Hf; lia).
    rewrite Hf. replace (S i * n + j - n)%nat with (i * n + j)%nat by lia.
    apply IH.
Qed.

(** The bytes of the source buffer at a region-local position are those
    of the image pixel under it. *)
Lemma cropImageData_lookup bm sx sy w h x y (k : nat) :
  0 ≤ x < w → 0 ≤ y < h → (k < 4)%nat →
  JS.at_ (cropImageData bm sx sy w h) ((y * w + x) * 4 + Z.of_nat k)
  = pixelAt bm (sx + x) (sy + y) !! k.
Proof.
  intros Hx Hy Hk. unfold JS.at_, cropImageData.
  destruct (Z.ltb_spec ((y * w + x) * 4 + Z.of_nat k) 0); [nia|].
  replace (Z.to_nat ((y * w + x) * 4 + Z.of_nat k))
    with (Z.to_nat y * (Z.to_nat w * 4) + (Z.to_nat x * 4 + k))%nat by nia.
  rewrite (bind_const_lookup _ (Z.to_nat w * 4)).
  - rewrite lookup_seqZ_lt by lia. cbn [mbind option_bind].
    rewrite (bind_const_lookup _ 4); [|intros; apply pixelAt_length|done].
    rewrite lookup_seqZ_lt by lia. cbn [mbind option_bind].
    by rewrite !Z.add_0_l, !Z2Nat.id by lia.
  - intros a. rewrite (bind_const_length _ 4).
    + by rewrite length_seqZ.
    + intros; apply pixelAt_length.
  - nia.
Qed.

(** The buffers of a region are the classification of its crop. *)
Lemma makeRegion_classified colorpalette bitmap c pixelX pixelY dX dY :
  let r := makeRegion colorpalette bitmap c pixelX pixelY dX dY in
  (rg_orig r, rg_mapped r, rg_idx r)
  = classifyRegion colorpalette dX dY
      (cropImageData bitmap (pixelX - c.1.2) (pixelY - c.2) dX dY).
Proof.
  destruct c as [[[c0 c1] c2] c3]. unfold makeRegion. cbn [fst snd].
  by destruct (classifyRegion _ _ _ _) as [[orig mapped] idxMap].
Qed.

(** In the buffers of a [w] x [h] region, a position [(x, y)] whose
    source bytes are exactly (222, 250, 206) is treated as the sentinel
    whatever its source alpha. *)
Lemma classified_sentinel_pixel colorpalette w h src x y :
  length src = Z.to_nat (4 * (w * h)) →
  0 ≤ x < w → 0 ≤ y < h →
  JS.at_ src ((y * w + x) * 4) = Some 222 →
  JS.at_ src ((y * w + x) * 4 + 1) = Some 250 →
  JS.at_ src ((y * w + x) * 4 + 2) = Some 206 →
  sentinelOutcome x y
    (pixelView w x y (classifyRegion colorpalette w h src)).
Proof.
  intros Hlen Hx Hy Hr Hg Hb. unfold classifyRegion.
  unfold JS.forRange at 1.
  apply (rows_fold_sentinel colorpalette w h); try done.
  - repeat split; try done. by rewrite length_replicate.
  - apply NoDup_seqZ.
  - apply elem_of_seqZ. lia.
Qed.

(** The two cells of the pattern, on a source whose pixels differ in
    alpha: the even cell is translucent black, the odd one transparent. *)
Example sentinel_pair_classified :
  classifyRegion demoPalette 2 1 sentinelPair
  = ([0; 0; 0; 32; 222; 250; 206; 0], [0; 0; 0; 32; 222; 250; 206; 0],
     [0; 0]).
Proof. reflexivity. Qed.

(** The same outcome, for a sentinel pixel of the image itself: in every
    region of a slicing run, under the idealised canvas. *)
Lemma sliced_sentinel_pixel colorpalette t bitmap c0 c1 c2 c3 rs r x y a :
  file t = Some bitmap → coords t = Some (c0, c1, c2, c3) →
  0 < tileSize t →
  sliceRegions colorpalette t = Some rs → r ∈ rs →
  0 ≤ x < rg_w r → 0 ≤ y < rg_h r →
  pixelAt bitmap (rg_pixelX r - c2 + x) (rg_pixelY r - c3 + y)
  = [222; 250; 206; a] →
  sentinelOutcome x y
    (pixelView (rg_w r) x y (rg_orig r, rg_mapped r, rg_idx r)).
Proof.
  intros Hf Hc Hts Hrs Hr Hx Hy Hpx.
  rewrite (sliceRegions_unfold _ _ _ _ Hf Hc) in Hrs by lia.
  pose proof (loopY_made _ _ _ _ _ _ _ _ _ _ Hrs) as Hmade.
  rewrite Forall_forall in Hmade. specialize (Hmade r Hr).
  pose proof (makeRegion_classified colorpalette bitmap (c0, c1, c2, c3)
                (rg_pixelX r) (rg_pixelY r) (rg_w r) (rg_h r)) as Hcl.
  cbn zeta in Hcl. rewrite <- Hmade in Hcl. rewrite Hcl. cbn [fst snd].
  unfold classifyRegion. unfold JS.forRange at 1.
  apply (rows_fold_sentinel colorpalette (rg_w r) (rg_h r)); try done.
  - repeat split; try (apply cropImageData_length; lia).
    by rewrite length_replicate.
  - apply NoDup_seqZ.
  - apply elem_of_seqZ. lia.
  - rewrite <- (Z.add_0_r (_ * 4)).
    rewrite (cropImageData_lookup _ _ _ _ _ _ _ 0) by (done || lia).
    by rewrite Hpx.
  - rewrite (cropImageData_lookup _ _ _ _ _ _ _ 1) by (done || lia).
    by rewrite Hpx.
  - rewrite (cropImageData_lookup _ _ _ _ _ _ _ 2) by (done || lia).
    by rewrite Hpx.
Qed.


(** A pixel counted once lies in some region of the list. *)
Lemma coverCount_one_elem c2 c3 i j rs :
  coverCount c2 c3 i j rs = 1%nat →
  ∃ r, r ∈ rs ∧ covers c2 c3 i j r = true.
Proof.
  unfold coverCount. intros Hc.
  destruct (filter _ rs) as [|r l] eqn:Hf; [done|].
  assert (r ∈ filter (λ r, covers c2 c3 i j r = true) rs) as Hr.
  { rewrite Hf. left. }
  apply list_elem_of_filter in Hr as [Hcov Hr]. by exists r.
Qed.

(** The source bytes of a crop are the pixel of the image under it. *)

(** C6. During slicing, every pixel of the image whose colour is exactly
    (222, 250, 206) is treated as the sentinel whatever its alpha: the
    run returns, one of its regions covers the pixel, and at the
    pixel's place [(x, y)] in that region both the original and the
    palette-mapped buffer hold (0, 0, 0) with alpha 32 when
    [(x + y) mod 2 = 0] and alpha 0 otherwise, and the entry of the
    index grid is 0. *)
Theorem sliced_sentinel_outcome colorpalette t bitmap c0 c1 c2 c3 i j a :
  file t = Some bitmap → coords t = Some (c0, c1, c2, c3) →
  0 < tileSize t →
  0 ≤ i < bm_width bitmap → 0 ≤ j < bm_height bitmap →
  pixelAt bitmap i j = [222; 250; 206; a] →
  ∃ rs r,
    sliceRegions colorpalette t = Some rs ∧ r ∈ rs ∧
    covers c2 c3 i j r = true ∧
    sentinelOutcome (i - (rg_pixelX r - c2)) (j - (rg_pixelY r - c3))
      (pixelView (rg_w r) (i - (rg_pixelX r - c2)) (j - (rg_pixelY r - c3))
         (rg_orig r, rg_mapped r, rg_idx r)).
Proof.
  intros Hf Hc Hts Hi Hj Hpx.
  destruct (sliceRegions_total colorpalette _ _ _ Hf Hc Hts) as [rs Hrs].
  pose proof Hrs as Hloop.
  rewrite (sliceRegions_unfold _ _ _ _ Hf Hc) in Hloop by lia.
  cbn [snd] in Hloop.
  pose proof (loopY_count _ _ _ _ _ _ _ Hts _ _ _ i j (Z.le_refl c3) Hloop)
    as Hcount.
  replace ((0 <=? i) && (i <? bm_width bitmap) && (c3 - c3 <=? j) &&
           (j <? bm_height bitmap)) with true in Hcount
    by (symmetry; cases_Zb; cbn; try done; lia).
  apply coverCount_one_elem in Hcount as (r & Hr & Hcov).
  exists rs, r. split; [done|]. split; [done|]. split; [done|].
  unfold covers in Hcov.
  apply andb_true_iff in Hcov as [Hcov Hc4].
  apply andb_true_iff in Hcov as [Hcov Hc3].
  apply andb_true_iff in Hcov as [Hc1 Hc2].
  apply Z.leb_le in Hc1, Hc3. apply Z.ltb_lt in Hc2, Hc4.
  apply (sliced_sentinel_pixel colorpalette t bitmap c0 c1 c2 c3 rs r _ _ a);
    try done; try lia.
  replace (rg_pixelX r - c2 + (i - (rg_pixelX r - c2))) with i by lia.
  replace (rg_pixelY r - c3 + (j - (rg_pixelY r - c3))) with j by lia.
  done.
Qed.

Lemma sliced_sentinel_outcome_witness :
  ∃ rs r,
    sliceRegions demoPalette boundaryTemplate = Some rs ∧ r ∈ rs ∧
    covers 999 0 0 0 r = true ∧
    sentinelOutcome (0 - (rg_pixelX r - 999)) (0 - (rg_pixelY r - 0))
      (pixelView (rg_w r) (0 - (rg_pixelX r - 999)) (0 - (rg_pixelY r - 0))
         (rg_orig r, rg_mapped r, rg_idx r)).
Proof.
  apply (sliced_sentinel_outcome demoPalette boundaryTemplate twoPixels
           1 2 999 0 0 0 255); first [reflexivity | cbn; lia].
Defined.

(** The buffers of the two regions of that image: the sentinel pixel of
    alpha 255 became translucent black and has no index; the other
    pixel is kept and indexed. *)
Example boundary_sentinel_buffers :
  (λ r, (rg_pixelX r, rg_orig r, rg_mapped r, rg_idx r))
    <$> default [] (sliceRegions demoPalette boundaryTemplate)
  = [(999, [0; 0; 0; 32], [0; 0; 0; 32], [0]);
     (1000, [10; 10; 10; 255], [0; 0; 0; 255], [1])].
Proof. vm_compute. reflexivity. Qed.


(* ===================================================================== *)
(** * Properties of the registry                                          *)
(* ===================================================================== *)

Section RegistryFacts.

Lemma find_key_none idKey (l : list Template) :
  Forall (λ x, keyOf x ≠ idKey) l →
  find (λ x, String.eqb (keyOf x) idKey) l = None.
Proof.
  induction 1 as [|x l Hx _ IH]; [done|]. cbn.
  destruct (String.eqb_spec (keyOf x) idKey); [done|apply IH].
Qed.

Lemma filter_key_miss idKey (l : list Template) :
  Forall (λ x, keyOf x ≠ idKey) l →
  filter (λ x, String.eqb (keyOf x) idKey = false) l = l.
Proof.
  induction 1 as [|x l Hx _ IH]; [done|].
  rewrite filter_cons, decide_True, IH; [done|].
  by apply String.eqb_neq.
Qed.

Lemma filter_key_gone idKey (l : list Template) :
  Forall (λ x, keyOf x ≠ idKey)
    (filter (λ x, String.eqb (keyOf x) idKey = false) l).
Proof.
  apply Forall_forall. intros x Hx.
  apply list_elem_of_filter in Hx as [Hx _]. by apply String.eqb_neq.
Qed.

Lemma incr_below v : v < 2 ^ 53 → JS.incr v = v + 1.
Proof. intros. unfold JS.incr. destruct (Z.ltb_spec v (2 ^ 53)); lia. Qed.

Lemma removeTemplate_array idKey m :
  templatesArray (removeTemplate idKey m)
  = filter (λ x, String.eqb (keyOf x) idKey = false) (templatesArray m).
Proof. unfold removeTemplate. repeat case_match; reflexivity. Qed.

Lemma filter_key_hit idKey (l : list Template) :
  Exists (λ x, keyOf x = idKey) l →
  length (filter (λ x, String.eqb (keyOf x) idKey = false) l) ≠ length l.
Proof.
  intros Hex.
  assert (length (filter (λ x, String.eqb (keyOf x) idKey = false) l)
          < length l)%nat; [|lia].
  induction Hex as [x l Hx|x l _ IH].
  - rewrite filter_cons, decide_False.
    + pose proof (length_filter
                    (λ x, String.eqb (keyOf x) idKey = false) l).
      cbn [length]. lia.
    + rewrite Hx, String.eqb_refl. done.
  - rewrite filter_cons. case_decide; cbn [length]; lia.
Qed.

End RegistryFacts.

(** Deleting a key of an object. *)
Section ObjDeleteFacts.
Context {V : Type}.
Implicit Types (o : jsobj V) (k : string).

Lemma get_remove_ne o k k' :
  k' ≠ k → Obj.get (Obj.remove o k) k' = Obj.get o k'.
Proof.
  intros Hne. induction o as [|[k0 v] o IH]; [done|].
  cbn [Obj.remove Obj.get].
  destruct (String.eqb_spec k0 k) as [->|Hk0].
  - destruct (String.eqb_spec k k'); [congruence|done].
  - cbn [Obj.get]. by rewrite IH.
Qed.

Lemma get_not_key o k : k ∉ Obj.keys o → Obj.get o k = None.
Proof.
  induction o as [|[k0 v] o IH]; [done|].
  unfold Obj.keys. cbn [fmap list_fmap fst Obj.get]. intros Hk.
  apply not_elem_of_cons in Hk as [Hne Hk].
  destruct (String.eqb_spec k0 k); [congruence|]. by apply IH.
Qed.

Lemma get_remove_eq o k :
  NoDup (Obj.keys o) → Obj.get (Obj.remove o k) k = None.
Proof.
  induction o as [|[k0 v] o IH]; [done|].
  unfold Obj.keys. cbn [fmap list_fmap fst Obj.remove].
  intros Hnd. apply NoDup_cons in Hnd as [Hk0 Hnd].
  destruct (String.eqb_spec k0 k) as [->|Hne].
  - by apply get_not_key.
  - cbn [Obj.get]. destruct (String.eqb_spec k0 k); [done|]. by apply IH.
Qed.

End ObjDeleteFacts.

Lemma fullManager_miss : noTemplateWithKey "99 Z" fullManager.
Proof.
  unfold noTemplateWithKey.
  apply (bool_decide_unpack (Forall (λ x, keyOf x ≠ "99 Z")
                               (templatesArray fullManager))).
  vm_compute. exact I.
Defined.

Example fullManager_is_full :
  length (templatesArray fullManager) = 10%nat ∧
  maxTemplates fullManager = 10.
Proof. split; vm_compute; reflexivity. Qed.

(** C10. [setTemplateEnabled] with an [idKey] that no loaded template
    answers to returns at once: the whole state of the manager is
    unchanged, so no [enabled] flag changes, [cacheVersion] is not bumped,
    the merged-tile cache is not cleared and nothing is written to the
    store. *)
Theorem setTemplateEnabled_miss_unchanged idKey v m :
  noTemplateWithKey idKey m → setTemplateEnabled idKey v m = m.
Proof.
  intros Hmiss. unfold setTemplateEnabled.
  by rewrite (find_key_none _ _ Hmiss).
Qed.

Lemma setTemplateEnabled_miss_unchanged_witness :
  noTemplateWithKey "99 Z" fullManager ∧
  setTemplateEnabled "99 Z" false fullManager = fullManager.
Proof.
  split; [exact fullManager_miss|].
  apply (setTemplateEnabled_miss_unchanged "99 Z" false fullManager
           fullManager_miss).
Defined.

(** C3 (the code departs from the specification).  A miss of
    [removeTemplate] is not a no-op: after a template was created and a
    tile composited, removing a key that no template has still bumps
    [cacheVersion], empties the merged-tile cache and writes to the
    store. *)
Lemma removeTemplate_miss_changes_state :
  ∃ out m,
    drawnManager = Some (out, m) ∧
    noTemplateWithKey "99 Z" m ∧
    cacheVersion m = 1 ∧
    cacheVersion (removeTemplate "99 Z" m) = 2 ∧
    mergedTileCache m !! "0000,0000|auto|full|v1" = Some out ∧
    mergedTileCache (removeTemplate "99 Z" m) !! "0000,0000|auto|full|v1"
    = None ∧
    length (gmWrites m) = 1%nat ∧
    length (gmWrites (removeTemplate "99 Z" m)) = 2%nat.
Proof.
  eexists _, _.
  split; [vm_compute; reflexivity|].
  split; [repeat constructor; vm_compute; discriminate|].
  repeat split; vm_compute; reflexivity.
Qed.

(** C3 (amended).  [removeTemplate] keeps exactly the templates whose key
    is not [idKey]; on every call, hit or miss, it bumps [cacheVersion]
    (by one below 2^53), empties the merged-tile cache and writes the
    JSON document to the store.  When some template had the key, the
    entry of [idKey] is gone from the templates of the JSON document
    (whose keys are distinct) and every other entry is as it was; on a
    miss the template array and the JSON document are unchanged. *)
Theorem removeTemplate_effects idKey m :
  templatesArray (removeTemplate idKey m)
  = filter (λ x, String.eqb (keyOf x) idKey = false) (templatesArray m) ∧
  noTemplateWithKey idKey (removeTemplate idKey m) ∧
  cacheVersion (removeTemplate idKey m) = JS.incr (cacheVersion m) ∧
  (cacheVersion m < 2 ^ 53 →
   cacheVersion (removeTemplate idKey m) = cacheVersion m + 1) ∧
  mergedTileCache (removeTemplate idKey m) = ∅ ∧
  gmWrites (removeTemplate idKey m)
  = templatesJSON (removeTemplate idKey m) :: gmWrites m ∧
  (someTemplateWithKey idKey m →
   (∀ k, k ≠ idKey →
      Obj.get (templatesOf (removeTemplate idKey m)) k
      = Obj.get (templatesOf m) k) ∧
   (NoDup (Obj.keys (templatesOf m)) →
    Obj.get (templatesOf (removeTemplate idKey m)) idKey = None)) ∧
  (noTemplateWithKey idKey m →
   templatesArray (removeTemplate idKey m) = templatesArray m ∧
   templatesJSON (removeTemplate idKey m) = templatesJSON m).
Proof.
  pose proof (removeTemplate_array idKey m) as Harr.
  assert (cacheVersion (removeTemplate idKey m) = JS.incr (cacheVersion m))
    as Hver.
  { unfold removeTemplate. repeat case_match; reflexivity. }
  split; [exact Harr|].
  split; [unfold noTemplateWithKey; rewrite Harr; apply filter_key_gone|].
  split; [exact Hver|].
  split; [intros Hlt; rewrite Hver; by apply incr_below|].
  split; [unfold removeTemplate; repeat case_match; reflexivity|].
  split; [unfold removeTemplate; repeat case_match; reflexivity|].
  split.
  - intros Hhit. apply filter_key_hit in Hhit.
    assert (templatesOf (removeTemplate idKey m)
            = Obj.remove (templatesOf m) idKey ∨
            (templatesOf (removeTemplate idKey m) = templatesOf m ∧
             Obj.get (templatesOf m) idKey = None)) as Hjson.
    { unfold removeTemplate, templatesOf.
      cbn [templatesArray set_templatesArray].
      destruct (Nat.eqb_spec (length (templatesArray m))
                  (length (filter (λ x, String.eqb (keyOf x) idKey = false)
                             (templatesArray m)))) as [Heq|_];
        [by rewrite Heq in Hhit|].
      cbn [negb templatesJSON set_templatesArray].
      destruct (templatesJSON m) as [json|] eqn:Hj.
      - destruct (Obj.get (templates json) idKey) eqn:Hget.
        + left. cbn. done.
        + right. cbn. rewrite Hj. done.
      - right. cbn. rewrite Hj. done. }
    destruct Hjson as [->|[-> Hnone]].
    + split; [intros k Hk; by apply get_remove_ne|apply get_remove_eq].
    + split; done.
  - intros Hmiss. split.
    + rewrite Harr. by apply filter_key_miss.
    + unfold removeTemplate. cbn [templatesArray set_templatesArray].
      rewrite (filter_key_miss _ _ Hmiss), Nat.eqb_refl. reflexivity.
Qed.

Lemma removeTemplate_effects_witness :
  someTemplateWithKey "0 A" createdManager ∧
  NoDup (Obj.keys (templatesOf createdManager)) ∧
  Obj.get (templatesOf createdManager) "0 A" ≠ None ∧
  templatesArray (removeTemplate "0 A" createdManager) = [] ∧
  Obj.get (templatesOf (removeTemplate "0 A" createdManager)) "0 A" = None ∧
  cacheVersion createdManager < 2 ^ 53 ∧
  cacheVersion (removeTemplate "0 A" createdManager)
  = cacheVersion createdManager + 1.
Proof.
  destruct (removeTemplate_effects "0 A" createdManager)
    as (Harr & _ & _ & Hbump & _ & _ & Hhit & _).
  assert (someTemplateWithKey "0 A" createdManager) as Hsome.
  { left. reflexivity. }
  assert (NoDup (Obj.keys (templatesOf createdManager))) as Hnd.
  { apply (bool_decide_unpack _). vm_compute. exact I. }
  assert (cacheVersion createdManager < 2 ^ 53) as Hlt by (vm_compute; done).
  split; [exact Hsome|]. split; [exact Hnd|].
  split; [vm_compute; discriminate|].
  split; [rewrite Harr; vm_compute; reflexivity|].
  split; [exact (proj2 (Hhit Hsome) Hnd)|].
  split; [exact Hlt|exact (Hbump Hlt)].
Defined.

(** C2. When the registry already holds [maxTemplates] templates,
    [createTemplate] ends at the capacity guard: the template array, the
    templates of the persisted JSON, [cacheVersion] and the merged-tile
    cache are unchanged and nothing is written to the store; a JSON
    document that exists is left as it is (a missing one is created empty
    before the guard). *)
Theorem createTemplate_full_rejected colorpalette encodeBase64PNG
    numberToEncoded formatNumber blob name coords autoColor m :
  maxTemplates m ≤ Z.of_nat (length (templatesArray m)) →
  ∃ m',
    createTemplate colorpalette encodeBase64PNG numberToEncoded
      formatNumber blob name coords autoColor m
    = Some (CapacityExceeded, m') ∧
    templatesArray m' = templatesArray m ∧
    length (templatesArray m') = length (templatesArray m) ∧
    templatesOf m' = templatesOf m ∧
    cacheVersion m' = cacheVersion m ∧
    mergedTileCache m' = mergedTileCache m ∧
    gmWrites m' = gmWrites m ∧
    (templatesJSON m ≠ None → templatesJSON m' = templatesJSON m).
Proof.
  intros Hfull. destruct coords as [[[c0 c1] c2] c3].
  unfold createTemplate.
  destruct (templatesJSON m) as [json|] eqn:Hjson.
  - cbn. destruct (Z.leb_spec (maxTemplates m)
                     (Z.of_nat (length (templatesArray m)))); [|lia].
    eexists. split; [reflexivity|]. unfold templatesOf. cbn.
    rewrite Hjson. done.
  - cbn. destruct (Z.leb_spec (maxTemplates m)
                     (Z.of_nat (length (templatesArray m)))); [|lia].
    eexists. split; [reflexivity|]. unfold templatesOf. cbn.
    rewrite Hjson. done.
Qed.

Lemma createTemplate_full_rejected_witness :
  maxTemplates fullManager ≤ Z.of_nat (length (templatesArray fullManager)) ∧
  ∃ m',
    createTemplate demoPalette demoEncode demoAuthor JS.toString
      opaquePixel "eleventh" (0, 0, 0, 0) false fullManager
    = Some (CapacityExceeded, m') ∧
    templatesArray m' = templatesArray fullManager ∧
    length (templatesArray m') = length (templatesArray fullManager) ∧
    templatesOf m' = templatesOf fullManager ∧
    cacheVersion m' = cacheVersion fullManager ∧
    mergedTileCache m' = mergedTileCache fullManager ∧
    gmWrites m' = gmWrites fullManager ∧
    (templatesJSON fullManager ≠ None →
     templatesJSON m' = templatesJSON fullManager).
Proof.
  assert (maxTemplates fullManager
          ≤ Z.of_nat (length (templatesArray fullManager))) as H
    by (vm_compute; discriminate).
  split; [exact H|].
  apply (createTemplate_full_rejected demoPalette demoEncode demoAuthor
           JS.toString opaquePixel "eleventh" (0, 0, 0, 0) false
           fullManager H).
Defined.

(* ===================================================================== *)
(** * Properties of the lazy colour-index reconstruction                  *)
(* ===================================================================== *)

(** The call on a template whose index container exists, for a key that
    is not empty: populated keys return at once. *)
Lemma ensureIndexMap_unfold colorpalette m t o key :
  String.eqb key EmptyString = false → colorIndexTiles t = Some o →
  ensureIndexMapForTemplateTile colorpalette m t key
  = match Obj.get o key with
    | Some _ => t
    | None =>
        ensureIndexMapForTemplateTile colorpalette m t key
    end.
Proof.
  intros Hkey Ht. destruct (Obj.get o key) eqn:Hget; [|done].
  unfold ensureIndexMapForTemplateTile.
  rewrite Hkey, Ht. cbn [from_option id]. rewrite Ht.
  cbn [from_option id]. by rewrite Hget.
Qed.

Lemma ensureIndexMap_normalise colorpalette m tpl key :
  ensureIndexMapForTemplateTile colorpalette m tpl key
  = ensureIndexMapForTemplateTile colorpalette m
      (match colorIndexTiles tpl with
       | Some _ => tpl
       | None =>
           if String.eqb key EmptyString then tpl
           else set_colorIndexTiles (Some []) tpl
       end) key.
Proof.
  destruct (colorIndexTiles tpl) eqn:Ht; [reflexivity|].
  destruct (String.eqb key EmptyString) eqn:Hkey; [reflexivity|].
  unfold ensureIndexMapForTemplateTile. rewrite Hkey, Ht. reflexivity.
Qed.

(** With the container present, the call either returns its argument or
    stores an entry under the key. *)
Lemma ensureIndexMap_result colorpalette m t o key :
  String.eqb key EmptyString = false → colorIndexTiles t = Some o →
  ensureIndexMapForTemplateTile colorpalette m t key = t ∨
  ∃ it, ensureIndexMapForTemplateTile colorpalette m t key
        = set_colorIndexTiles (Some (Obj.set o key it)) t.
Proof.
  intros Hkey Ht. unfold ensureIndexMapForTemplateTile.
  rewrite Hkey, Ht. cbn [from_option id]. rewrite Ht.
  cbn [from_option id].
  destruct (Obj.get o key); [by left|].
  destruct (chunked t ≫= _) as [bmp|]; [|by left].
  destruct ((bm_width bmp =? 0) || (bm_height bmp =? 0)); [by left|].
  right. eexists. reflexivity.
Qed.

(** C9. Rebuilding the index grid of a chunk is idempotent: once
    [colorIndexTiles[key]] is populated, a call for the same key returns
    the template unchanged, and a second call after any first call
    changes nothing. *)
Theorem ensureIndexMap_idempotent colorpalette m tpl key :
  (∀ it, (colorIndexTiles tpl ≫= λ o, Obj.get o key) = Some it →
         ensureIndexMapForTemplateTile colorpalette m tpl key = tpl) ∧
  ensureIndexMapForTemplateTile colorpalette m
    (ensureIndexMapForTemplateTile colorpalette m tpl key) key
  = ensureIndexMapForTemplateTile colorpalette m tpl key.
Proof.
  assert (∀ t o it, String.eqb key EmptyString = false →
            colorIndexTiles t = Some o → Obj.get o key = Some it →
            ensureIndexMapForTemplateTile colorpalette m t key = t)
    as Hdone.
  { intros t o it Hkey Ht Hit.
    rewrite (ensureIndexMap_unfold _ _ _ _ _ Hkey Ht). by rewrite Hit. }
  split.
  - intros it Hit.
    destruct (String.eqb key EmptyString) eqn:Hkey.
    { unfold ensureIndexMapForTemplateTile. by rewrite Hkey. }
    destruct (colorIndexTiles tpl) as [o|] eqn:Ho; [|done].
    cbn in Hit. by eapply Hdone.
  - destruct (String.eqb key EmptyString) eqn:Hkey.
    { unfold ensureIndexMapForTemplateTile. by rewrite !Hkey. }
    rewrite (ensureIndexMap_normalise _ _ tpl). rewrite Hkey.
    set (tpl1 := match colorIndexTiles tpl with
                 | Some _ => tpl
                 | None => set_colorIndexTiles (Some []) tpl
                 end).
    assert (∃ o, colorIndexTiles tpl1 = Some o) as [o Ho].
    { unfold tpl1. destruct (colorIndexTiles tpl) eqn:E; eauto. }
    destruct (ensureIndexMap_result colorpalette m tpl1 o key Hkey Ho)
      as [Hsame|[it Hset]].
    + by rewrite !Hsame.
    + rewrite Hset. eapply Hdone; [done|reflexivity|]. apply get_set_eq.
Qed.

Lemma ensureIndexMap_idempotent_witness :
  (colorIndexTiles populatedDot ≫= λ o, Obj.get o "0000,0000,000,000")
  = Some dotIndexTile ∧
  ensureIndexMapForTemplateTile demoPalette
    (newManager "Blue Marble" "0.82.1") populatedDot "0000,0000,000,000"
  = populatedDot ∧
  ensureIndexMapForTemplateTile demoPalette
    (newManager "Blue Marble" "0.82.1")
    (ensureIndexMapForTemplateTile demoPalette
       (newManager "Blue Marble" "0.82.1") importedDot "0000,0000,000,000")
    "0000,0000,000,000"
  = ensureIndexMapForTemplateTile demoPalette
      (newManager "Blue Marble" "0.82.1") importedDot "0000,0000,000,000".
Proof.
  assert ((colorIndexTiles populatedDot
             ≫= λ o, Obj.get o "0000,0000,000,000") = Some dotIndexTile)
    as Hpop by (vm_compute; reflexivity).
  split; [exact Hpop|]. split.
  - exact (proj1 (ensureIndexMap_idempotent demoPalette
                    (newManager "Blue Marble" "0.82.1") populatedDot
                    "0000,0000,000,000") dotIndexTile Hpop).
  - exact (proj2 (ensureIndexMap_idempotent demoPalette
                    (newManager "Blue Marble" "0.82.1") importedDot
                    "0000,0000,000,000")).
Defined.

(** The grid rebuilt from the masked chunk of one opaque pixel: one
    sample, the index of the nearest palette entry. *)
Example populatedDot_grid :
  colorIndexTiles populatedDot
  = Some [("0000,0000,000,000", dotIndexTile)] ∧
  colorIndexTiles importedDot = Some [].
Proof. split; vm_compute; reflexivity. Qed.

(* ===================================================================== *)
(** * Properties of the compositor                                        *)
(* ===================================================================== *)

Section CompositorFacts.

Lemma insertBySortID_elem x y l :
  y ∈ insertBySortID x l ↔ y = x ∨ y ∈ l.
Proof.
  induction l as [|z l IH]; cbn.
  - rewrite list_elem_of_singleton, elem_of_nil. tauto.
  - destruct (sortID x <=? sortID z).
    + rewrite !elem_of_cons. tauto.
    + rewrite !elem_of_cons, IH. tauto.
Qed.

(** Sorting keeps the templates it is given. *)
Lemma sortBySortID_elem y l : y ∈ sortBySortID l ↔ y ∈ l.
Proof.
  induction l as [|x l IH]; cbn; [done|].
  rewrite insertBySortID_elem, elem_of_cons, IH. tauto.
Qed.

Lemma updateZoomState_frame canvasZoom d m :
  let m1 := updateZoomState canvasZoom d m in
  templatesArray m1 = templatesArray m ∧
  templatesJSON m1 = templatesJSON m ∧
  maxTemplates m1 = maxTemplates m ∧
  autoColorLive m1 = autoColorLive m ∧
  zoomOpacity m1 = zoomOpacity m ∧
  gmWrites m1 = gmWrites m.
Proof.
  unfold updateZoomState. repeat case_match; cbn; done.
Qed.

(** The chunk chosen for a template: the first key of its active map
    on the tile, looked up in the masked map of the colour mode. *)
Lemma chunkForTile_spec autoColorLive tileCoords t td :
  chunkForTile autoColorLive tileCoords t = Some (Some td) →
  ∃ active tile,
    chunked t = Some active ∧ tile ∈ Obj.keys active ∧
    JS.startsWith tile tileCoords = true ∧
    td_bitmap td = Obj.get (drawnMap autoColorLive t active) tile.
Proof.
  unfold chunkForTile. destruct (chunked t) as [active|]; [|done].
  cbn [mbind option_bind]. intros [= Hhead].
  set (ks := filter _ (Obj.keys active)) in Hhead.
  destruct ks as [|tile ks'] eqn:Hks; [done|].
  cbn in Hhead. injection Hhead as <-.
  assert (tile ∈ filter (λ tile, JS.startsWith tile tileCoords = true)
                   (Obj.keys active)) as Hin.
  { fold ks. rewrite Hks. left. }
  apply list_elem_of_filter in Hin as [Hst Hin].
  exists active, tile. repeat split; try done.
Qed.

End CompositorFacts.

(** C1 (the code departs from the specification).  After one template
    was created on a fresh manager, the tile (0, 0) is composited in
    zoomed-out mode with live auto-colour: the bitmap drawn is the masked
    auto-coloured chunk, which differs from the full auto-coloured chunk
    that the specification selects. *)
Lemma zoomed_out_draws_masked_variant :
  ∃ m t call m',
    oneTemplateManager = Some (Created, m) ∧
    templatesArray m = [t] ∧
    autoColorLive m = true ∧
    drawTemplateOnTile JS.toString demoEnv (TileBlob []) (0, 0) m
    = Some (MergedBlob 3000 (TileBlob []) [call], m') ∧
    localIsZoomedOut (env_canvasZoomAtDraw demoEnv) m' = true ∧
    dc_bitmap call
    = (chunkedAuto t ≫= λ o, Obj.get o "0000,0000,000,000") ∧
    dc_bitmap call
    ≠ (specVariantMap true true t ≫= λ o, Obj.get o "0000,0000,000,000").
Proof.
  eexists _, _, _, _.
  split; [vm_compute; reflexivity|].
  split; [reflexivity|].
  split; [reflexivity|].
  split; [vm_compute; reflexivity|].
  split; [vm_compute; reflexivity|].
  split; [vm_compute; reflexivity|].
  vm_compute. discriminate.
Qed.

(* ===================================================================== *)
(** * The invariant of the registry                                       *)
(* ===================================================================== *)

Section InvariantFacts.

Variable colorpalette : list PaletteEntry.
Variable encodeBase64PNG : Bitmap → string.
Variable numberToEncoded : Z → string → string.
Variable formatNumber : Z → string.
Variable decodeBase64PNG : string → Bitmap.
Variable parseNumber : string → option Z.

Lemma createTemplate_inv blob name coords autoColor m outcome m' :
  registryInv m →
  createTemplate colorpalette encodeBase64PNG numberToEncoded
    formatNumber blob name coords autoColor m = Some (outcome, m') →
  registryInv m'.
Proof.
  intros [Hmax _]. destruct coords as [[[c0 c1] c2] c3].
  unfold createTemplate.
  set (m0 := match templatesJSON m with
             | Some _ => m
             | None => set_templatesJSON (Some (createJSON m)) m
             end).
  assert (maxTemplates m0 = 10 ∧ templatesJSON m0 ≠ None) as [Hm0 Hj0].
  { unfold m0. destruct (templatesJSON m) eqn:E; cbn; rewrite ?E; done. }
  cbn [handleDisplayStatus maxTemplates templatesArray set_overlayLog].
  case_match.
  - intros [= <- <-]. split; cbn; done.
  - destruct (nextSortIDFrom _ _ _) as [n|]; [|done].
    cbn [mbind option_bind].
    destruct (createTemplateTiles _ _ _) as [[t tiles]|]; [|done].
    cbn [mbind option_bind].
    destruct (templatesJSON m0) as [json|] eqn:Hjson; [|done].
    cbn. rewrite Hjson. cbn. intros [= <- <-]. split; cbn; done.
Qed.

Lemma parseBlueMarble_frame entries m :
  let m' := foldl (parseTemplateEntry decodeBase64PNG parseNumber) m
              entries in
  templatesJSON m' = templatesJSON m ∧ maxTemplates m' = maxTemplates m.
Proof.
  revert m. induction entries as [|e entries IH]; intros m; [done|].
  cbn [foldl]. destruct (IH (parseTemplateEntry decodeBase64PNG
                               parseNumber m e)) as [-> ->].
  destruct e as [k v]. unfold parseTemplateEntry.
  case_match; cbn; done.
Qed.

Lemma importJSON_inv json m :
  registryInv m →
  registryInv (importJSON decodeBase64PNG parseNumber json m).
Proof.
  intros [Hmax Hj]. unfold importJSON. case_match; [|done].
  unfold parseBlueMarble.
  destruct (parseBlueMarble_frame (templates json)
              (set_templatesJSON (Some json) m)) as [HJ HM].
  split; [by rewrite HM|]. by rewrite HJ.
Qed.

Lemma removeTemplate_inv idKey m :
  registryInv m → registryInv (removeTemplate idKey m).
Proof.
  intros [Hmax Hj]. split.
  - unfold removeTemplate. repeat case_match; done.
  - rewrite removeTemplate_array. intros Hne.
    assert (templatesArray m ≠ []) as Hm.
    { intros E. by rewrite E in Hne. }
    specialize (Hj Hm).
    unfold removeTemplate. repeat case_match; cbn; congruence.
Qed.

Lemma setEnabledFirst_nil idKey v l :
  setEnabledFirst idKey v l = [] → l = [].
Proof. destruct l; cbn; [done|]. by case_match. Qed.

Lemma setTemplateEnabled_inv idKey v m :
  registryInv m → registryInv (setTemplateEnabled idKey v m).
Proof.
  intros [Hmax Hj]. unfold setTemplateEnabled.
  case_match; [|done]. split.
  - repeat case_match; done.
  - intros Hne.
    assert (templatesArray m ≠ []) as Hm.
    { intros E. rewrite E in *. done. }
    specialize (Hj Hm).
    cbn. repeat case_match; cbn; congruence.
Qed.

Lemma drawTemplateOnTile_inv env tileBlob tileCoords m out m' :
  registryInv m →
  drawTemplateOnTile formatNumber env tileBlob tileCoords m
  = Some (out, m') →
  registryInv m'.
Proof.
  intros [Hmax Hj].
  destruct (updateZoomState_frame (env_canvasZoom env) NoDetail m)
    as (Ha & HJ & HM & _).
  unfold drawTemplateOnTile, registryInv.
  repeat case_match; intros [= <- <-]; cbn;
    rewrite ?Ha, ?HJ, ?HM; done.
Qed.

(** Every state of a manager satisfies the invariant. *)
Lemma reachable_inv m :
  reachable colorpalette encodeBase64PNG numberToEncoded formatNumber
    decodeBase64PNG parseNumber m →
  registryInv m.
Proof.
  induction 1.
  - split; done.
  - by eapply createTemplate_inv.
  - by apply importJSON_inv.
  - by apply removeTemplate_inv.
  - by apply setTemplateEnabled_inv.
  - by eapply drawTemplateOnTile_inv.
  - destruct IHreachable as [Hmax Hj].
    destruct (updateZoomState_frame canvasZoom d m)
      as (Ha & HJ & HM & _).
    split; [by rewrite HM|]. by rewrite Ha, HJ.
  - done.
  - done.
Qed.

(** In every state of a manager, a full registry has its JSON
    document, so the capacity guard leaves it exactly as it was. *)
Lemma reachable_full_keeps_json m blob name coords autoColor :
  reachable colorpalette encodeBase64PNG numberToEncoded formatNumber
    decodeBase64PNG parseNumber m →
  maxTemplates m ≤ Z.of_nat (length (templatesArray m)) →
  ∃ m',
    createTemplate colorpalette encodeBase64PNG numberToEncoded
      formatNumber blob name coords autoColor m
    = Some (CapacityExceeded, m') ∧
    templatesJSON m' = templatesJSON m.
Proof.
  intros Hreach Hfull.
  destruct (reachable_inv m Hreach) as [Hmax Hj].
  assert (templatesJSON m ≠ None) as Hjson.
  { apply Hj. intros E. rewrite E, Hmax in Hfull. cbn in Hfull. lia. }
  destruct coords as [[[c0 c1] c2] c3].
  unfold createTemplate.
  destruct (templatesJSON m) as [json|] eqn:E; [|done].
  cbn. destruct (Z.leb_spec (maxTemplates m)
                   (Z.of_nat (length (templatesArray m)))); [|lia].
  eexists. split; [reflexivity|]. cbn. done.
Qed.

End InvariantFacts.

(* ===================================================================== *)
(** * Further properties of the palette search                            *)
(* ===================================================================== *)

Section PaletteIndexFacts.

Variables (r g b : Z).

(** The two scans run in step: they hold the same distance, and the
    index scan points at the entry whose triple the other one holds. *)
Lemma palette_scans_joint pal :
  let ri := foldl (index_step r g b) (1, Infinity)
              (zip (seqZ 0 (Z.of_nat (length pal))) pal) in
  let rr := foldl (rgb_step r g b) (None, Infinity) pal in
  snd ri = snd rr ∧
  match fst rr with
  | None =>
      fst ri = 1 ∧ snd rr = Infinity ∧
      ∀ (j : nat) c p, pal !! j = Some c → ¬ searchable c p
  | Some p =>
      snd rr = Finite (sqdist r g b p) ∧
      ∃ c, 0 ≤ fst ri ∧ pal !! Z.to_nat (fst ri) = Some c ∧
           searchable c p ∧
           ∀ (j : nat) c' p', pal !! j = Some c' → searchable c' p' →
             sqdist r g b p ≤ sqdist r g b p' ∧
             ((j < Z.to_nat (fst ri))%nat →
              sqdist r g b p < sqdist r g b p')
  end.
Proof.
  induction pal as [|x pal IH] using rev_ind.
  { cbn. split; [done|]. split; [done|]. split; [done|]. intros j c p Hj.
    by rewrite lookup_nil in Hj. }
  cbn zeta in *.
  rewrite length_app, Nat2Z.inj_add. cbn [length].
  rewrite seqZ_app by lia.
  rewrite zip_with_app by (rewrite length_seqZ; lia).
  rewrite !foldl_app. cbn [seqZ zip_with foldl].
  change (seqZ (0 + Z.of_nat (length pal)) (Z.of_nat 1))
    with [0 + Z.of_nat (length pal)].
  cbn [zip_with foldl].
  destruct (foldl (index_step r g b) _ _) as [bi di].
  destruct (foldl (rgb_step r g b) _ pal) as [bp dp].
  cbn [fst snd] in IH. destruct IH as [-> IH].
  unfold index_step, rgb_step. cbn [fst snd].
  destruct (String.eqb (pe_name x) "Transparent") eqn:Hname.
  { cbn [fst snd]. split; [done|]. destruct bp as [p|].
    - destruct IH as (Hd & c & Hi & Hc & Hs & Hmin).
      split; [done|]. exists c.
      split; [done|]. split; [by apply lookup_app_l_Some|].
      split; [done|]. intros j c' p' Hj Hs'.
      apply lookup_app_Some in Hj as [Hj|[_ Hj]]; [by eapply Hmin|].
      apply list_lookup_singleton_Some in Hj as [_ <-].
      destruct Hs' as [Hn _]. congruence.
    - destruct IH as (Hi & Hd & Hno). split; [done|]. split; [done|].
      intros j c p Hj Hs.
      apply lookup_app_Some in Hj as [Hj|[_ Hj]]; [by eapply Hno|].
      apply list_lookup_singleton_Some in Hj as [_ <-].
      destruct Hs as [Hn _]. congruence. }
  destruct (pe_rgb x) as [px|] eqn:Hrgb.
  2:{ cbn [fst snd]. split; [done|]. destruct bp as [p|].
    - destruct IH as (Hd & c & Hi & Hc & Hs & Hmin).
      split; [done|]. exists c.
      split; [done|]. split; [by apply lookup_app_l_Some|].
      split; [done|]. intros j c' p' Hj Hs'.
      apply lookup_app_Some in Hj as [Hj|[_ Hj]]; [by eapply Hmin|].
      apply list_lookup_singleton_Some in Hj as [_ <-].
      destruct Hs' as [_ Hn]. congruence.
    - destruct IH as (Hi & Hd & Hno). split; [done|]. split; [done|].
      intros j c p Hj Hs.
      apply lookup_app_Some in Hj as [Hj|[_ Hj]]; [by eapply Hno|].
      apply list_lookup_singleton_Some in Hj as [_ <-].
      destruct Hs as [_ Hn]. congruence. }
  destruct (dist_lt (sqdist r g b px) dp) eqn:Hlt; cbn [fst snd].
  - split; [done|]. split; [done|]. exists x.
    rewrite Z.add_0_l, Nat2Z.id.
    split; [lia|]. split.
    { rewrite lookup_app_r by lia. by rewrite Nat.sub_diag. }
    split; [done|]. intros j c' p' Hj Hs'.
    apply lookup_app_Some in Hj as [Hj|[Hge Hj]].
    + destruct bp as [p|].
      * destruct IH as (-> & c & Hi & Hc & Hs & Hmin).
        destruct (Hmin j c' p' Hj Hs') as [Hle _].
        cbn in Hlt. apply Z.ltb_lt in Hlt. lia.
      * destruct IH as (_ & _ & Hno). by destruct (Hno j c' p' Hj).
    + apply list_lookup_singleton_Some in Hj as [Hj0 <-].
      destruct Hs' as [_ Hp]. rewrite Hrgb in Hp.
      injection Hp as <-. lia.
  - split; [done|]. destruct bp as [p|].
    + destruct IH as (-> & c & Hi & Hc & Hs & Hmin).
      split; [done|]. exists c.
      pose proof (lookup_lt_Some _ _ _ Hc) as Hlen.
      split; [done|]. split; [by apply lookup_app_l_Some|].
      split; [done|]. intros j c' p' Hj Hs'.
      apply lookup_app_Some in Hj as [Hj|[Hge Hj]]; [by eapply Hmin|].
      apply list_lookup_singleton_Some in Hj as [Hj0 <-].
      destruct Hs' as [_ Hp]. rewrite Hrgb in Hp.
      injection Hp as <-. cbn in Hlt. apply Z.ltb_ge in Hlt. lia.
    + destruct IH as (_ & -> & _). done.
Qed.

End PaletteIndexFacts.

(** X1. When some palette entry takes part in the scan,
    [nearestPaletteIndex] returns the position of the first such entry
    of least squared distance to the colour: no entry is nearer, and
    every earlier one is strictly farther. *)
Theorem nearestPaletteIndex_first_minimum pal r g b c0 p0 (j0 : nat) :
  pal !! j0 = Some c0 → searchable c0 p0 →
  first_minimum_at pal r g b (nearestPaletteIndex pal r g b).
Proof.
  intros Hj0 Hs0. unfold nearestPaletteIndex, first_minimum_at.
  pose proof (palette_scans_joint r g b pal) as [_ H]. cbn zeta in H.
  destruct (fst (foldl (rgb_step r g b) _ pal)) as [p|].
  - destruct H as (_ & c & Hi & Hc & Hs & Hmin). by exists c, p.
  - destruct H as (_ & _ & Hno). by destruct (Hno j0 c0 p0 Hj0).
Qed.

Lemma nearestPaletteIndex_first_minimum_witness :
  first_minimum_at gapPalette 250 10 10
    (nearestPaletteIndex gapPalette 250 10 10) ∧
  nearestPaletteIndex gapPalette 250 10 10 = 2.
Proof.
  split; [|reflexivity].
  apply (nearestPaletteIndex_first_minimum gapPalette 250 10 10
           {| pe_name := "White"; pe_rgb := Some (255, 255, 255) |}
           (255, 255, 255) 4).
  - reflexivity.
  - split; reflexivity.
Defined.

(** X2. The two palette scans agree: the entry at the index returned by
    [nearestPaletteIndex] is not the transparent one and carries the
    triple returned by [nearestPaletteRGB]; when no entry takes part in
    the scan the index is 1 and the triple is the colour itself. *)
Theorem nearestPaletteIndex_names_nearestPaletteRGB pal r g b :
  (∃ c, 0 ≤ nearestPaletteIndex pal r g b ∧
        pal !! Z.to_nat (nearestPaletteIndex pal r g b) = Some c ∧
        searchable c (nearestPaletteRGB pal r g b)) ∨
  ((∀ (j : nat) c p, pal !! j = Some c → ¬ searchable c p) ∧
   nearestPaletteIndex pal r g b = 1 ∧
   nearestPaletteRGB pal r g b = (r, g, b)).
Proof.
  unfold nearestPaletteIndex, nearestPaletteRGB.
  pose proof (palette_scans_joint r g b pal) as [_ H]. cbn zeta in H.
  destruct (fst (foldl (rgb_step r g b) _ pal)) as [p|].
  - left. destruct H as (_ & c & Hi & Hc & Hs & _). by exists c.
  - right. destruct H as (Hi & _ & Hno). done.
Qed.

(* ===================================================================== *)
(** * Further properties of the pixel classification                      *)
(* ===================================================================== *)

(** Reads of a typed array after writes, at known positions. *)
Ltac put_reads :=
  repeat first
    [ rewrite at_put_eq by (rewrite ?length_put, ?length_replicate; lia)
    | rewrite at_put_ne by lia ].

Section PixelLocality.

Variable colorpalette : list PaletteEntry.
Variables (w h : Z) (src : list Z).

(** What a pixel step leaves at its own pixel depends on the buffers
    only through what they held at that pixel. *)
Lemma pixelBody_view_cong x y bufs bufs' :
  0 ≤ x < w → 0 ≤ y < h →
  bufsSized w h bufs → bufsSized w h bufs' →
  pixelView w x y bufs = pixelView w x y bufs' →
  pixelView w x y (pixelBody colorpalette w src y x bufs)
  = pixelView w x y (pixelBody colorpalette w src y x bufs').
Proof.
  intros Hx Hy Hs Hs' Hv.
  pose proof (linear_index_bound w h x y Hx Hy) as Hlin.
  destruct bufs as [[orig mapped] idxMap].
  destruct bufs' as [[orig' mapped'] idxMap'].
  destruct Hs as (Ho & Hm & Hi). destruct Hs' as (Ho' & Hm' & Hi').
  unfold pixelView in Hv.
  injection Hv as Ho0 Ho1 Ho2 Ho3 Hm0 Hm1 Hm2 Hm3 Hidx.
  unfold pixelBody, pixelView.
  destruct ((_ =? 222) && _ && _).
  - destruct (Z.rem (x + y) 2 =? 0); put_reads; congruence.
  - destruct (negb _).
    + destruct (nearestPaletteRGB _ _ _ _) as [[nr ng] nb].
      put_reads; congruence.
    + put_reads; congruence.
Qed.

Lemma row_fold_local x y l bufs :
  0 ≤ x < w → 0 ≤ y < h → bufsSized w h bufs →
  Forall (λ x', 0 ≤ x' < w) l → NoDup l → x ∈ l →
  pixelView w x y
    (foldl (λ acc i, pixelBody colorpalette w src y i acc) bufs l)
  = pixelView w x y (pixelBody colorpalette w src y x bufs).
Proof.
  intros Hx Hy Hsz Hl Hnd Hin. revert bufs Hsz.
  induction Hl as [|a l Ha Hl IH]; intros bufs Hsz.
  { inversion Hin. }
  apply NoDup_cons in Hnd as [Hnotin Hnd]. cbn [foldl].
  apply elem_of_cons in Hin as [<-|Hin].
  - by rewrite row_fold_frame by (try done; by right).
  - rewrite IH by (try done; by apply pixelBody_sized).
    apply pixelBody_view_cong; try done.
    + by apply pixelBody_sized.
    + apply pixelBody_frame; [done..|]. intros [= Heq]. congruence.
Qed.

Lemma rows_fold_local x y ly bufs :
  0 ≤ x < w → 0 ≤ y < h → bufsSized w h bufs →
  NoDup ly → y ∈ ly →
  pixelView w x y
    (foldl (λ acc y, JS.forRange w (pixelBody colorpalette w src y) acc)
       bufs ly)
  = pixelView w x y (pixelBody colorpalette w src y x bufs).
Proof.
  intros Hx Hy Hsz Hnd Hin. revert bufs Hsz.
  induction ly as [|a ly IH]; intros bufs Hsz.
  { inversion Hin. }
  apply NoDup_cons in Hnd as [Hnotin Hnd]. cbn [foldl].
  apply elem_of_cons in Hin as [<-|Hin].
  - rewrite rows_fold_frame by done. unfold JS.forRange.
    apply (row_fold_local x y); try done.
    + apply seqZ_in_range.
    + apply NoDup_seqZ.
    + apply elem_of_seqZ. lia.
  - rewrite IH;
      [|done..|unfold JS.forRange; by apply row_fold_sized].
    apply pixelBody_view_cong; try done.
    + unfold JS.forRange. by apply row_fold_sized.
    + unfold JS.forRange.
      apply row_fold_frame; [done|apply seqZ_in_range|].
      left. congruence.
Qed.

(** The classification is local: what the loops leave at a pixel is
    what the step of that pixel writes over the initial buffers. *)
Lemma classifyRegion_local x y :
  length src = Z.to_nat (4 * (w * h)) →
  0 ≤ x < w → 0 ≤ y < h →
  pixelView w x y (classifyRegion colorpalette w h src)
  = pixelView w x y
      (pixelBody colorpalette w src y x
         (src, src, replicate (Z.to_nat (w * h)) 0)).
Proof.
  intros Hlen Hx Hy. unfold classifyRegion. unfold JS.forRange at 1.
  apply rows_fold_local; try done.
  - repeat split; try done. by rewrite length_replicate.
  - apply NoDup_seqZ.
  - apply elem_of_seqZ. lia.
Qed.

(** The step of a pixel that is opaque and not the sentinel. *)
Lemma pixelBody_opaque x y r g b a :
  length src = Z.to_nat (4 * (w * h)) →
  0 ≤ x < w → 0 ≤ y < h →
  srcPixel w src x y = [Some r; Some g; Some b; Some a] →
  isSentinel r g b = false → a ≠ 0 →
  pixelView w x y
    (pixelBody colorpalette w src y x
       (src, src, replicate (Z.to_nat (w * h)) 0))
  = ([Some (JS.clamp8 r); Some (JS.clamp8 g); Some (JS.clamp8 b);
      Some 255],
     [Some (JS.clamp8 (nearestPaletteRGB colorpalette r g b).1.1);
      Some (JS.clamp8 (nearestPaletteRGB colorpalette r g b).1.2);
      Some (JS.clamp8 (nearestPaletteRGB colorpalette r g b).2);
      Some 255],
     Some (JS.wrap8 (nearestPaletteIndex colorpalette r g b))).
Proof.
  intros Hlen Hx Hy Hpx Hsent Ha.
  pose proof (linear_index_bound w h x y Hx Hy) as Hlin.
  unfold srcPixel in Hpx. injection Hpx as Hr Hg Hb Haa.
  unfold pixelBody, JS.get0. rewrite Hr, Hg, Hb, Haa. cbn [from_option id].
  unfold isSentinel in Hsent. rewrite Hsent.
  destruct (Z.eqb_spec a 0) as [|_]; [done|]. cbn [negb].
  destruct (nearestPaletteRGB colorpalette r g b) as [[nr ng] nb].
  unfold pixelView. cbn [fst snd]. put_reads. done.
Qed.

(** The step of a pixel of alpha 0 that is not the sentinel. *)
Lemma pixelBody_transparent x y r g b :
  length src = Z.to_nat (4 * (w * h)) →
  0 ≤ x < w → 0 ≤ y < h →
  srcPixel w src x y = [Some r; Some g; Some b; Some 0] →
  isSentinel r g b = false →
  pixelView w x y
    (pixelBody colorpalette w src y x
       (src, src, replicate (Z.to_nat (w * h)) 0))
  = ([Some r; Some g; Some b; Some 0],
     [Some r; Some g; Some b; Some 0], Some 0).
Proof.
  intros Hlen Hx Hy Hpx Hsent.
  pose proof (linear_index_bound w h x y Hx Hy) as Hlin.
  unfold srcPixel in Hpx. injection Hpx as Hr Hg Hb Haa.
  unfold pixelBody, JS.get0. rewrite Hr, Hg, Hb, Haa. cbn [from_option id].
  unfold isSentinel in Hsent. rewrite Hsent. cbn [Z.eqb negb].
  unfold pixelView. put_reads. by rewrite Hr, Hg, Hb, Haa.
Qed.

End PixelLocality.

(** X3. In the buffers of a [w] x [h] region, a pixel whose source alpha
    is not 0 and whose colour is not the sentinel is made fully opaque:
    the original buffer keeps its colour with alpha 255, the mapped
    buffer holds the nearest palette colour with alpha 255, and the
    index grid holds the nearest palette index as an unsigned byte. *)
Theorem opaque_pixel_outcome colorpalette w h src x y r g b a :
  length src = Z.to_nat (4 * (w * h)) →
  0 ≤ x < w → 0 ≤ y < h →
  srcPixel w src x y = [Some r; Some g; Some b; Some a] →
  isSentinel r g b = false → a ≠ 0 →
  pixelView w x y (classifyRegion colorpalette w h src)
  = ([Some (JS.clamp8 r); Some (JS.clamp8 g); Some (JS.clamp8 b);
      Some 255],
     [Some (JS.clamp8 (nearestPaletteRGB colorpalette r g b).1.1);
      Some (JS.clamp8 (nearestPaletteRGB colorpalette r g b).1.2);
      Some (JS.clamp8 (nearestPaletteRGB colorpalette r g b).2);
      Some 255],
     Some (JS.wrap8 (nearestPaletteIndex colorpalette r g b))).
Proof.
  intros Hlen Hx Hy Hpx Hsent Ha.
  rewrite classifyRegion_local by done.
  by eapply pixelBody_opaque.
Qed.

Lemma opaque_pixel_outcome_witness :
  pixelView 2 0 0 (classifyRegion gapPalette 2 1 mixedPair)
  = ([Some 250; Some 10; Some 10; Some 255],
     [Some 255; Some 0; Some 0; Some 255], Some 2).
Proof.
  apply (opaque_pixel_outcome gapPalette 2 1 mixedPair 0 0 250 10 10 7);
    try reflexivity; lia.
Defined.

(** X4. A pixel of source alpha 0 that is not the sentinel is left as it
    is in the original and in the mapped buffer, colour bytes included,
    and its entry of the index grid is 0. *)
Theorem transparent_pixel_outcome colorpalette w h src x y r g b :
  length src = Z.to_nat (4 * (w * h)) →
  0 ≤ x < w → 0 ≤ y < h →
  srcPixel w src x y = [Some r; Some g; Some b; Some 0] →
  isSentinel r g b = false →
  pixelView w x y (classifyRegion colorpalette w h src)
  = ([Some r; Some g; Some b; Some 0],
     [Some r; Some g; Some b; Some 0], Some 0).
Proof.
  intros Hlen Hx Hy Hpx Hsent.
  rewrite classifyRegion_local by done.
  by eapply pixelBody_transparent.
Qed.

Lemma transparent_pixel_outcome_witness :
  pixelView 2 1 0 (classifyRegion gapPalette 2 1 mixedPair)
  = ([Some 40; Some 50; Some 60; Some 0],
     [Some 40; Some 50; Some 60; Some 0], Some 0).
Proof.
  apply (transparent_pixel_outcome gapPalette 2 1 mixedPair 1 0 40 50 60);
    try reflexivity; lia.
Defined.

(* ===================================================================== *)
(** * Further properties of slicing                                       *)
(* ===================================================================== *)

Lemma srcPixel_crop bm sx sy w h x y :
  0 ≤ x < w → 0 ≤ y < h →
  srcPixel w (cropImageData bm sx sy w h) x y
  = [pixelAt bm (sx + x) (sy + y) !! 0%nat;
     pixelAt bm (sx + x) (sy + y) !! 1%nat;
     pixelAt bm (sx + x) (sy + y) !! 2%nat;
     pixelAt bm (sx + x) (sy + y) !! 3%nat].
Proof.
  intros Hx Hy. unfold srcPixel.
  rewrite <- (Z.add_0_r ((y * w + x) * 4)) at 1.
  rewrite (cropImageData_lookup _ _ _ _ _ _ _ 0) by (done || lia).
  rewrite (cropImageData_lookup _ _ _ _ _ _ _ 1) by (done || lia).
  rewrite (cropImageData_lookup _ _ _ _ _ _ _ 2) by (done || lia).
  rewrite (cropImageData_lookup _ _ _ _ _ _ _ 3) by (done || lia).
  done.
Qed.

(** X5. After [createTemplateTiles], every pixel of the image that is
    opaque and not the sentinel is recorded in the live colour grid of
    the template: the grid stored under the key of the region over the
    pixel holds, at the pixel's place, the nearest palette index of its
    colour as an unsigned byte. *)
Theorem createTemplateTiles_indexes_opaque_pixels
    colorpalette encodeBase64PNG t bitmap c0 c1 c2 c3 i j r g b a :
  file t = Some bitmap → coords t = Some (c0, c1, c2, c3) →
  0 < tileSize t →
  0 ≤ i < bm_width bitmap → 0 ≤ j < bm_height bitmap →
  pixelAt bitmap i j = [r; g; b; a] →
  isSentinel r g b = false → a ≠ 0 →
  ∃ t' tiles px py it,
    createTemplateTiles colorpalette encodeBase64PNG t = Some (t', tiles) ∧
    colorIndexTiles t'
      ≫= (λ o, Obj.get o (templateTileName c0 c1 px py)) = Some it ∧
    px - c2 ≤ i < px - c2 + it_w it ∧
    py - c3 ≤ j < py - c3 + it_h it ∧
    JS.at_ (it_data it) ((j - (py - c3)) * it_w it + (i - (px - c2)))
    = Some (JS.wrap8 (nearestPaletteIndex colorpalette r g b)).
Proof.
  intros Hf Hc Hts Hi Hj Hpx Hsent Ha.
  destruct (sliceRegions_total colorpalette _ _ _ Hf Hc Hts) as [rs Hrs].
  unfold createTemplateTiles. rewrite Hf, Hrs. cbn [mbind option_bind].
  rewrite (sliceRegions_unfold _ _ _ _ Hf Hc) in Hrs by lia.
  cbn [snd] in Hrs.
  pose proof (loopY_count _ _ _ _ _ _ _ Hts _ _ _ i j (Z.le_refl c3) Hrs)
    as Hcount.
  replace ((0 <=? i) && (i <? bm_width bitmap) && (c3 - c3 <=? j) &&
           (j <? bm_height bitmap)) with true in Hcount
    by (symmetry; cases_Zb; cbn; try done; lia).
  apply coverCount_one_elem in Hcount as (rg & Hrg & Hcov).
  pose proof (loopY_regionOK _ _ _ _ _ _ _ Hts _ _ _ Hrs) as Hok.
  rewrite Forall_forall in Hok.
  destruct (Hok rg Hrg) as ((Hkey & _ & _ & Hw & _ & Hh & _) & _).
  pose proof (loopY_made _ _ _ _ _ _ _ _ _ _ Hrs) as Hmade.
  rewrite Forall_forall in Hmade. specialize (Hmade rg Hrg).
  pose proof (loopY_keys_NoDup _ _ _ _ _ _ _ Hts _ _ _ Hrs) as Hnd.
  unfold covers in Hcov.
  apply andb_true_iff in Hcov as [Hcov Hc4].
  apply andb_true_iff in Hcov as [Hcov Hc3].
  apply andb_true_iff in Hcov as [Hc1 Hc2].
  apply Z.leb_le in Hc1, Hc3. apply Z.ltb_lt in Hc2, Hc4.
  eexists _, _, (rg_pixelX rg), (rg_pixelY rg),
    {| it_w := rg_w rg; it_h := rg_h rg; it_data := rg_idx rg |}.
  split; [reflexivity|].
  cbn [fst snd] in Hkey. cbn [colorIndexTiles set_colorIndexTiles
    mbind option_bind it_w it_h it_data].
  split.
  { rewrite <- Hkey.
    by rewrite (storeAll_get
      (λ r, {| it_w := rg_w r; it_h := rg_h r; it_data := rg_idx r |})). }
  split; [lia|]. split; [lia|].
  set (x := i - (rg_pixelX rg - c2)). set (y := j - (rg_pixelY rg - c3)).
  pose proof (makeRegion_classified colorpalette bitmap (c0, c1, c2, c3)
                (rg_pixelX rg) (rg_pixelY rg) (rg_w rg) (rg_h rg)) as Hcl.
  cbn zeta in Hcl. rewrite <- Hmade in Hcl. cbn [fst snd] in Hcl.
  assert (pixelView (rg_w rg) x y (rg_orig rg, rg_mapped rg, rg_idx rg)
          = pixelView (rg_w rg) x y
              (pixelBody colorpalette (rg_w rg)
                 (cropImageData bitmap (rg_pixelX rg - c2)
                    (rg_pixelY rg - c3) (rg_w rg) (rg_h rg)) y x
                 (cropImageData bitmap (rg_pixelX rg - c2)
                    (rg_pixelY rg - c3) (rg_w rg) (rg_h rg),
                  cropImageData bitmap (rg_pixelX rg - c2)
                    (rg_pixelY rg - c3) (rg_w rg) (rg_h rg),
                  replicate (Z.to_nat (rg_w rg * rg_h rg)) 0))) as Hview.
  { rewrite Hcl. apply classifyRegion_local; [|lia..].
    apply cropImageData_length; lia. }
  rewrite (pixelBody_opaque colorpalette (rg_w rg) (rg_h rg) _ x y r g b a)
    in Hview; [| apply cropImageData_length; lia | lia | lia | | done..].
  - unfold pixelView in Hview. by injection Hview.
  - rewrite srcPixel_crop by lia.
    replace (rg_pixelX rg - c2 + x) with i by lia.
    replace (rg_pixelY rg - c3 + y) with j by lia.
    by rewrite Hpx.
Qed.

Lemma createTemplateTiles_indexes_opaque_pixels_witness :
  ∃ t' tiles px py it,
    createTemplateTiles gapPalette demoEncode boundaryTemplate
    = Some (t', tiles) ∧
    colorIndexTiles t'
      ≫= (λ o, Obj.get o (templateTileName 1 2 px py)) = Some it ∧
    px - 999 ≤ 1 < px - 999 + it_w it ∧
    py - 0 ≤ 0 < py - 0 + it_h it ∧
    JS.at_ (it_data it) ((0 - (py - 0)) * it_w it + (1 - (px - 999)))
    = Some (JS.wrap8 (nearestPaletteIndex gapPalette 10 10 10)).
Proof.
  apply (createTemplateTiles_indexes_opaque_pixels gapPalette demoEncode
           boundaryTemplate twoPixels 1 2 999 0 1 0 10 10 10 7);
    first [reflexivity | cbn; lia].
Defined.

(* ===================================================================== *)
(** * Further properties of the tile keys                                 *)
(* ===================================================================== *)

Section KeyStringFacts.

Lemma str_app_assoc (s t u : string) :
  ((s +:+ t) +:+ u = s +:+ (t +:+ u))%string.
Proof.
  induction s as [|c s IH]; [by rewrite !app_empty|].
  by rewrite !app_cons, IH.
Qed.

Lemma str_app_nil_r (s : string) : (s +:+ EmptyString)%string = s.
Proof.
  induction s as [|c s IH]; [done|]. by rewrite app_cons, IH.
Qed.

Lemma str_length_app (s t : string) :
  String.length (s +:+ t) = (String.length s + String.length t)%nat.
Proof.
  induction s as [|c s IH]; [by rewrite app_empty|].
  rewrite app_cons. cbn. by rewrite IH.
Qed.

Lemma str_app_length_inj (s1 s2 r1 r2 : string) :
  String.length s1 = String.length s2 →
  (s1 +:+ r1 = s2 +:+ r2)%string → s1 = s2 ∧ r1 = r2.
Proof.
  revert s2. induction s1 as [|c s1 IH]; intros [|c2 s2] Hlen; try done.
  rewrite !app_cons. intros [= -> Heq].
  injection Hlen as Hlen. destruct (IH s2 Hlen Heq) as [-> ->]. done.
Qed.

Lemma rev_app_spec (s acc : string) :
  String.rev_app s acc = (String.rev s +:+ acc)%string.
Proof.
  unfold String.rev. revert acc.
  induction s as [|c s IH]; intros acc; [by rewrite app_empty|].
  cbn [String.rev_app]. rewrite (IH (String c acc)).
  rewrite (IH (String c EmptyString)).
  by rewrite str_app_assoc, app_cons, app_empty.
Qed.

Lemma str_prefix_app (p r : string) : String.prefix p (p +:+ r) = true.
Proof.
  induction p as [|c p IH]; [by destruct r|].
  rewrite app_cons. cbn. by destruct (ascii_dec c c).
Qed.

Lemma str_prefix_split (p s : string) :
  String.prefix p s = true → ∃ r, s = (p +:+ r)%string.
Proof.
  revert s. induction p as [|c p IH]; intros s Hp.
  { exists s. by rewrite app_empty. }
  destruct s as [|c' s]; [done|]. cbn in Hp.
  destruct (ascii_dec c c') as [<-|]; [|done].
  destruct (IH s Hp) as [r ->]. exists r. by rewrite app_cons.
Qed.

(** [split(',')] cuts at the first comma after a field without one. *)
Lemma split_go_field (cur s r : string) :
  all_chars not_comma s →
  JS.split_go ","%char cur (s +:+ String ","%char r)
  = (String.rev cur +:+ s)%string
    :: JS.split_go ","%char EmptyString r.
Proof.
  revert cur. induction s as [|c s IH]; intros cur Hs.
  - rewrite app_empty. cbn. by rewrite str_app_nil_r.
  - destruct Hs as [Hc Hs]. rewrite app_cons. cbn [JS.split_go].
    destruct (Ascii.eqb_spec c ","%char) as [->|_]; [done|].
    rewrite IH by done. f_equal. unfold String.rev at 1.
    cbn [String.rev_app]. rewrite rev_app_spec.
    by rewrite str_app_assoc, app_cons, app_empty.
Qed.

Lemma split_go_last (cur s : string) :
  all_chars not_comma s →
  JS.split_go ","%char cur s = [(String.rev cur +:+ s)%string].
Proof.
  revert cur. induction s as [|c s IH]; intros cur Hs.
  - cbn. by rewrite str_app_nil_r.
  - destruct Hs as [Hc Hs]. cbn [JS.split_go].
    destruct (Ascii.eqb_spec c ","%char) as [->|_]; [done|].
    rewrite IH by done. f_equal. unfold String.rev at 1.
    cbn [String.rev_app]. rewrite rev_app_spec.
    by rewrite str_app_assoc, app_cons, app_empty.
Qed.

(** A number below [10 ^ k] prints in at most [k] characters. *)
Lemma pretty_N_go_length (k : nat) (x : N) (s : string) :
  (x < 10 ^ N.of_nat k)%N →
  (String.length (pretty_N_go x s) ≤ String.length s + k)%nat.
Proof.
  revert x s. induction k as [|k IH]; intros x s Hx.
  - assert (x = 0%N) as -> by (cbn in Hx; lia).
    rewrite pretty_N_go_0. lia.
  - assert (x = 0 ∨ 0 < x)%N as [->|Hpos] by lia.
    { rewrite pretty_N_go_0. lia. }
    rewrite pretty_N_go_step by done.
    etransitivity; [apply IH|cbn; lia].
    rewrite Nat2N.inj_succ, N.pow_succ_r' in Hx.
    apply N.Div0.div_lt_upper_bound. lia.
Qed.

Lemma toString_length (k : nat) (z : Z) :
  (1 ≤ k)%nat → 0 ≤ z < 10 ^ Z.of_nat k →
  (String.length (JS.toString z) ≤ k)%nat.
Proof.
  intros Hk Hz. unfold JS.toString, pretty, pretty_Z.
  destruct z as [|p|p]; [cbn; lia| |lia].
  change (String.length (pretty (N.pos p)) ≤ k)%nat.
  unfold pretty, pretty_N. case_decide; [cbn; lia|].
  etransitivity; [apply (pretty_N_go_length k)|cbn; lia].
  assert (Z.of_N (N.pos p) < Z.of_N (10 ^ N.of_nat k)); [|lia].
  rewrite N2Z.inj_pow, nat_N_Z. cbn. lia.
Qed.

Lemma repeat0_length (n : nat) : String.length (JS.repeat0 n) = n.
Proof. induction n as [|n IH]; [done|]. cbn. by rewrite IH. Qed.

Lemma padStart0_length (n : nat) (s : string) :
  String.length (JS.padStart0 n s) = (n `max` String.length s)%nat.
Proof.
  unfold JS.padStart0. rewrite str_length_app, repeat0_length. lia.
Qed.

(** A tile number of the map prints, padded, in four characters. *)
Lemma pad4_length (z : Z) :
  0 ≤ z ≤ 9999 →
  String.length (JS.padStart0 4 (JS.toString z)) = 4%nat.
Proof.
  intros Hz. rewrite padStart0_length.
  pose proof (toString_length 4 z ltac:(lia) ltac:(cbn; lia)). lia.
Qed.

End KeyStringFacts.

(** X6. For tile numbers of at most four digits, the prefix test of the
    compositor selects the chunks of the tile and no others: the key of
    a region starts with the text of the tile coordinates exactly when
    the region was filed under that tile. *)
Theorem chunk_prefix_selects_tile c0 c1 pixelX pixelY tx ty :
  0 ≤ tx ≤ 9999 → 0 ≤ ty ≤ 9999 →
  0 ≤ c0 + pixelX / 1000 ≤ 9999 → 0 ≤ c1 + pixelY / 1000 ≤ 9999 →
  JS.startsWith (templateTileName c0 c1 pixelX pixelY)
    (tileCoordsText (tx, ty)) = true
  ↔ tx = c0 + pixelX / 1000 ∧ ty = c1 + pixelY / 1000.
Proof.
  intros Htx Hty Hkx Hky.
  unfold JS.startsWith, templateTileName, tileCoordsText. cbn [fst snd].
  rewrite !comma_app. split.
  - intros Hp. apply str_prefix_split in Hp as [rest Hp].
    rewrite str_app_assoc, app_cons in Hp.
    apply padded_number_inj in Hp as [Hx Hp].
    apply str_app_length_inj in Hp as [Hy _];
      [|by rewrite !pad4_length].
    apply padStart0_inj in Hy; [|apply toString_canonical..].
    apply toString_inj in Hy. done.
  - intros [-> ->].
    match goal with
    | |- String.prefix ?p (?a +:+ String ?c (?b +:+ ?rest))%string = true =>
        replace (a +:+ String c (b +:+ rest))%string
          with (p +:+ rest)%string
          by (by rewrite str_app_assoc, app_cons)
    end.
    apply str_prefix_app.
Qed.

Lemma chunk_prefix_selects_tile_witness :
  JS.startsWith (templateTileName 1 2 1999 3005) (tileCoordsText (2, 5))
  = true
  ↔ 2 = 1 + 1999 / 1000 ∧ 5 = 2 + 3005 / 1000.
Proof.
  apply (chunk_prefix_selects_tile 1 2 1999 3005 2 5);
    split; by vm_compute.
Defined.

(** X7. Splitting a tile key at its commas gives back its four fields:
    the two padded tile numbers and the two padded pixel offsets, which
    is how the compositor and the colour picker read a key. *)
Theorem tile_key_splits_into_fields c0 c1 pixelX pixelY :
  JS.splitComma (templateTileName c0 c1 pixelX pixelY)
  = [ JS.padStart0 4 (JS.toString (c0 + pixelX / 1000));
      JS.padStart0 4 (JS.toString (c1 + pixelY / 1000));
      JS.padStart0 3 (JS.toString (Z.rem pixelX 1000));
      JS.padStart0 3 (JS.toString (Z.rem pixelY 1000)) ].
Proof.
  unfold JS.splitComma, templateTileName. rewrite !comma_app.
  rewrite !split_go_field, split_go_last
    by (apply padStart0_not_comma, toString_not_comma).
  done.
Qed.

(* ===================================================================== *)
(** * Further properties of the registry                                  *)
(* ===================================================================== *)

(** The search for a free sort ID ends within its fuel, on the least
    number from [n] on that is not in use. *)
Lemma nextSortIDFrom_spec fuel used n :
  0 ≤ n → (∀ k, 0 ≤ k < n → k ∈ used) →
  (length used ≤ Z.to_nat n + fuel)%nat →
  ∃ r, nextSortIDFrom fuel used n = Some r ∧ n ≤ r ∧ (r ∉ used) ∧
       ∀ k, 0 ≤ k < r → k ∈ used.
Proof.
  revert n. induction fuel as [|fuel IH]; intros n Hn Hall Hlen;
    cbn [nextSortIDFrom]; case_bool_decide as Hin.
  - exfalso.
    assert (seqZ 0 (n + 1) ⊆+ used) as Hsub.
    { apply NoDup_submseteq; [apply NoDup_seqZ|]. intros k Hk.
      apply elem_of_seqZ in Hk.
      destruct (decide (k = n)) as [->|]; [done|apply Hall; lia]. }
    apply submseteq_length in Hsub. rewrite length_seqZ in Hsub. lia.
  - exists n. repeat split; first [done | lia].
  - destruct (IH (n + 1)) as (r & Hr & Hle & Hnot & Hbelow); [lia| |lia|].
    { intros k Hk. destruct (decide (k = n)) as [->|]; [done|].
      apply Hall. lia. }
    exists r. repeat split; first [done | lia].
  - exists n. repeat split; first [done | lia].
Qed.

Lemma toString_nonempty z : JS.toString z ≠ EmptyString.
Proof. by destruct (toString_canonical z). Qed.

Lemma toString_app_nonempty z s :
  String.eqb (JS.toString z +:+ s) EmptyString = false.
Proof.
  apply String.eqb_neq. pose proof (toString_nonempty z) as Hne.
  destruct (JS.toString z); [done|]. by rewrite app_cons.
Qed.

(** X8. Below its capacity, [createTemplate] always completes and
    appends one template: enabled, with the least sort ID that no loaded
    template uses, with a key made of that ID and the author; the
    persisted document receives an enabled entry under that key, the
    tile cache is invalidated and the document is written to storage. *)
Theorem createTemplate_below_capacity
    colorpalette encodeBase64PNG numberToEncoded formatNumber
    blob name coords autoColor m :
  Z.of_nat (length (templatesArray m)) < maxTemplates m →
  ∃ t m' entry,
    createTemplate colorpalette encodeBase64PNG numberToEncoded
      formatNumber blob name coords autoColor m = Some (Created, m') ∧
    appendedTemplate name m t m' entry.
Proof.
  intros Hcap. destruct coords as [[[c0 c1] c2] c3].
  unfold createTemplate.
  set (m0 := match templatesJSON m with
             | Some _ => m
             | None => set_templatesJSON (Some (createJSON m)) m
             end).
  assert (maxTemplates m0 = maxTemplates m ∧
          templatesArray m0 = templatesArray m ∧
          cacheVersion m0 = cacheVersion m ∧ gmWrites m0 = gmWrites m ∧
          userID m0 = userID m ∧ encodingBase m0 = encodingBase m ∧
          templatesJSON m0 ≠ None) as (Hm0 & Ha0 & Hv0 & Hw0 & Hu0 & He0 & Hj0).
  { unfold m0. destruct (templatesJSON m) eqn:E; cbn; rewrite ?E; done. }
  cbn [handleDisplayStatus maxTemplates templatesArray set_overlayLog
       userID encodingBase autoColorLive templatesJSON].
  rewrite Hm0, Ha0.
  destruct (Z.leb_spec (maxTemplates m)
              (Z.of_nat (length (templatesArray m)))); [lia|].
  destruct (nextSortIDFrom_spec (length (sortID <$> templatesArray m))
              (sortID <$> templatesArray m) 0)
    as (n & Hn & Hn0 & Hfresh & Hleast); [lia|intros; lia|lia|].
  rewrite Hn. cbn [mbind option_bind].
  set (tpl := set_idKey _ _).
  destruct (sliceRegions_total colorpalette tpl blob (c0, c1, c2, c3))
    as [rs Hrs]; [done|done|done|].
  unfold createTemplateTiles. cbn [file tpl set_idKey newTemplate].
  fold tpl. rewrite Hrs. cbn [mbind option_bind].
  destruct (templatesJSON m0) as [json|] eqn:Hjson; [|done].
  cbn [mbind option_bind].
  eexists _, _, _. split; [reflexivity|]. unfold appendedTemplate.
  subst tpl. cbn [templatesArray storeTemplates invalidateCache
    handleDisplayStatus set_gmWrites set_mergedTileCache set_cacheVersion
    set_overlayLog set_templatesArray set_templatesJSON].
  split; [rewrite Ha0; reflexivity|].
  unfold keyOf, templatesOf. cbn -[String.eqb].
  rewrite ?Ha0, ?Hv0, ?Hw0, !toString_app_nonempty.
  repeat split; try done.
  1: apply get_set_eq.
  all: done.
Qed.

Lemma createTemplate_below_capacity_witness :
  ∃ t m' entry,
    createTemplate gapPalette demoEncode demoAuthor JS.toString
      opaquePixel "dot" (0, 0, 0, 0) false
      (newManager "Blue Marble" "0.82.1") = Some (Created, m') ∧
    appendedTemplate "dot" (newManager "Blue Marble" "0.82.1") t m' entry.
Proof.
  apply (createTemplate_below_capacity gapPalette demoEncode demoAuthor
           JS.toString opaquePixel "dot" (0, 0, 0, 0) false
           (newManager "Blue Marble" "0.82.1")).
  cbn. lia.
Defined.


Section CapacityFacts.

Variable colorpalette : list PaletteEntry.
Variable encodeBase64PNG : Bitmap → string.
Variable numberToEncoded : Z → string → string.
Variable formatNumber : Z → string.
Variable decodeBase64PNG : string → Bitmap.
Variable parseNumber : string → option Z.

Lemma createTemplate_capacity blob name coords autoColor m outcome m' :
  withinCapacity m →
  createTemplate colorpalette encodeBase64PNG numberToEncoded
    formatNumber blob name coords autoColor m = Some (outcome, m') →
  withinCapacity m'.
Proof.
  intros [Hmax Hlen]. destruct coords as [[[c0 c1] c2] c3].
  unfold createTemplate.
  set (m0 := match templatesJSON m with
             | Some _ => m
             | None => set_templatesJSON (Some (createJSON m)) m
             end).
  assert (maxTemplates m0 = 10 ∧ templatesArray m0 = templatesArray m)
    as [Hm0 Ha0].
  { unfold m0. destruct (templatesJSON m) eqn:E; cbn; rewrite ?E; done. }
  cbn [handleDisplayStatus maxTemplates templatesArray set_overlayLog].
  rewrite Hm0, Ha0.
  destruct (Z.leb_spec 10 (Z.of_nat (length (templatesArray m)))).
  - intros [= <- <-].
    split; cbn; rewrite ?Hm0, ?Ha0; [done|lia].
  - destruct (nextSortIDFrom _ _ _) as [n|]; [|done].
    cbn [mbind option_bind].
    destruct (createTemplateTiles _ _ _) as [[t tiles]|]; [|done].
    cbn [mbind option_bind].
    cbn [templatesJSON handleDisplayStatus set_overlayLog].
    destruct (templatesJSON m0) as [json|] eqn:Hjson; [|done].
    cbn [mbind option_bind]. intros [= <- <-].
    split; cbn; rewrite ?Hm0, ?Ha0, ?length_app; cbn; [done|lia].
Qed.

Lemma parseTemplateEntry_capacity m e :
  withinCapacity m →
  withinCapacity (parseTemplateEntry decodeBase64PNG parseNumber m e).
Proof.
  intros [Hmax Hlen]. destruct e as [k v]. unfold parseTemplateEntry.
  rewrite Hmax.
  destruct (Z.leb_spec 10 (Z.of_nat (length (templatesArray m))));
    [done|].
  split; cbn; [done|]. rewrite length_app. cbn. lia.
Qed.

Lemma importJSON_capacity json m :
  withinCapacity m →
  withinCapacity (importJSON decodeBase64PNG parseNumber json m).
Proof.
  intros Hm. unfold importJSON. case_match; [|done].
  unfold parseBlueMarble.
  assert (withinCapacity (set_templatesJSON (Some json) m)) as H0 by done.
  revert H0. generalize (set_templatesJSON (Some json) m).
  induction (templates json) as [|e es IH]; intros m0 H0; [done|].
  cbn [foldl]. apply IH. by apply parseTemplateEntry_capacity.
Qed.

Lemma setEnabledFirst_length idKey v l :
  length (setEnabledFirst idKey v l) = length l.
Proof.
  induction l as [|x l IH]; [done|]. cbn.
  case_match; cbn; by rewrite ?IH.
Qed.

Lemma setTemplateEnabled_array idKey v m :
  templatesArray (setTemplateEnabled idKey v m)
  = match find (λ x, String.eqb (keyOf x) idKey) (templatesArray m) with
    | Some _ => setEnabledFirst idKey v (templatesArray m)
    | None => templatesArray m
    end
  ∧ maxTemplates (setTemplateEnabled idKey v m) = maxTemplates m.
Proof.
  unfold setTemplateEnabled. case_match; [|done].
  repeat case_match; done.
Qed.

(** Compositing a tile touches neither the registry nor the store. *)
Lemma drawTemplateOnTile_registry env tileBlob tileCoords m out m' :
  drawTemplateOnTile formatNumber env tileBlob tileCoords m
  = Some (out, m') →
  templatesArray m' = templatesArray m ∧
  templatesJSON m' = templatesJSON m ∧
  maxTemplates m' = maxTemplates m ∧
  autoColorLive m' = autoColorLive m ∧
  gmWrites m' = gmWrites m.
Proof.
  destruct (updateZoomState_frame (env_canvasZoom env) NoDetail m)
    as (Ha & HJ & HM & HA & _ & HW).
  unfold drawTemplateOnTile.
  repeat case_match; intros [= <- <-]; cbn;
    rewrite ?Ha, ?HJ, ?HM, ?HW; repeat split; congruence.
Qed.

End CapacityFacts.

Section ToggleFacts.

Lemma setEnabledFirst_insert idKey v (l : list Template) (i : nat) t :
  l !! i = Some t → keyOf t = idKey →
  (∀ (j : nat) t', (j < i)%nat → l !! j = Some t' → keyOf t' ≠ idKey) →
  setEnabledFirst idKey v l = <[i := set_enabled v t]> l ∧
  is_Some (find (λ x, String.eqb (keyOf x) idKey) l).
Proof.
  revert i. induction l as [|x l IH]; intros i Hi Hk Hfirst; [done|].
  cbn [setEnabledFirst find]. destruct i as [|i].
  - injection Hi as ->. rewrite Hk, String.eqb_refl. done.
  - destruct (String.eqb_spec (keyOf x) idKey) as [Heq|Hne].
    { by destruct (Hfirst 0%nat x ltac:(lia) eq_refl). }
    destruct (IH i Hi Hk) as [-> Hf].
    { intros j t' Hj Ht'. apply (Hfirst (S j)); [lia|done]. }
    done.
Qed.

End ToggleFacts.

(** X10. When a loaded template answers to the key, [setTemplateEnabled]
    sets the flag of the first such template and of no other; the entry
    of the persisted document under that key, if there is one, gets the
    same flag and is otherwise kept; the tile cache is invalidated and
    the document is written to storage. *)
Theorem setTemplateEnabled_hit idKey v m (i : nat) t :
  templatesArray m !! i = Some t → keyOf t = idKey →
  (∀ (j : nat) t', (j < i)%nat → templatesArray m !! j = Some t' →
     keyOf t' ≠ idKey) →
  templatesArray (setTemplateEnabled idKey v m)
  = <[i := set_enabled v t]> (templatesArray m) ∧
  match Obj.get (templatesOf m) idKey with
  | Some entry =>
      Obj.get (templatesOf (setTemplateEnabled idKey v m)) idKey
      = Some {| tj_name := tj_name entry; tj_coords := tj_coords entry;
                tj_enabled := Some v; tj_tiles := tj_tiles entry |}
  | None =>
      templatesJSON (setTemplateEnabled idKey v m) = templatesJSON m
  end ∧
  cacheVersion (setTemplateEnabled idKey v m) = JS.incr (cacheVersion m) ∧
  mergedTileCache (setTemplateEnabled idKey v m) = ∅ ∧
  gmWrites (setTemplateEnabled idKey v m)
  = templatesJSON (setTemplateEnabled idKey v m) :: gmWrites m.
Proof.
  intros Hi Hk Hfirst.
  destruct (setEnabledFirst_insert idKey v _ i t Hi Hk Hfirst)
    as [Hset [t0 Hfind]].
  unfold setTemplateEnabled, templatesOf. rewrite Hfind, Hset.
  cbn [templatesJSON set_templatesArray].
  destruct (templatesJSON m) as [json|] eqn:Hjson; [|done].
  cbn [Obj.get]. destruct (Obj.get (templates json) idKey) as [entry|];
    [|by rewrite ?Hjson].
  cbn. split; [done|]. split; [apply get_set_eq|done].
Qed.

Lemma setTemplateEnabled_hit_witness :
  templatesArray (setTemplateEnabled "1 A" true threeManager)
  = <[1%nat := set_enabled true
                 (set_chunked (Some [])
                    (newTemplate "second" 1 "A" None None false false
                       "1 A"))]>
      (templatesArray threeManager) ∧
  Obj.get (templatesOf (setTemplateEnabled "1 A" true threeManager)) "1 A"
  = Some {| tj_name := "second"; tj_coords := None;
            tj_enabled := Some true; tj_tiles := [] |}.
Proof.
  pose proof (setTemplateEnabled_hit "1 A" true threeManager 1
                (set_chunked (Some [])
                   (newTemplate "second" 1 "A" None None false false
                      "1 A"))) as H.
  destruct H as (Ha & Hj & _).
  - reflexivity.
  - reflexivity.
  - intros [|j] t' Hj Ht'; [|lia]. injection Ht' as <-. by vm_compute.
  - split; [exact Ha|]. exact Hj.
Defined.

Section ImportFacts.

Variable decodeBase64PNG : string → Bitmap.
Variable parseNumber : string → option Z.

(** One entry of the document: skipped at capacity, appended below. *)
Lemma parseTemplateEntry_step m e :
  let m' := parseTemplateEntry decodeBase64PNG parseNumber m e in
  maxTemplates m' = maxTemplates m ∧
  templatesJSON m' = templatesJSON m ∧
  cacheVersion m' = cacheVersion m ∧
  mergedTileCache m' = mergedTileCache m ∧
  gmWrites m' = gmWrites m ∧
  if maxTemplates m <=? Z.of_nat (length (templatesArray m))
  then templatesArray m' = templatesArray m
  else ∃ t, templatesArray m' = templatesArray m ++ [t] ∧
            importedFrom decodeBase64PNG e t.
Proof.
  destruct e as [k v]. unfold parseTemplateEntry. cbn zeta.
  destruct (maxTemplates m <=? Z.of_nat (length (templatesArray m)));
    [done|].
  cbn. repeat split; try done. eexists. split; [reflexivity|]. done.
Qed.

Lemma parseBlueMarble_appends entries m :
  let m' := foldl (parseTemplateEntry decodeBase64PNG parseNumber) m
              entries in
  ∃ news,
    templatesArray m' = templatesArray m ++ news ∧
    length news
    = (length entries `min`
       Z.to_nat (maxTemplates m - Z.of_nat (length (templatesArray m))))%nat ∧
    Forall2 (importedFrom decodeBase64PNG)
      (take (length news) entries) news ∧
    templatesJSON m' = templatesJSON m ∧
    cacheVersion m' = cacheVersion m ∧
    mergedTileCache m' = mergedTileCache m ∧
    gmWrites m' = gmWrites m.
Proof.
  revert m. induction entries as [|e es IH]; intros m; cbn zeta.
  { exists []. rewrite app_nil_r. cbn.
    repeat split; first [done | constructor]. }
  cbn [foldl].
  destruct (parseTemplateEntry_step m e) as (HM & HJ & HV & HC & HW & Harr).
  destruct (IH (parseTemplateEntry decodeBase64PNG parseNumber m e))
    as (news & Ha & Hlen & Hall & HJ' & HV' & HC' & HW').
  rewrite HM in Hlen.
  destruct (Z.leb_spec (maxTemplates m)
              (Z.of_nat (length (templatesArray m)))) as [Hfull|Hfree].
  - rewrite Harr in Ha, Hlen.
    assert (news = []) as ->.
    { apply length_zero_iff_nil. lia. }
    exists []. rewrite app_nil_r in *. cbn [length firstn].
    repeat split; try congruence; [lia|constructor].
  - destruct Harr as (t & Harr & Ht). rewrite Harr in Ha, Hlen.
    rewrite length_app in Hlen. cbn in Hlen.
    exists (t :: news). rewrite Ha, <- app_assoc. cbn [length firstn app].
    repeat split; try congruence; [lia|]. by constructor.
Qed.

End ImportFacts.

(** X11. Importing a document of the script sets it as the persisted
    document and appends one template per entry, in order, until the
    registry is full; each carries the key of its entry, is enabled
    unless the entry says otherwise, and has chunks but no image.  The
    import neither invalidates the tile cache nor writes to storage. *)
Theorem importJSON_appends decodeBase64PNG parseNumber json m :
  whoami json = "BlueMarble" ∨ whoami json = dropFirstSpace (name m) →
  ∃ news,
    templatesArray (importJSON decodeBase64PNG parseNumber json m)
    = templatesArray m ++ news ∧
    length news
    = (length (templates json) `min`
       Z.to_nat (maxTemplates m - Z.of_nat (length (templatesArray m))))%nat ∧
    Forall2 (importedFrom decodeBase64PNG)
      (take (length news) (templates json)) news ∧
    templatesJSON (importJSON decodeBase64PNG parseNumber json m)
    = Some json ∧
    cacheVersion (importJSON decodeBase64PNG parseNumber json m)
    = cacheVersion m ∧
    mergedTileCache (importJSON decodeBase64PNG parseNumber json m)
    = mergedTileCache m ∧
    gmWrites (importJSON decodeBase64PNG parseNumber json m) = gmWrites m.
Proof.
  intros Hwho. unfold importJSON.
  replace (String.eqb (whoami json) "BlueMarble"
           || String.eqb (whoami json) (dropFirstSpace (name m)))
    with true.
  2:{ symmetry. apply orb_true_iff.
      destruct Hwho as [->| ->]; rewrite String.eqb_refl; auto. }
  unfold parseBlueMarble.
  destruct (parseBlueMarble_appends decodeBase64PNG parseNumber
              (templates json) (set_templatesJSON (Some json) m))
    as (news & Ha & Hlen & Hall & HJ & HV & HC & HW).
  by exists news.
Qed.

Lemma importJSON_appends_witness :
  ∃ news,
    templatesArray threeManager = [] ++ news ∧
    length news = (3 `min` Z.to_nat (10 - Z.of_nat 0))%nat ∧
    Forall2 (importedFrom demoDecode)
      (take (length news) (templates threeTemplatesJSON)) news ∧
    templatesJSON threeManager = Some threeTemplatesJSON ∧
    cacheVersion threeManager = 0 ∧
    mergedTileCache threeManager = ∅ ∧
    gmWrites threeManager = [].
Proof.
  apply (importJSON_appends demoDecode demoNumber threeTemplatesJSON
           (newManager "Blue Marble" "0.82.1")).
  left. reflexivity.
Defined.

(* ===================================================================== *)
(** * Further properties of the compositor                                *)
(* ===================================================================== *)

Section ZoomFacts.

Lemma updateZoomState_settles cz m :
  zoomSettled cz (updateZoomState cz NoDetail m).
Proof.
  destruct m as [? ? ? ? ? ? ? ? ? ? ? ? ? ? ? ? zl thr ? zo ? ?].
  unfold updateZoomState, invalidateCache, zoomSettled. cbn.
  destruct zl as [q|]; cbn.
  - destruct (Qle_bool q thr) eqn:E, zo; cbn; by rewrite ?E.
  - destruct cz as [q|]; cbn; [|by destruct zo].
    destruct (Qle_bool q thr) eqn:E, zo; cbn; by rewrite ?E.
Qed.

Lemma updateZoomState_settled cz m :
  zoomSettled cz m → updateZoomState cz NoDetail m = m.
Proof.
  destruct m as [? ? ? ? ? ? ? ? ? ? ? ? ? ? ? ? zl thr ? zo ? ?].
  unfold updateZoomState, invalidateCache, zoomSettled. cbn.
  destruct zl as [q|]; cbn.
  - intros ->. by destruct (Qle_bool q thr).
  - intros ->. by destruct zo.
Qed.

(** What the zoom update leaves alone, besides the registry. *)
Lemma updateZoomState_frame_draw cz d m :
  let m1 := updateZoomState cz d m in
  templatesShouldBeDrawn m1 = templatesShouldBeDrawn m ∧
  mgrTileSize m1 = mgrTileSize m ∧ drawMult m1 = drawMult m ∧
  zoomOutThreshold m1 = zoomOutThreshold m ∧
  overlayLog m1 = overlayLog m ∧
  statusLastUpdate m1 = statusLastUpdate m.
Proof.
  unfold updateZoomState, invalidateCache. cbn zeta.
  repeat case_match; cbn; done.
Qed.

End ZoomFacts.

(** X12. Compositing is repeatable: after a call for a tile, a second
    call for the same tile in the resulting state returns the same image
    and leaves the state as it is, whatever the clock and the zoom read
    before drawing then are. *)
Theorem drawTemplateOnTile_repeatable
    formatNumber env env' tileBlob tileCoords m out m' :
  env_canvasZoom env' = env_canvasZoom env →
  drawTemplateOnTile formatNumber env tileBlob tileCoords m
  = Some (out, m') →
  drawTemplateOnTile formatNumber env' tileBlob tileCoords m'
  = Some (out, m').
Proof.
  intros Henv H.
  pose proof (updateZoomState_settles (env_canvasZoom env) m) as Hs.
  destruct (updateZoomState_frame (env_canvasZoom env) NoDetail m)
    as (Ha & _).
  destruct (updateZoomState_frame_draw (env_canvasZoom env) NoDetail m)
    as (Hsd' & _).
  cbn zeta in Hsd'.
  unfold drawTemplateOnTile in H.
  destruct (templatesShouldBeDrawn m) eqn:Hsd; cbn [negb] in H.
  2:{ injection H as <- <-. unfold drawTemplateOnTile. by rewrite Hsd. }
  case_bool_decide as Hempty.
  { injection H as <- <-. unfold drawTemplateOnTile. rewrite Hsd.
    cbn [negb]. by rewrite bool_decide_true. }
  set (mz := updateZoomState (env_canvasZoom env) NoDetail m) in *.
  assert (∀ ms,
    templatesShouldBeDrawn ms = true → templatesArray ms = templatesArray m →
    zoomSettled (env_canvasZoom env) ms →
    drawTemplateOnTile formatNumber env' tileBlob tileCoords ms
    = match mergedTileCache ms !! cacheKeyOf tileCoords ms with
      | Some cached => Some (cached, ms)
      | None =>
          drawTemplateOnTile formatNumber env' tileBlob tileCoords ms
      end) as Hagain.
  { intros ms Hd Harr Hset.
    destruct (mergedTileCache ms !! _) as [cached|] eqn:Hc; [|done].
    unfold cacheKeyOf, tileCoordsText in Hc.
    unfold drawTemplateOnTile. rewrite Hd. cbn [negb].
    rewrite bool_decide_false by congruence.
    rewrite Henv, (updateZoomState_settled _ _ Hset). cbn zeta.
    by rewrite Hc. }
  destruct (mergedTileCache mz !! _) as [cached|] eqn:Hc.
  { injection H as <- <-.
    rewrite Hagain by (done || congruence).
    unfold cacheKeyOf, tileCoordsText. by rewrite Hc. }
  destruct (mapM _ _) as [found|] eqn:Hfound; [|done].
  cbn zeta in H. case_bool_decide as Hnone.
  { injection H as <- <-.
    unfold drawTemplateOnTile. rewrite Hsd'.
    cbn [negb]. rewrite bool_decide_false by congruence.
    rewrite Henv, (updateZoomState_settled _ _ Hs).
    rewrite Hc, Hfound. cbn zeta. by rewrite bool_decide_true. }
  match type of H with
  | context [set_mergedTileCache _ ?x] => set (ms := x) in *
  end.
  assert (templatesShouldBeDrawn ms = templatesShouldBeDrawn mz ∧
          templatesArray ms = templatesArray mz ∧
          zoomLevel ms = zoomLevel mz ∧ isZoomedOut ms = isZoomedOut mz ∧
          zoomOutThreshold ms = zoomOutThreshold mz ∧
          autoColorLive ms = autoColorLive mz ∧
          cacheVersion ms = cacheVersion mz)
    as (Hm1 & Hm2 & Hm3 & Hm4 & Hm5 & Hm6 & Hm7).
  { unfold ms. repeat case_match; done. }
  injection H as <- <-.
  rewrite Hagain.
  - unfold cacheKeyOf, tileCoordsText.
    cbn [autoColorLive isZoomedOut cacheVersion mergedTileCache
         set_mergedTileCache].
    rewrite Hm4, Hm6, Hm7. by rewrite lookup_insert_eq.
  - cbn. by rewrite Hm1.
  - cbn. rewrite Hm2. done.
  - unfold zoomSettled in *. cbn. by rewrite Hm3, Hm4, Hm5.
Qed.

Lemma drawTemplateOnTile_repeatable_witness :
  ∃ out m',
    drawTemplateOnTile JS.toString demoEnv (TileBlob []) (0, 0)
      twoLayerManager = Some (out, m') ∧
    drawTemplateOnTile JS.toString
      {| env_now := 5000; env_canvasZoom := None;
         env_canvasZoomAtDraw := Some (2 # 1) |}
      (TileBlob []) (0, 0) m' = Some (out, m').
Proof.
  eexists _, _.
  split; [vm_compute; reflexivity|].
  apply (drawTemplateOnTile_repeatable JS.toString demoEnv
           {| env_now := 5000; env_canvasZoom := None;
              env_canvasZoomAtDraw := Some (2 # 1) |}
           (TileBlob []) (0, 0) twoLayerManager);
    [reflexivity|vm_compute; reflexivity].
Defined.

Section OrderFacts.

Lemma Forall_sublist {A} (P : A → Prop) (l1 l2 : list A) :
  l1 `sublist_of` l2 → Forall P l2 → Forall P l1.
Proof.
  induction 1 as [|x l1 l2 _ IH|x l1 l2 _ IH]; intros Hall; [done| |].
  - apply Forall_cons in Hall as [Hx Hall]. constructor; auto.
  - apply Forall_cons in Hall as [_ Hall]. auto.
Qed.

Lemma ascending_sublist (l1 l2 : list Template) :
  l1 `sublist_of` l2 → ascendingSortIDs l2 → ascendingSortIDs l1.
Proof.
  induction 1 as [|x l1 l2 Hsub IH|x l1 l2 _ IH]; [done| |].
  - intros [Hx Hasc]. split; [by eapply Forall_sublist|auto].
  - intros [_ Hasc]. auto.
Qed.

Lemma insertBySortID_Forall (P : Template → Prop) x l :
  P x → Forall P l → Forall P (insertBySortID x l).
Proof.
  intros Hx Hl. apply Forall_forall. intros y Hy.
  apply insertBySortID_elem in Hy as [->|Hy]; [done|].
  by eapply Forall_forall in Hl.
Qed.

Lemma insertBySortID_ascending x l :
  ascendingSortIDs l → ascendingSortIDs (insertBySortID x l).
Proof.
  induction l as [|y l IH]; intros Hasc; [by split|].
  destruct Hasc as [Hy Hasc]. cbn [insertBySortID].
  destruct (Z.leb_spec (sortID x) (sortID y)) as [Hle|Hgt].
  - split; [|by split]. constructor; [done|].
    eapply Forall_impl; [exact Hy|]. cbn. intros. lia.
  - split; [|auto]. apply insertBySortID_Forall; [lia|done].
Qed.

Lemma sortBySortID_ascending l : ascendingSortIDs (sortBySortID l).
Proof.
  induction l as [|x l IH]; [done|].
  by apply insertBySortID_ascending.
Qed.

(** The templates kept by the [filter] after the [map]. *)
Lemma found_sublist {A B} (f : A → option (option B)) l found :
  Forall2 (λ x y, f x = Some y) l found →
  ∃ ts, ts `sublist_of` l ∧
        Forall2 (λ t td, f t = Some (Some td)) ts (omap id found).
Proof.
  induction 1 as [|x y l found Hxy _ (ts & Hsub & Hall)].
  { exists []. split; [done|constructor]. }
  destruct y as [td|]; cbn [omap list_omap id].
  - exists (x :: ts). split; [by apply sublist_skip|by constructor].
  - exists ts. split; [by apply sublist_cons|done].
Qed.

End OrderFacts.

(** X13. The layers of a composited tile are drawn in the order of the
    sort IDs: the draw calls belong, one by one, to enabled templates
    taken in ascending sort ID (templates of equal ID in registry
    order), each showing one of its chunks on the tile. *)
Theorem layers_drawn_by_ascending_sortID
    formatNumber env bytes tileCoords m ds base calls m' :
  mergedTileCache (updateZoomState (env_canvasZoom env) NoDetail m)
    !! cacheKeyOf tileCoords
         (updateZoomState (env_canvasZoom env) NoDetail m) = None →
  drawTemplateOnTile formatNumber env (TileBlob bytes) tileCoords m
  = Some (MergedBlob ds base calls, m') →
  ∃ ts,
    ts `sublist_of`
      sortBySortID (filter (λ t, enabled t = true) (templatesArray m)) ∧
    ascendingSortIDs ts ∧
    Forall2 (drawsChunkOf tileCoords
               (updateZoomState (env_canvasZoom env) NoDetail m))
      ts calls.
Proof.
  intros Hmiss. unfold drawTemplateOnTile.
  destruct (templatesShouldBeDrawn m); cbn [negb]; [|done].
  case_bool_decide as Hempty; [done|].
  destruct (updateZoomState_frame (env_canvasZoom env) NoDetail m)
    as (Ha & _).
  set (m1 := updateZoomState (env_canvasZoom env) NoDetail m) in *.
  unfold cacheKeyOf, tileCoordsText in Hmiss. rewrite Hmiss.
  destruct (mapM _ _) as [found|] eqn:Hfound; [|done].
  case_bool_decide as Hnone; [done|].
  intros [= <- <- <- <-].
  apply mapM_Some_1, found_sublist in Hfound as (ts & Hsub & Hall).
  exists ts. rewrite <- Ha. split; [done|]. split.
  { eapply ascending_sublist; [exact Hsub|apply sortBySortID_ascending]. }
  apply Forall2_fmap_r.
  eapply Forall2_impl; [exact Hall|].
  intros t td Hchunk. cbn.
  apply chunkForTile_spec in Hchunk
    as (active & tile & Hact & Hk & Hst & Hbm).
  exists active, tile. repeat split; try done.
  unfold drawCall. by destruct (localIsZoomedOut _ _).
Qed.

Lemma layers_drawn_by_ascending_sortID_witness :
  ∃ ds base calls m' ts,
    twoLayerDraw = Some (MergedBlob ds base calls, m') ∧
    length calls = 2%nat ∧
    ts `sublist_of`
      sortBySortID
        (filter (λ t, enabled t = true) (templatesArray twoLayerManager)) ∧
    ascendingSortIDs ts ∧
    Forall2 (drawsChunkOf (0, 0)
               (updateZoomState (env_canvasZoom demoEnv) NoDetail
                  twoLayerManager))
      ts calls.
Proof.
  destruct twoLayerDraw as [[[bytes|ds base calls] m']|] eqn:E;
    try (by vm_compute in E).
  unfold twoLayerDraw in E.
  destruct (layers_drawn_by_ascending_sortID JS.toString demoEnv []
              (0, 0) twoLayerManager ds base calls m')
    as (ts & Hsub & Hasc & Hall); [vm_compute; reflexivity|exact E|].
  exists ds, base, calls, m', ts. repeat split; try done.
  vm_compute in E. by injection E as <- <- <- <-.
Defined.

(* ===================================================================== *)
(** * What the compositor draws for each template                         *)
(* ===================================================================== *)

Section LayerFacts.

Lemma insertBySortID_perm x l : insertBySortID x l ≡ₚ x :: l.
Proof.
  induction l as [|y l IH]; [done|]. cbn [insertBySortID].
  case_match; [done|]. rewrite IH. apply Permutation_swap.
Qed.

Lemma sortBySortID_perm l : sortBySortID l ≡ₚ l.
Proof.
  induction l as [|x l IH]; [done|].
  unfold sortBySortID in *. cbn [foldr].
  by rewrite insertBySortID_perm, IH.
Qed.

Lemma chunkForTile_drawn autoColorLive tileCoords t td :
  chunkForTile autoColorLive tileCoords t = Some (Some td) →
  ∃ active tile rest,
    chunked t = Some active ∧
    filter (λ k, JS.startsWith k tileCoords = true) (Obj.keys active)
    = tile :: rest ∧
    td_bitmap td = Obj.get (drawnMap autoColorLive t active) tile ∧
    td_pixelCoords td
    = (JS.splitComma tile !! 2%nat, JS.splitComma tile !! 3%nat).
Proof.
  unfold chunkForTile. destruct (chunked t) as [active|]; [|done].
  cbn [mbind option_bind]. intros [= Hhead].
  destruct (filter _ (Obj.keys active)) as [|tile ks'] eqn:Hks; [done|].
  cbn in Hhead. injection Hhead as <-.
  exists active, tile, ks'. done.
Qed.

Lemma chunkForTile_skipped autoColorLive tileCoords t :
  chunkForTile autoColorLive tileCoords t = Some None →
  ¬ ∃ active tile,
      chunked t = Some active ∧ tile ∈ Obj.keys active ∧
      JS.startsWith tile tileCoords = true.
Proof.
  unfold chunkForTile. destruct (chunked t) as [active|]; [|done].
  cbn [mbind option_bind]. intros [= Hhead].
  destruct (filter _ (Obj.keys active)) as [|tile ks'] eqn:Hks; [|done].
  intros (active' & tile & [= <-] & Hin & Hst).
  assert (tile ∈ filter (λ k, JS.startsWith k tileCoords = true)
                   (Obj.keys active)) as Hf
    by by apply list_elem_of_filter.
  rewrite Hks in Hf. by apply elem_of_nil in Hf.
Qed.

Lemma omap_id_fmap {A B} (f : A → B) (l : list (option A)) :
  omap id (fmap (M := option) f <$> l) = f <$> omap id l.
Proof.
  induction l as [|[a|] l IH]; cbn; [done| |done]. by rewrite IH.
Qed.

End LayerFacts.

(** C1 (amended).  When [drawTemplateOnTile] composites a tile (no cached
    image under the key), it goes through the enabled templates, each
    one once, in ascending order of sort ID.  For a template with a
    chunk on the tile it issues exactly one draw: the chunk under the
    first key of the tile, taken from the masked map of the live colour
    mode (auto-coloured or original, the active map when absent).  For a
    template with no chunk on the tile it draws nothing.  These are all
    the draws, in that order.  The zoom never selects the solid variant;
    it sets the opacity of each draw, by the zoom read just before
    drawing. *)
Theorem compositor_draws_masked_variant formatNumber env bytes tileCoords
    m ds base calls m' :
  mergedTileCache (updateZoomState (env_canvasZoom env) NoDetail m)
    !! cacheKeyOf tileCoords
         (updateZoomState (env_canvasZoom env) NoDetail m) = None →
  drawTemplateOnTile formatNumber env (TileBlob bytes) tileCoords m
  = Some (MergedBlob ds base calls, m') →
  ∃ layers marks,
    layers ≡ₚ filter (λ t, enabled t = true) (templatesArray m) ∧
    ascendingSortIDs layers ∧
    Forall2 (layerMark env tileCoords
               (updateZoomState (env_canvasZoom env) NoDetail m))
      layers marks ∧
    calls = omap id marks.
Proof.
  intros Hmiss. unfold drawTemplateOnTile.
  destruct (templatesShouldBeDrawn m); cbn [negb]; [|done].
  case_bool_decide as Hempty; [done|].
  destruct (updateZoomState_frame (env_canvasZoom env) NoDetail m)
    as (Harr0 & _).
  set (m1 := updateZoomState (env_canvasZoom env) NoDetail m) in *.
  unfold cacheKeyOf, tileCoordsText in Hmiss. rewrite Hmiss.
  destruct (mapM _ _) as [found|] eqn:Hfound; [|done].
  case_bool_decide as Hnone; [done|].
  set (m2 := if statusUpdateIntervalMs m1 <=? _ then _ else m1).
  assert (zoomLevel m2 = zoomLevel m1 ∧
          zoomOutThreshold m2 = zoomOutThreshold m1 ∧
          isZoomedOut m2 = isZoomedOut m1 ∧
          zoomOpacity m2 = zoomOpacity m1 ∧
          drawMult m2 = drawMult m1)
    as (Hz & Hth & Hzo & Hop & Hdm).
  { unfold m2. repeat case_match; cbn; done. }
  intros [= <- <- <- <-].
  exists (sortBySortID (filter (λ t, enabled t = true) (templatesArray m1))),
    (fmap (M := option)
       (drawCall (localIsZoomedOut (env_canvasZoomAtDraw env) m2) m2)
       <$> found).
  split; [rewrite Harr0; apply sortBySortID_perm|].
  split; [apply sortBySortID_ascending|].
  split; [|by rewrite omap_id_fmap].
  apply mapM_Some_1 in Hfound.
  apply Forall2_fmap_r.
  eapply Forall2_impl; [exact Hfound|].
  intros t [td|] Hchunk; cbn [fmap option_fmap option_map layerMark].
  - apply chunkForTile_drawn in Hchunk
      as (active & tile & rest & Hact & Hks & Hbm & Hpc).
    exists active, tile, rest.
    split; [done|]. split; [done|].
    unfold drawCall, localIsZoomedOut, opacityAtDraw.
    rewrite Hz, Hth, Hzo, Hop, Hdm.
    destruct (env_canvasZoomAtDraw env) as [q|];
      [|destruct (zoomLevel m1) as [q|]];
      first [destruct (Qle_bool q _)|destruct (isZoomedOut m1)];
      cbn; repeat split; done.
  - exact (chunkForTile_skipped _ _ _ Hchunk).
Qed.

Lemma compositor_draws_masked_variant_witness :
  ∃ calls m' layers marks,
    drawTemplateOnTile JS.toString demoEnv (TileBlob []) (0, 0)
      layeredManager
    = Some (MergedBlob 3000 (TileBlob []) calls, m') ∧
    length (filter (λ t, enabled t = true) (templatesArray layeredManager))
    = 3%nat ∧
    length calls = 2%nat ∧
    layers ≡ₚ filter (λ t, enabled t = true) (templatesArray layeredManager) ∧
    ascendingSortIDs layers ∧
    Forall2 (layerMark demoEnv (0, 0)
               (updateZoomState (env_canvasZoom demoEnv) NoDetail
                  layeredManager))
      layers marks ∧
    calls = omap id marks.
Proof.
  assert (∃ calls m',
            drawTemplateOnTile JS.toString demoEnv (TileBlob []) (0, 0)
              layeredManager
            = Some (MergedBlob 3000 (TileBlob []) calls, m') ∧
            length calls = 2%nat) as (calls & m' & Hdraw & Hlen).
  { eexists _, _. split; vm_compute; reflexivity. }
  destruct (compositor_draws_masked_variant JS.toString demoEnv []
              (0, 0) layeredManager 3000 (TileBlob []) calls m')
    as (layers & marks & Hperm & Hasc & Hmarks & Hcalls);
    [vm_compute; reflexivity|exact Hdraw|].
  exists calls, m', layers, marks.
  split; [exact Hdraw|]. split; [vm_compute; reflexivity|].
  split; [exact Hlen|]. done.
Defined.

Section VersionFacts.

(** The zoom update bumps the cache version exactly when the zoom mode
    flips; it then drops the cache. *)
Lemma updateZoomState_version cz d m :
  let m1 := updateZoomState cz d m in
  (isZoomedOut m1 = isZoomedOut m →
   cacheVersion m1 = cacheVersion m ∧
   mergedTileCache m1 = mergedTileCache m) ∧
  (isZoomedOut m1 ≠ isZoomedOut m →
   cacheVersion m1 = JS.incr (cacheVersion m) ∧ mergedTileCache m1 = ∅).
Proof.
  destruct m as [? ? ? ? ? ? ? ? ? ? ? ? ? ? ? ? zl thr ? zo ? ?].
  unfold updateZoomState, invalidateCache. cbn.
  destruct (match d with
            | NoDetail => zl
            | DetailZoom z | DetailLevel z | DetailScale z => z
            end) as [q|]; cbn.
  - destruct (Qle_bool q thr), zo; cbn; split; intros; done.
  - destruct cz as [q|]; cbn.
    + destruct (Qle_bool q thr), zo; cbn; split; intros; done.
    + destruct zo; cbn; split; intros; done.
Qed.

End VersionFacts.

(** X14. Compositing a tile never touches the registry, the persisted
    document, the colour mode or the storage; it bumps the cache version
    exactly when the zoom mode read at the start of the call differs
    from the stored one, and not otherwise. *)
Theorem drawTemplateOnTile_frame
    formatNumber env tileBlob tileCoords m out m' :
  drawTemplateOnTile formatNumber env tileBlob tileCoords m
  = Some (out, m') →
  templatesArray m' = templatesArray m ∧
  templatesJSON m' = templatesJSON m ∧
  maxTemplates m' = maxTemplates m ∧
  autoColorLive m' = autoColorLive m ∧
  gmWrites m' = gmWrites m ∧
  cacheVersion m'
  = if eqb (isZoomedOut m') (isZoomedOut m) then cacheVersion m
    else JS.incr (cacheVersion m).
Proof.
  intros H.
  destruct (drawTemplateOnTile_registry _ _ _ _ _ _ _ H)
    as (Ha & HJ & HM & HA & HW).
  repeat (split; [done|]).
  destruct (updateZoomState_version (env_canvasZoom env) NoDetail m)
    as [Hsame Hflip].
  cbn zeta in Hsame, Hflip.
  set (mz := updateZoomState (env_canvasZoom env) NoDetail m) in *.
  assert (cacheVersion mz
          = if eqb (isZoomedOut mz) (isZoomedOut m) then cacheVersion m
            else JS.incr (cacheVersion m)) as Hmz.
  { destruct (isZoomedOut mz) eqn:E1, (isZoomedOut m) eqn:E2; cbn;
      first [by apply Hsame | by apply Hflip]. }
  assert (m' = m ∨
          (cacheVersion m' = cacheVersion mz ∧
           isZoomedOut m' = isZoomedOut mz)) as [->|[-> ->]].
  { revert H. unfold drawTemplateOnTile. fold mz.
    repeat case_match; intros [= <- <-]; cbn; auto. }
  - by rewrite eqb_reflx.
  - exact Hmz.
Qed.

Lemma drawTemplateOnTile_frame_witness :
  ∃ out m',
    twoLayerDraw = Some (out, m') ∧
    templatesArray m' = templatesArray twoLayerManager ∧
    gmWrites m' = gmWrites twoLayerManager ∧
    cacheVersion m' = cacheVersion twoLayerManager.
Proof.
  destruct twoLayerDraw as [[out m']|] eqn:E; [|by vm_compute in E].
  exists out, m'. split; [done|].
  destruct (drawTemplateOnTile_frame JS.toString demoEnv (TileBlob [])
              (0, 0) twoLayerManager out m' E)
    as (Ha & _ & _ & _ & HW & HV).
  repeat split; try done. rewrite HV.
  unfold twoLayerDraw in E. vm_compute in E. by injection E as <- <-.
Defined.

(** X23. The zoom update leaves the registry, the persisted document
    and the storage alone.  When it finds a zoom level (in the event, in
    the state or on the canvas, in that order) it stores it and the
    manager is zoomed out exactly when that level is at most the
    threshold; when it finds none the state is kept.  It bumps the
    cache version and drops the cache when the zoom mode flips, and
    only then. *)
Theorem updateZoomState_effects canvasZoom d m :
  templatesArray (updateZoomState canvasZoom d m) = templatesArray m ∧
  templatesJSON (updateZoomState canvasZoom d m) = templatesJSON m ∧
  gmWrites (updateZoomState canvasZoom d m) = gmWrites m ∧
  match zoomFound canvasZoom d m with
  | Some q =>
      zoomLevel (updateZoomState canvasZoom d m) = Some q ∧
      isZoomedOut (updateZoomState canvasZoom d m)
      = Qle_bool q (zoomOutThreshold m)
  | None => updateZoomState canvasZoom d m = m
  end ∧
  cacheVersion (updateZoomState canvasZoom d m)
  = (if eqb (isZoomedOut (updateZoomState canvasZoom d m)) (isZoomedOut m)
     then cacheVersion m else JS.incr (cacheVersion m)) ∧
  mergedTileCache (updateZoomState canvasZoom d m)
  = (if eqb (isZoomedOut (updateZoomState canvasZoom d m)) (isZoomedOut m)
     then mergedTileCache m else ∅).
Proof.
  destruct (updateZoomState_frame canvasZoom d m)
    as (Ha & HJ & _ & _ & _ & HW).
  repeat (split; [done|]).
  destruct (updateZoomState_version canvasZoom d m) as [Hsame Hflip].
  cbn zeta in Hsame, Hflip.
  split.
  - clear. destruct m as [? ? ? ? ? ? ? ? ? ? ? ? ? ? ? ? zl thr ? zo ? ?].
    unfold updateZoomState, invalidateCache, zoomFound. cbn.
    destruct (match d with
              | NoDetail => zl
              | DetailZoom z | DetailLevel z | DetailScale z => z
              end) as [q|]; cbn.
    + destruct (Qle_bool q thr) eqn:E, zo; cbn; by rewrite ?E.
    + destruct canvasZoom as [q|]; cbn.
      * destruct (Qle_bool q thr) eqn:E, zo; cbn; by rewrite ?E.
      * by destruct zo.
  - destruct (isZoomedOut (updateZoomState canvasZoom d m)) eqn:E1,
      (isZoomedOut m) eqn:E2; cbn;
      first [ by destruct Hsame | by destruct Hflip ].
Qed.

(* ===================================================================== *)
(** * Further properties of the rendered chunks                           *)
(* ===================================================================== *)

Section RenderFacts.

(** Reading a pixel of an image that is laid out row by row. *)
Lemma grid_bind_lookup (f : Z → Z → list Z) W H X Y (c : nat) :
  (∀ X Y, length (f X Y) = 4%nat) →
  0 ≤ X < W → 0 ≤ Y < H → (c < 4)%nat →
  JS.at_ (Y ← seqZ 0 H; X ← seqZ 0 W; f X Y) ((Y * W + X) * 4 + Z.of_nat c)
  = f X Y !! c.
Proof.
  intros Hf HX HY Hc. unfold JS.at_.
  destruct (Z.ltb_spec ((Y * W + X) * 4 + Z.of_nat c) 0); [nia|].
  replace (Z.to_nat ((Y * W + X) * 4 + Z.of_nat c))
    with (Z.to_nat Y * (Z.to_nat W * 4) + (Z.to_nat X * 4 + c))%nat by nia.
  rewrite (bind_const_lookup _ (Z.to_nat W * 4)).
  - rewrite lookup_seqZ_lt by lia. cbn [mbind option_bind].
    rewrite (bind_const_lookup _ 4); [|intros; apply Hf|done].
    rewrite lookup_seqZ_lt by lia. cbn [mbind option_bind].
    by rewrite !Z.add_0_l, !Z2Nat.id by lia.
  - intros a. rewrite (bind_const_length _ 4).
    + by rewrite length_seqZ.
    + intros; apply Hf.
  - nia.
Qed.

Lemma list4_eta (l : list Z) :
  length l = 4%nat →
  [default 0 (l !! 0%nat); default 0 (l !! 1%nat);
   default 0 (l !! 2%nat); default 0 (l !! 3%nat)] = l.
Proof. by destruct l as [|a [|b [|c [|d [|e l]]]]]. Qed.

(** A pixel of such an image, read through [pixelAt]. *)
Lemma grid_pixelAt (f : Z → Z → list Z) W H X Y :
  (∀ X Y, length (f X Y) = 4%nat) →
  0 ≤ X < W → 0 ≤ Y < H →
  pixelAt {| bm_width := W; bm_height := H;
             bm_data := Y ← seqZ 0 H; X ← seqZ 0 W; f X Y |} X Y
  = f X Y.
Proof.
  intros Hf HX HY. unfold pixelAt. cbn [bm_width bm_height bm_data].
  replace ((0 <=? X) && (X <? W) && (0 <=? Y) && (Y <? H)) with true
    by (symmetry; cases_Zb; cbn; try done; lia).
  cbn zeta. unfold JS.get0.
  rewrite <- (Z.add_0_r ((Y * W + X) * 4)) at 1.
  rewrite (grid_bind_lookup f _ _ _ _ 0) by (done || lia).
  rewrite (grid_bind_lookup f _ _ _ _ 1) by (done || lia).
  rewrite (grid_bind_lookup f _ _ _ _ 2) by (done || lia).
  rewrite (grid_bind_lookup f _ _ _ _ 3) by (done || lia).
  by apply list4_eta.
Qed.

Lemma masked_pixel_length k img X Y :
  length (if (X mod k =? k / 2) && (Y mod k =? k / 2)
          then pixelAt img (X / k) (Y / k) else [0; 0; 0; 0]) = 4%nat.
Proof. case_match; [apply pixelAt_length|done]. Qed.

Lemma renderToBitmapNoMask_pixelAt k img X Y :
  0 ≤ X < bm_width img * k → 0 ≤ Y < bm_height img * k →
  pixelAt (renderToBitmapNoMask k img) X Y = pixelAt img (X / k) (Y / k).
Proof.
  intros HX HY. unfold renderToBitmapNoMask.
  apply (grid_pixelAt (λ X Y, pixelAt img (X / k) (Y / k))); try done.
  intros. apply pixelAt_length.
Qed.

Lemma renderToBitmap_pixelAt k img X Y :
  0 ≤ X < bm_width img * k → 0 ≤ Y < bm_height img * k →
  pixelAt (renderToBitmap k img) X Y
  = if (X mod k =? k / 2) && (Y mod k =? k / 2)
    then pixelAt img (X / k) (Y / k) else [0; 0; 0; 0].
Proof.
  intros HX HY. unfold renderToBitmap. cbn zeta.
  apply (grid_pixelAt
           (λ X Y, if (X mod k =? k / 2) && (Y mod k =? k / 2)
                   then pixelAt img (X / k) (Y / k) else [0; 0; 0; 0]));
    try done.
  intros. apply masked_pixel_length.
Qed.

End RenderFacts.

(* ===================================================================== *)
(** * Further properties of the index grids                               *)
(* ===================================================================== *)

Section GridFacts.

Lemma put_fold_length {A} (g v : A → Z) (l : list A) acc :
  length (foldl (λ acc a, JS.put acc (g a) (v a)) acc l) = length acc.
Proof.
  revert acc. induction l as [|a l IH]; intros acc; [done|].
  cbn [foldl]. by rewrite IH, length_put.
Qed.

(** After a run of writes, a cell that was written holds the value
    written to it, when all writes to the cell agree. *)
Lemma put_fold_hit {A} (g v : A → Z) (l : list A) acc a0 :
  a0 ∈ l → (∀ a, a ∈ l → g a = g a0 → v a = v a0) →
  0 ≤ g a0 → (Z.to_nat (g a0) < length acc)%nat →
  JS.at_ (foldl (λ acc a, JS.put acc (g a) (v a)) acc l) (g a0)
  = Some (v a0).
Proof.
  intros Hin Hsame Hpos Hlen.
  induction l as [|a l IH] using rev_ind; [inversion Hin|].
  rewrite foldl_snoc.
  destruct (decide (g a = g a0)) as [Heq|Hne].
  - rewrite Heq, <- (Hsame a); [|apply elem_of_app; right; left|done].
    apply at_put_eq; [done|]. by rewrite put_fold_length.
  - rewrite at_put_ne by done. apply IH.
    + apply elem_of_app in Hin as [Hin|Hin]; [done|].
      apply list_elem_of_singleton in Hin. congruence.
    + intros a' Ha'. apply Hsame. apply elem_of_app. by left.
Qed.

Lemma foldl_pointwise {A B} (f g : A → B → A) a (l : list B) :
  (∀ a x, f a x = g a x) → foldl f a l = foldl g a l.
Proof.
  intros Hfg. revert a. induction l as [|x l IH]; intros a; [done|].
  cbn [foldl]. by rewrite Hfg, IH.
Qed.

(** The two nested loops, as one run over the cells in order. *)
Lemma nested_loops_flat {S} (body : Z → Z → S → S) (ly lx : list Z) s :
  foldl (λ acc y, foldl (λ acc x, body y x acc) acc lx) s ly
  = foldl (λ acc p, body p.1 p.2 acc) s (y ← ly; x ← lx; [(y, x)]).
Proof.
  revert s. induction ly as [|y ly IH]; intros s; [done|].
  cbn [foldl mbind list_bind]. rewrite foldl_app, <- IH. f_equal.
  clear IH. generalize s. induction lx as [|x lx IHx]; intros s'; [done|].
  cbn [foldl mbind list_bind app]. by rewrite <- IHx.
Qed.

(** Two loops that write each cell of a [w] x [h] grid once. *)
Lemma grid_fill (body : Z → Z → list Z → list Z) (v : Z → Z → Z) w h :
  (∀ y x acc, body y x acc = JS.put acc (y * w + x) (v x y)) →
  let data :=
    JS.forRange h (λ y, JS.forRange w (body y))
      (replicate (Z.to_nat (w * h)) 0) in
  length data = Z.to_nat (w * h) ∧
  ∀ x y, 0 ≤ x < w → 0 ≤ y < h →
    JS.at_ data (y * w + x) = Some (v x y).
Proof.
  intros Hbody. cbn zeta. unfold JS.forRange.
  rewrite nested_loops_flat.
  rewrite (foldl_pointwise _
             (λ acc p, JS.put acc (p.1 * w + p.2) (v p.2 p.1)))
    by (intros; apply Hbody).
  split.
  { by rewrite (put_fold_length (λ p, p.1 * w + p.2)
                  (λ p, v p.2 p.1)), length_replicate. }
  intros x y Hx Hy.
  apply (put_fold_hit (λ p, p.1 * w + p.2) (λ p, v p.2 p.1) _ _ (y, x)).
  - apply list_elem_of_bind. exists y. split; [|apply elem_of_seqZ; lia].
    apply list_elem_of_bind. exists x. split; [left|apply elem_of_seqZ; lia].
  - intros [y' x'] Hin Heq. cbn [fst snd] in *.
    apply list_elem_of_bind in Hin as (y1 & Hin & Hy1).
    apply list_elem_of_bind in Hin as (x1 & Hin & Hx1).
    apply list_elem_of_singleton in Hin. injection Hin as -> ->.
    apply elem_of_seqZ in Hy1, Hx1.
    assert (y1 = y) as -> by nia. assert (x1 = x) as -> by lia. done.
  - cbn [fst snd]. nia.
  - rewrite length_replicate. cbn [fst snd]. nia.
Qed.

End GridFacts.

Section EnsureFacts.

Variable colorpalette : list PaletteEntry.

(** What the lazy rebuild stores for a chunk that is there. *)
Lemma ensureIndexMap_builds m t key active bmp :
  String.eqb key EmptyString = false →
  colorIndexTiles t ≫= (λ o, Obj.get o key) = None →
  chunked t = Some active → Obj.get active key = Some bmp →
  bm_width bmp ≠ 0 → bm_height bmp ≠ 0 →
  let w := Z.max 1 (JS.roundDiv (bm_width bmp) (effectiveDrawMult m)) in
  let h := Z.max 1 (JS.roundDiv (bm_height bmp) (effectiveDrawMult m)) in
  ∃ data,
    colorIndexTiles (ensureIndexMapForTemplateTile colorpalette m t key)
    = Some (Obj.set (default [] (colorIndexTiles t)) key
              {| it_w := w; it_h := h; it_data := data |}) ∧
    length data = Z.to_nat (w * h) ∧
    ∀ x y, 0 ≤ x < w → 0 ≤ y < h →
      JS.at_ data (y * w + x)
      = Some (sampledIndex colorpalette (effectiveDrawMult m) bmp x y).
Proof.
  intros Hkey Hnone Hact Hbmp Hw Hh. cbn zeta.
  unfold ensureIndexMapForTemplateTile. rewrite Hkey.
  assert (Obj.get (default [] (colorIndexTiles t)) key = None) as Hget.
  { destruct (colorIndexTiles t); [exact Hnone|done]. }
  assert (∀ t0, colorIndexTiles t0 = Some (default [] (colorIndexTiles t)) →
                chunked t0 = Some active →
    ∃ data,
      colorIndexTiles
        (match Obj.get (default [] (colorIndexTiles t0)) key with
         | Some _ => t0
         | None =>
             match chunked t0 ≫= λ o, Obj.get o key with
             | None => t0
             | Some bmp =>
                 if (bm_width bmp =? 0) || (bm_height bmp =? 0) then t0
                 else
                   let drawMult :=
                     Z.max 1 (if drawMult m =? 0 then 1 else drawMult m) in
                   let w := Z.max 1 (JS.roundDiv (bm_width bmp) drawMult) in
                   let h := Z.max 1 (JS.roundDiv (bm_height bmp) drawMult) in
                   let mid := drawMult / 2 in
                   let data := bm_data bmp in
                   let idxMap :=
                     JS.forRange h (λ y,
                       JS.forRange w (λ x idxMap,
                         let sx := x * drawMult + mid in
                         let sy := y * drawMult + mid in
                         let p := (sy * bm_width bmp + sx) * 4 in
                         let a := JS.get0 data (p + 3) in
                         if a =? 0 then JS.put idxMap (y * w + x) 0
                         else
                           let r := JS.get0 data p in
                           let g := JS.get0 data (p + 1) in
                           let b := JS.get0 data (p + 2) in
                           JS.put idxMap (y * w + x)
                             (JS.wrap16 (nearestIdx colorpalette r g b))))
                       (replicate (Z.to_nat (w * h)) 0) in
                   set_colorIndexTiles
                     (Some (Obj.set (default [] (colorIndexTiles t0)) key
                              {| it_w := w; it_h := h; it_data := idxMap |}))
                     t0
             end
         end)
      = Some (Obj.set (default [] (colorIndexTiles t)) key
                {| it_w := Z.max 1 (JS.roundDiv (bm_width bmp)
                                      (effectiveDrawMult m));
                   it_h := Z.max 1 (JS.roundDiv (bm_height bmp)
                                      (effectiveDrawMult m));
                   it_data := data |}) ∧
      length data
      = Z.to_nat (Z.max 1 (JS.roundDiv (bm_width bmp) (effectiveDrawMult m)) *
                  Z.max 1 (JS.roundDiv (bm_height bmp) (effectiveDrawMult m))) ∧
      ∀ x y,
        0 ≤ x < Z.max 1 (JS.roundDiv (bm_width bmp) (effectiveDrawMult m)) →
        0 ≤ y < Z.max 1 (JS.roundDiv (bm_height bmp) (effectiveDrawMult m)) →
        JS.at_ data
          (y * Z.max 1 (JS.roundDiv (bm_width bmp) (effectiveDrawMult m)) + x)
        = Some (sampledIndex colorpalette (effectiveDrawMult m) bmp x y))
    as Hgen.
  { intros t0 Hc0 Ha0. rewrite Hc0. cbn [default from_option id].
    rewrite Hget, Ha0. cbn [mbind option_bind]. rewrite Hbmp.
    destruct (Z.eqb_spec (bm_width bmp) 0) as [|_]; [done|].
    destruct (Z.eqb_spec (bm_height bmp) 0) as [|_]; [done|].
    cbn [orb]. cbn zeta. fold (effectiveDrawMult m).
    eexists. split; [reflexivity|].
    apply (grid_fill _ (λ x y, sampledIndex colorpalette
                                 (effectiveDrawMult m) bmp x y)).
    intros y x acc. unfold sampledIndex. cbn zeta. by case_match. }
  destruct (colorIndexTiles t) as [o|] eqn:Hcit.
  - apply (Hgen t); [by rewrite Hcit|done].
  - apply (Hgen (set_colorIndexTiles (Some []) t)); done.
Qed.

End EnsureFacts.

Section RoundTripFacts.

Variable colorpalette : list PaletteEntry.

Lemma nearestPaletteIndex_bound r g b :
  0 ≤ nearestPaletteIndex colorpalette r g b ∧
  (nearestPaletteIndex colorpalette r g b = 1 ∨
   nearestPaletteIndex colorpalette r g b
   < Z.of_nat (length colorpalette)).
Proof.
  unfold nearestPaletteIndex.
  pose proof (palette_scans_joint r g b colorpalette) as [_ H].
  cbn zeta in H.
  destruct (fst (foldl (rgb_step r g b) _ colorpalette)) as [p|].
  - destruct H as (_ & c & Hi & Hc & _).
    apply lookup_lt_Some in Hc. split; [done|]. right. lia.
  - destruct H as (-> & _). split; [lia|by left].
Qed.

Lemma roundDiv_scaled w : 1 ≤ w → Z.max 1 (JS.roundDiv (w * 3) 3) = w.
Proof.
  intros Hw. unfold JS.roundDiv.
  assert ((2 * (w * 3) + 3) / (2 * 3) = w) as ->; [|lia].
  Z.to_euclidean_division_equations. lia.
Qed.

(** The bytes of a pixel, read through [pixelAt]. *)
Lemma pixelAt_bytes bm X Y :
  0 ≤ X < bm_width bm → 0 ≤ Y < bm_height bm →
  pixelAt bm X Y
  = [JS.get0 (bm_data bm) ((Y * bm_width bm + X) * 4);
     JS.get0 (bm_data bm) ((Y * bm_width bm + X) * 4 + 1);
     JS.get0 (bm_data bm) ((Y * bm_width bm + X) * 4 + 2);
     JS.get0 (bm_data bm) ((Y * bm_width bm + X) * 4 + 3)].
Proof.
  intros HX HY. unfold pixelAt.
  by replace ((0 <=? X) && (X <? bm_width bm) && (0 <=? Y) &&
              (Y <? bm_height bm)) with true
    by (symmetry; cases_Zb; cbn; try done; lia).
Qed.

(** The cell rebuilt from the masked rendering of an image reads the
    pixel of the image itself. *)
Lemma sampledIndex_of_rendering w h data x y :
  0 ≤ x < w → 0 ≤ y < h →
  sampledIndex colorpalette 3
    (renderToBitmap shreadSize
       {| bm_width := w; bm_height := h; bm_data := data |}) x y
  = if JS.get0 data ((y * w + x) * 4 + 3) =? 0 then 0
    else JS.wrap16
           (nearestIdx colorpalette (JS.get0 data ((y * w + x) * 4))
              (JS.get0 data ((y * w + x) * 4 + 1))
              (JS.get0 data ((y * w + x) * 4 + 2))).
Proof.
  intros Hx Hy. unfold shreadSize.
  pose proof (renderToBitmap_pixelAt 3
                {| bm_width := w; bm_height := h; bm_data := data |}
                (x * 3 + 1) (y * 3 + 1)) as Hpx.
  rewrite (pixelAt_bytes (renderToBitmap 3 _)) in Hpx by (cbn; lia).
  replace ((x * 3 + 1) mod 3) with 1 in Hpx
    by (Z.to_euclidean_division_equations; lia).
  replace ((y * 3 + 1) mod 3) with 1 in Hpx
    by (Z.to_euclidean_division_equations; lia).
  replace ((x * 3 + 1) / 3) with x in Hpx
    by (Z.to_euclidean_division_equations; lia).
  replace ((y * 3 + 1) / 3) with y in Hpx
    by (Z.to_euclidean_division_equations; lia).
  change (3 / 2) with 1 in Hpx. cbn [Z.eqb Pos.eqb andb] in Hpx.
  rewrite (pixelAt_bytes {| bm_width := w |}) in Hpx by (cbn; lia).
  unfold sampledIndex. cbn zeta. change (3 / 2) with 1.
  cbn [bm_width bm_height bm_data renderToBitmap] in Hpx |- *.
  specialize (Hpx ltac:(lia) ltac:(lia)).
  injection Hpx as H0 H1 H2 H3.
  by rewrite H0, H1, H2, H3.
Qed.

End RoundTripFacts.

(** On a chunk whose sides are multiples of the draw scale, the grid
    has the chunk's size divided by the scale, and the bytes that the
    loop reads for a cell are those of the pixel at the centre of the
    cell's block. *)
Lemma roundDiv_multiple w k :
  1 ≤ k → 1 ≤ w → Z.max 1 (JS.roundDiv (w * k) k) = w.
Proof.
  intros Hk Hw. unfold JS.roundDiv.
  assert ((2 * (w * k) + k) / (2 * k) = w) as ->; [|lia].
  symmetry. apply (Z.div_unique _ _ w k); lia.
Qed.

Lemma sampledIndex_centre pal dm bmp wc hc x y :
  1 ≤ dm → bm_width bmp = wc * dm → bm_height bmp = hc * dm →
  0 ≤ x < wc → 0 ≤ y < hc →
  sampledIndex pal dm bmp x y = centreIndex pal dm bmp x y.
Proof.
  intros Hdm Hw Hh Hx Hy.
  assert (0 ≤ dm / 2 < dm) as Hmid
    by (Z.to_euclidean_division_equations; lia).
  unfold sampledIndex, centreIndex. cbn zeta.
  rewrite pixelAt_bytes by nia. done.
Qed.

(** X16. For a chunk that is there, has no grid yet and whose width and
    height are [wc] and [hc] times the draw scale (as every chunk that
    slicing or an export of it produces), the lazy rebuild stores a
    grid of [wc] x [hc] cells, and each cell holds 0 where the pixel at
    the centre of the cell's block of the chunk is transparent, and
    else the nearest palette index of the colour of that pixel. *)
Theorem ensureIndexMap_fills_grid colorpalette m t key active bmp wc hc :
  String.eqb key EmptyString = false →
  indexGrid t key = None →
  chunked t = Some active → Obj.get active key = Some bmp →
  1 ≤ drawMult m → 1 ≤ wc → 1 ≤ hc →
  bm_width bmp = wc * drawMult m → bm_height bmp = hc * drawMult m →
  ∃ it,
    indexGrid (ensureIndexMapForTemplateTile colorpalette m t key) key
    = Some it ∧
    it_w it = wc ∧ it_h it = hc ∧
    length (it_data it) = Z.to_nat (wc * hc) ∧
    ∀ x y, 0 ≤ x < wc → 0 ≤ y < hc →
      JS.at_ (it_data it) (y * wc + x)
      = Some (centreIndex colorpalette (drawMult m) bmp x y).
Proof.
  intros Hkey Hnone Hact Hbmp Hdm Hwc Hhc Hw Hh.
  assert (effectiveDrawMult m = drawMult m) as Heff.
  { unfold effectiveDrawMult.
    destruct (Z.eqb_spec (drawMult m) 0); lia. }
  destruct (ensureIndexMap_builds colorpalette m t key active bmp
              Hkey Hnone Hact Hbmp) as (data & Hcit & Hlen & Hcell);
    [nia|nia|].
  rewrite Heff, Hw, Hh in Hcit, Hlen, Hcell.
  rewrite !roundDiv_multiple in Hcit, Hlen, Hcell by done.
  eexists. unfold indexGrid. rewrite Hcit. cbn [mbind option_bind].
  split; [apply get_set_eq|]. cbn [it_w it_h it_data].
  split; [done|]. split; [done|]. split; [done|].
  intros x y Hx Hy. rewrite (Hcell x y Hx Hy). f_equal.
  by apply (sampledIndex_centre _ _ _ wc hc).
Qed.

Lemma ensureIndexMap_fills_grid_witness :
  ∃ it,
    indexGrid
      (ensureIndexMapForTemplateTile gapPalette
         (newManager "Blue Marble" "0.82.1") importedPair
         "0000,0000,000,000") "0000,0000,000,000" = Some it ∧
    it_w it = 2 ∧ it_h it = 1 ∧ it_data it = [2; 4].
Proof.
  destruct (ensureIndexMap_fills_grid gapPalette
              (newManager "Blue Marble" "0.82.1") importedPair
              "0000,0000,000,000"
              [("0000,0000,000,000",
                renderToBitmap shreadSize
                  {| bm_width := 2; bm_height := 1;
                     bm_data := [250; 10; 10; 7; 250; 250; 250; 255] |})]
              (renderToBitmap shreadSize
                 {| bm_width := 2; bm_height := 1;
                    bm_data := [250; 10; 10; 7; 250; 250; 250; 255] |})
              2 1)
    as (it & Hit & _); try reflexivity; try (by vm_compute).
  exists it. split; [exact Hit|].
  vm_compute in Hit. by injection Hit as <-.
Defined.

(** Without that condition the bytes read need not be those of the block
    centre: on a chunk of 1 x 6 pixels the loop reads, for the first
    cell, the pixel (0, 2), where the centre (1, 1) lies outside the
    chunk. *)
Example narrow_chunk_reads_next_row :
  indexGrid
    (ensureIndexMapForTemplateTile gapPalette
       (newManager "Blue Marble" "0.82.1") importedNarrow
       "0000,0000,000,000") "0000,0000,000,000"
  = Some {| it_w := 1; it_h := 2; it_data := [2; 0] |} ∧
  centreIndex gapPalette 3 narrowChunk 0 0 = 0.
Proof. split; vm_compute; reflexivity. Qed.

(** X17. The grid rebuilt from the masked chunk of a region agrees with
    the grid that slicing computed for it, at every pixel that is not
    the sentinel: both hold 0 for a pixel of alpha 0 and the nearest
    palette index of its colour otherwise.  (Colour bytes are bytes, the
    palette has at most 256 entries and the draw scale is 3.) *)
Theorem rebuilt_grid_agrees_with_sliced
    colorpalette m t key active w h src x y r g b a :
  String.eqb key EmptyString = false → drawMult m = 3 →
  chunked t = Some active →
  Obj.get active key
  = Some (renderToBitmap shreadSize
            {| bm_width := w; bm_height := h;
               bm_data := (classifyRegion colorpalette w h src).1.1 |}) →
  indexGrid t key = None →
  length src = Z.to_nat (4 * (w * h)) → 0 ≤ x < w → 0 ≤ y < h →
  srcPixel w src x y = [Some r; Some g; Some b; Some a] →
  isSentinel r g b = false →
  0 ≤ r ≤ 255 → 0 ≤ g ≤ 255 → 0 ≤ b ≤ 255 →
  (length colorpalette ≤ 256)%nat →
  ∃ it,
    indexGrid (ensureIndexMapForTemplateTile colorpalette m t key) key
    = Some it ∧
    it_w it = w ∧ it_h it = h ∧
    JS.at_ (it_data it) (y * w + x)
    = JS.at_ (classifyRegion colorpalette w h src).2 (y * w + x).
Proof.
  intros Hkey Hdm Hact Hbmp Hnone Hlen Hx Hy Hpx Hsent Hr Hg Hb Hpal.
  assert (effectiveDrawMult m = 3) as Heff.
  { unfold effectiveDrawMult. by rewrite Hdm. }
  destruct (ensureIndexMap_builds colorpalette m t key active _
              Hkey Hnone Hact Hbmp) as (data & Hcit & _ & Hcell).
  { cbn. unfold shreadSize. lia. }
  { cbn. unfold shreadSize. lia. }
  rewrite Heff in Hcit, Hcell.
  cbn [bm_width bm_height renderToBitmap] in Hcit, Hcell.
  unfold shreadSize in Hcit, Hcell.
  rewrite !roundDiv_scaled in Hcit, Hcell by lia.
  eexists. unfold indexGrid. rewrite Hcit. cbn [mbind option_bind].
  split; [apply get_set_eq|]. cbn [it_w it_h it_data].
  split; [done|]. split; [done|].
  rewrite (Hcell x y Hx Hy).
  pose proof (sampledIndex_of_rendering colorpalette w h
                (classifyRegion colorpalette w h src).1.1 x y Hx Hy)
    as Hreb.
  unfold shreadSize in Hreb. cbn [renderToBitmap] in Hreb.
  rewrite Hreb. clear Hreb Hcell Hcit.
  pose proof (classifyRegion_local colorpalette w h src x y Hlen Hx Hy)
    as Hview.
  destruct (classifyRegion colorpalette w h src) as [[orig mapped] idxMap].
  cbn [fst snd]. destruct (Z.eq_dec a 0) as [->|Ha].
  - rewrite (pixelBody_transparent colorpalette w h src x y r g b)
      in Hview by done.
    unfold pixelView in Hview. injection Hview as _ _ _ H3 _ _ _ _ Hi.
    unfold JS.get0. by rewrite H3, Hi.
  - rewrite (pixelBody_opaque colorpalette w h src x y r g b a)
      in Hview by done.
    unfold pixelView in Hview. injection Hview as H0 H1 H2 H3 _ _ _ _ Hi.
    unfold JS.get0. rewrite H0, H1, H2, H3, Hi. cbn [from_option id Z.eqb].
    f_equal. unfold JS.clamp8.
    rewrite !Z.max_r, !Z.min_r by lia.
    change (nearestIdx colorpalette r g b)
      with (nearestPaletteIndex colorpalette r g b).
    destruct (nearestPaletteIndex_bound colorpalette r g b) as [H0' H1'].
    unfold JS.wrap16, JS.wrap8.
    rewrite !Z.mod_small by lia. done.
Qed.

Lemma rebuilt_grid_agrees_with_sliced_witness :
  ∃ it,
    indexGrid
      (ensureIndexMapForTemplateTile gapPalette
         (newManager "Blue Marble" "0.82.1") importedOpaque
         "0000,0000,000,000") "0000,0000,000,000" = Some it ∧
    it_w it = 1 ∧ it_h it = 1 ∧
    JS.at_ (it_data it) (0 * 1 + 0)
    = JS.at_ (classifyRegion gapPalette 1 1 [250; 10; 10; 7]).2 (0 * 1 + 0).
Proof.
  apply (rebuilt_grid_agrees_with_sliced gapPalette
           (newManager "Blue Marble" "0.82.1") importedOpaque
           "0000,0000,000,000"
           [("0000,0000,000,000",
             renderToBitmap shreadSize
               {| bm_width := 1; bm_height := 1;
                  bm_data :=
                    (classifyRegion gapPalette 1 1
                       [250; 10; 10; 7]).1.1 |})]
           1 1 [250; 10; 10; 7] 0 0 250 10 10 7);
    first [reflexivity | lia | cbn; lia].
Defined.

(** X18. At a sentinel pixel the two grids differ: slicing records 0,
    whereas the grid rebuilt from the masked chunk holds, where the
    sentinel was drawn as translucent black (even [x + y]), the palette
    index nearest to black; where it was made transparent (odd
    [x + y]) the rebuilt grid holds 0 as well. *)
Theorem rebuilt_grid_indexes_drawn_sentinel
    colorpalette m t key active w h src x y :
  String.eqb key EmptyString = false → drawMult m = 3 →
  chunked t = Some active →
  Obj.get active key
  = Some (renderToBitmap shreadSize
            {| bm_width := w; bm_height := h;
               bm_data := (classifyRegion colorpalette w h src).1.1 |}) →
  indexGrid t key = None →
  length src = Z.to_nat (4 * (w * h)) → 0 ≤ x < w → 0 ≤ y < h →
  JS.at_ src ((y * w + x) * 4) = Some 222 →
  JS.at_ src ((y * w + x) * 4 + 1) = Some 250 →
  JS.at_ src ((y * w + x) * 4 + 2) = Some 206 →
  ∃ it,
    indexGrid (ensureIndexMapForTemplateTile colorpalette m t key) key
    = Some it ∧
    JS.at_ (it_data it) (y * w + x)
    = Some (if (x + y) mod 2 =? 0
            then JS.wrap16 (nearestPaletteIndex colorpalette 0 0 0)
            else 0) ∧
    JS.at_ (classifyRegion colorpalette w h src).2 (y * w + x) = Some 0.
Proof.
  intros Hkey Hdm Hact Hbmp Hnone Hlen Hx Hy Hr Hg Hb.
  assert (effectiveDrawMult m = 3) as Heff.
  { unfold effectiveDrawMult. by rewrite Hdm. }
  destruct (ensureIndexMap_builds colorpalette m t key active _
              Hkey Hnone Hact Hbmp) as (data & Hcit & _ & Hcell).
  { cbn. unfold shreadSize. lia. }
  { cbn. unfold shreadSize. lia. }
  rewrite Heff in Hcit, Hcell.
  cbn [bm_width bm_height renderToBitmap] in Hcit, Hcell.
  unfold shreadSize in Hcit, Hcell.
  rewrite !roundDiv_scaled in Hcit, Hcell by lia.
  eexists. unfold indexGrid. rewrite Hcit. cbn [mbind option_bind].
  split; [apply get_set_eq|]. cbn [it_w it_h it_data].
  rewrite (Hcell x y Hx Hy).
  pose proof (sampledIndex_of_rendering colorpalette w h
                (classifyRegion colorpalette w h src).1.1 x y Hx Hy)
    as Hreb.
  unfold shreadSize in Hreb. cbn [renderToBitmap] in Hreb.
  rewrite Hreb. clear Hreb Hcell Hcit.
  pose proof (classifyRegion_local colorpalette w h src x y Hlen Hx Hy)
    as Hview.
  pose proof (pixelBody_sentinel colorpalette w h src x y
                (src, src, replicate (Z.to_nat (w * h)) 0) Hx Hy) as Hs.
  rewrite <- Hview in Hs. clear Hview.
  destruct (classifyRegion colorpalette w h src) as [[orig mapped] idxMap].
  cbn [fst snd]. unfold sentinelOutcome, pixelView in Hs.
  destruct Hs as [Hi Hs]; [|done..|].
  { repeat split; try done. by rewrite length_replicate. }
  split; [|done]. unfold JS.get0.
  destruct ((x + y) mod 2 =? 0).
  - destruct Hs as [Ho _]. injection Ho as -> -> -> ->. done.
  - destruct Hs as [Ho _]. cbn in Ho. injection Ho as ->. done.
Qed.

Lemma rebuilt_grid_indexes_drawn_sentinel_witness :
  ∃ it,
    indexGrid
      (ensureIndexMapForTemplateTile gapPalette
         (newManager "Blue Marble" "0.82.1") importedSentinel
         "0000,0000,000,000") "0000,0000,000,000" = Some it ∧
    JS.at_ (it_data it) (0 * 1 + 0)
    = Some (if (0 + 0) mod 2 =? 0
            then JS.wrap16 (nearestPaletteIndex gapPalette 0 0 0)
            else 0) ∧
    JS.at_ (classifyRegion gapPalette 1 1 sentinelDot).2 (0 * 1 + 0)
    = Some 0.
Proof.
  apply (rebuilt_grid_indexes_drawn_sentinel gapPalette
           (newManager "Blue Marble" "0.82.1") importedSentinel
           "0000,0000,000,000"
           [("0000,0000,000,000",
             renderToBitmap shreadSize
               {| bm_width := 1; bm_height := 1;
                  bm_data :=
                    (classifyRegion gapPalette 1 1 sentinelDot).1.1 |})]
           1 1 sentinelDot 0 0);
    first [reflexivity | lia | cbn; lia].
Defined.

(* ===================================================================== *)
(** * Properties of the colour picker                                     *)
(* ===================================================================== *)

Section PickerFacts.

Variable colorpalette : list PaletteEntry.
Variable parseNumber : string → option Z.

Lemma sameButGrids_refl t : sameButGrids t t.
Proof. done. Qed.

Lemma gridsKept_refl t : gridsKept t t.
Proof. by intros ? ?. Qed.

Lemma sameButGrids_trans t1 t2 t3 :
  sameButGrids t1 t2 → sameButGrids t2 t3 → sameButGrids t1 t3.
Proof. unfold sameButGrids. congruence. Qed.

Lemma sameButGrids_set o t : sameButGrids t (set_colorIndexTiles o t).
Proof. by destruct t. Qed.

(** The lazy rebuild changes nothing but the grids, and keeps those
    that were there. *)
Lemma ensureIndexMap_keeps m t key :
  sameButGrids t (ensureIndexMapForTemplateTile colorpalette m t key) ∧
  gridsKept t (ensureIndexMapForTemplateTile colorpalette m t key).
Proof.
  destruct (String.eqb key EmptyString) eqn:Hkey.
  { unfold ensureIndexMapForTemplateTile. rewrite Hkey.
    split; [done|by intros ? ?]. }
  rewrite ensureIndexMap_normalise, Hkey.
  set (t0 := match colorIndexTiles t with
             | Some _ => t
             | None => set_colorIndexTiles (Some []) t
             end).
  assert (sameButGrids t t0 ∧ gridsKept t t0 ∧
          ∃ o, colorIndexTiles t0 = Some o) as (Hs0 & Hk0 & o & Ho).
  { unfold t0. destruct (colorIndexTiles t) as [o|] eqn:E.
    - split; [done|]. split; [apply gridsKept_refl|by exists o].
    - split; [apply sameButGrids_set|]. split; [|by eexists].
      intros k it. unfold indexGrid. by rewrite E. }
  assert (sameButGrids t0
            (ensureIndexMapForTemplateTile colorpalette m t0 key) ∧
          gridsKept t0
            (ensureIndexMapForTemplateTile colorpalette m t0 key))
    as [Hs1 Hk1].
  { rewrite (ensureIndexMap_unfold _ _ _ _ _ Hkey Ho).
    destruct (Obj.get o key) as [it0|] eqn:Hget;
      [split; [done|apply gridsKept_refl]|].
    destruct (ensureIndexMap_result colorpalette m t0 o key Hkey Ho)
      as [->|[it1 ->]]; [split; [done|apply gridsKept_refl]|].
    split; [apply sameButGrids_set|].
    intros k it. unfold indexGrid. rewrite Ho. cbn.
    intros Hk. rewrite get_set_ne; [done|]. congruence. }
  split; [by eapply sameButGrids_trans|].
  intros k it Hk. by apply Hk1, Hk0.
Qed.

Lemma pickInTemplate_keeps m prefix pxX pxY t :
  sameButGrids t (pickInTemplate colorpalette parseNumber m prefix
                    pxX pxY t).1 ∧
  gridsKept t (pickInTemplate colorpalette parseNumber m prefix
                 pxX pxY t).1.
Proof.
  unfold pickInTemplate. cbn [fst].
  set (t0 := match colorIndexTiles t with
             | Some _ => t
             | None => set_colorIndexTiles (Some []) t
             end).
  assert (sameButGrids t t0 ∧ gridsKept t t0) as [Hs0 Hk0].
  { unfold t0. destruct (colorIndexTiles t) as [o|] eqn:E;
      [split; [done|apply gridsKept_refl]|].
    split; [apply sameButGrids_set|].
    intros k it. unfold indexGrid. by rewrite E. }
  assert (∀ keys t1,
    sameButGrids t t1 → gridsKept t t1 →
    let t2 := foldl (λ t key,
                       if JS.startsWith key prefix
                       then ensureIndexMapForTemplateTile colorpalette m
                              t key
                       else t) t1 keys in
    sameButGrids t t2 ∧ gridsKept t t2) as Hfold.
  { induction keys as [|key keys IH]; intros t1 Hs1 Hk1; [by split|].
    cbn [foldl]. apply IH.
    - case_match; [|done].
      eapply sameButGrids_trans; [exact Hs1|].
      apply ensureIndexMap_keeps.
    - case_match; [|done]. intros k it Hk.
      by apply ensureIndexMap_keeps, Hk1. }
  destruct (filter _ _) as [|k0 ks]; [|by split].
  destruct (chunked t0) as [active|]; [|by split].
  by apply Hfold.
Qed.

(** An index found in a grid is positive. *)
Lemma searchIndexTiles_positive idxTiles pxX pxY keys idx :
  searchIndexTiles parseNumber idxTiles pxX pxY keys = Some idx →
  0 < idx.
Proof.
  induction keys as [|key keys IH]; [done|]. cbn [searchIndexTiles].
  repeat case_match; try done. intros [= <-]. lia.
Qed.

(** The loop over the templates: the first template of the list that
    shows an index decides; the array keeps its shape. *)
Lemma pickLoop_spec m prefix pxX pxY todo arr0 arr idx arr' :
  Forall (λ it, arr0 !! it.1 = Some it.2) todo →
  Forall2 (λ t t', sameButGrids t t' ∧ gridsKept t t') arr0 arr →
  pickLoop colorpalette parseNumber m prefix pxX pxY todo arr
  = (idx, arr') →
  Forall2 (λ t t', sameButGrids t t' ∧ gridsKept t t') arr0 arr' ∧
  ((idx = 0 ∧
    Forall (λ it, (pickInTemplate colorpalette parseNumber m prefix
                     pxX pxY it.2).2 = None) todo) ∨
   (0 < idx ∧
    ∃ pre it post,
      todo = pre ++ it :: post ∧
      (pickInTemplate colorpalette parseNumber m prefix pxX pxY it.2).2
      = Some idx ∧
      Forall (λ it, (pickInTemplate colorpalette parseNumber m prefix
                       pxX pxY it.2).2 = None) pre)).
Proof.
  intros Htodo. revert arr.
  induction Htodo as [|[i tpl] todo Hi _ IH]; intros arr Harr;
    cbn [pickLoop].
  { intros [= <- <-]. split; [done|]. left. by split. }
  cbn [fst snd] in Hi.
  destruct (pickInTemplate_keeps m prefix pxX pxY tpl) as [Hs Hk].
  destruct (pickInTemplate colorpalette parseNumber m prefix pxX pxY tpl)
    as [tpl' found] eqn:Hpick.
  cbn [fst] in Hs, Hk.
  assert (Forall2 (λ t t', sameButGrids t t' ∧ gridsKept t t') arr0
            (<[i := tpl']> arr)) as Harr'.
  { rewrite <- (list_insert_id arr0 i tpl Hi).
    apply Forall2_insert; [done|]. by split. }
  destruct found as [idx0|].
  - intros [= <- <-]. split; [done|]. right.
    assert (0 < idx0) as Hpos.
    { unfold pickInTemplate in Hpick. injection Hpick as _ Hfound.
      by eapply searchIndexTiles_positive. }
    split; [done|]. exists [], (i, tpl), todo.
    cbn [fst snd app]. by rewrite Hpick.
  - intros Hrest. destruct (IH _ Harr' Hrest) as [Hshape Hres].
    split; [done|]. destruct Hres as [[-> Hall]|(Hpos & Hex)].
    + left. split; [done|]. constructor; [|done].
      cbn [fst snd]. by rewrite Hpick.
    + right. split; [done|].
      destruct Hex as (pre & it & post & -> & Hit & Hpre).
      exists ((i, tpl) :: pre), it, post. split; [done|].
      split; [done|]. constructor; [|done].
      cbn [fst snd]. by rewrite Hpick.
Qed.

End PickerFacts.

Section PickerOrderFacts.

Lemma insertIndexed_elem x y l :
  y ∈ insertIndexedBySortID x l ↔ y = x ∨ y ∈ l.
Proof.
  induction l as [|z l IH]; cbn [insertIndexedBySortID].
  - rewrite list_elem_of_singleton, elem_of_nil. tauto.
  - destruct (sortID x.2 <=? sortID z.2).
    + rewrite !elem_of_cons. tauto.
    + rewrite !elem_of_cons, IH. tauto.
Qed.

Lemma sortIndexed_elem y l : y ∈ sortIndexedBySortID l ↔ y ∈ l.
Proof.
  induction l as [|x l IH]; [done|].
  unfold sortIndexedBySortID in *. cbn [foldr].
  rewrite insertIndexed_elem, IH, elem_of_cons. tauto.
Qed.

Lemma insertIndexed_snd x l :
  (insertIndexedBySortID x l).*2 = insertBySortID x.2 (l.*2).
Proof.
  induction l as [|z l IH]; [done|].
  cbn [insertIndexedBySortID insertBySortID fmap list_fmap].
  case_match; [done|]. cbn [fmap list_fmap]. by rewrite <- IH.
Qed.

Lemma sortIndexed_snd l :
  (sortIndexedBySortID l).*2 = sortBySortID (l.*2).
Proof.
  induction l as [|x l IH]; [done|].
  unfold sortIndexedBySortID, sortBySortID in *. cbn [foldr fmap list_fmap].
  by rewrite insertIndexed_snd, IH.
Qed.

Lemma ascending_app_inv l1 x l2 :
  ascendingSortIDs (l1 ++ x :: l2) →
  Forall (λ y, sortID y ≤ sortID x) l1 ∧
  Forall (λ y, sortID x ≤ sortID y) l2.
Proof.
  induction l1 as [|a l1 IH]; cbn [app ascendingSortIDs].
  - intros [Hx _]. by split.
  - intros [Ha Hasc]. destruct (IH Hasc) as [H1 H2]. split; [|done].
    constructor; [|done].
    apply Forall_app in Ha as [_ Ha]. by apply Forall_cons in Ha as [Ha _].
Qed.

(** The templates that the picker visits, topmost first. *)
Lemma picker_order_elem (arr : list Template) i t :
  (i, t) ∈ reverse
             (sortIndexedBySortID
                (filter (λ it, enabled it.2 = true)
                   (imap (λ i t, (i, t)) arr)))
  ↔ arr !! i = Some t ∧ enabled t = true.
Proof.
  rewrite elem_of_reverse, sortIndexed_elem, list_elem_of_filter.
  cbn [snd]. rewrite elem_of_lookup_imap. split.
  - intros [Hen (j & x & [= -> ->] & Hj)]. done.
  - intros [Hi Hen]. split; [done|]. by exists i, t.
Qed.

Lemma keeps_diag (l : list Template) :
  Forall2 (λ t t', sameButGrids t t' ∧ gridsKept t t') l l.
Proof.
  induction l as [|t l IH]; constructor; [|done].
  split; [done|by intros ? ?].
Qed.

End PickerOrderFacts.

(** The colour picker changes index grids only. *)
Lemma getNearestPaletteIndexAt_keeps
    colorpalette parseNumber tileCoords pixelCoords m :
  0 ≤ (getNearestPaletteIndexAt colorpalette parseNumber tileCoords
         pixelCoords m).1 ∧
  set_templatesArray []
    (getNearestPaletteIndexAt colorpalette parseNumber tileCoords
       pixelCoords m).2
  = set_templatesArray [] m ∧
  Forall2 (λ t t', sameButGrids t t' ∧ gridsKept t t')
    (templatesArray m)
    (templatesArray
       (getNearestPaletteIndexAt colorpalette parseNumber tileCoords
          pixelCoords m).2).
Proof.
  unfold getNearestPaletteIndexAt.
  destruct (pickLoop _ _ _ _ _ _ _ _) as [idx arr'] eqn:Hloop.
  apply (pickLoop_spec _ _ _ _ _ _ _ (templatesArray m)) in Hloop
    as [Hshape Hres].
  - cbn [fst snd templatesArray set_templatesArray].
    split; [destruct Hres as [[-> _]|[Hpos _]]; lia|].
    split; [by destruct m|done].
  - apply Forall_forall. intros [i t] Hin.
    apply picker_order_elem in Hin as [Hi _]. exact Hi.
  - apply keeps_diag.
Qed.

(** X19. Looking up the colour under a pixel changes nothing in the
    manager but index grids: every other field of the manager and of
    each template is kept, the templates keep their places, and a grid
    that was already there is never replaced.  The index returned is
    never negative. *)
Theorem getNearestPaletteIndexAt_frame
    colorpalette parseNumber tileCoords pixelCoords m :
  0 ≤ (getNearestPaletteIndexAt colorpalette parseNumber tileCoords
         pixelCoords m).1 ∧
  set_templatesArray []
    (getNearestPaletteIndexAt colorpalette parseNumber tileCoords
       pixelCoords m).2
  = set_templatesArray [] m ∧
  length
    (templatesArray
       (getNearestPaletteIndexAt colorpalette parseNumber tileCoords
          pixelCoords m).2)
  = length (templatesArray m) ∧
  ∀ (i : nat) t,
    templatesArray m !! i = Some t →
    ∃ t',
      templatesArray
        (getNearestPaletteIndexAt colorpalette parseNumber tileCoords
           pixelCoords m).2 !! i = Some t' ∧
      sameButGrids t t' ∧ gridsKept t t'.
Proof.
  destruct (getNearestPaletteIndexAt_keeps colorpalette parseNumber
              tileCoords pixelCoords m) as (Hpos & Hrest & Hall).
  split; [done|]. split; [done|].
  split; [symmetry; by eapply Forall2_length|].
  intros i t Hi.
  destruct (Forall2_lookup_l _ _ _ _ _ Hall Hi) as (t' & Hi' & Hs & Hk).
  by exists t'.
Qed.

(* ===================================================================== *)
(** * The cell that the colour picker reads                               *)
(* ===================================================================== *)

Section CellFacts.

Variable colorpalette : list PaletteEntry.
Variable parseNumber : string → option Z.

Lemma get_Some_key {V} (o : jsobj V) k v :
  Obj.get o k = Some v → k ∈ Obj.keys o.
Proof.
  induction o as [|[k0 v0] o IH]; [done|].
  unfold Obj.keys. cbn [Obj.get fmap list_fmap fst].
  destruct (String.eqb_spec k0 k) as [->|_]; [left|].
  intros H. right. by apply IH.
Qed.

Lemma indexGrid_default t key :
  indexGrid t key = Obj.get (default [] (colorIndexTiles t)) key.
Proof. unfold indexGrid. by destruct (colorIndexTiles t). Qed.

Lemma searchIndexTiles_none idxTiles pxX pxY keys :
  searchIndexTiles parseNumber idxTiles pxX pxY keys = None →
  ∀ key it startX startY,
    key ∈ keys → Obj.get idxTiles key = Some it →
    JS.splitComma key !! 2%nat ≫= parseNumber = Some startX →
    JS.splitComma key !! 3%nat ≫= parseNumber = Some startY →
    0 ≤ pxX - startX < it_w it → 0 ≤ pxY - startY < it_h it →
    JS.get0 (it_data it) ((pxY - startY) * it_w it + (pxX - startX)) ≤ 0.
Proof.
  induction keys as [|k keys IH]; intros Hnone key it sx sy Hin;
    [by apply elem_of_nil in Hin|].
  cbn [searchIndexTiles] in Hnone.
  apply elem_of_cons in Hin as [->|Hin].
  - intros Hget Hsx Hsy Hx Hy. rewrite Hget, Hsx, Hsy in Hnone.
    destruct (Z.eqb_spec (it_w it) 0); [lia|].
    destruct (Z.eqb_spec (it_h it) 0); [lia|].
    cbn [orb] in Hnone.
    replace ((0 <=? pxX - sx) && (0 <=? pxY - sy) &&
             (pxX - sx <? it_w it) && (pxY - sy <? it_h it)) with true
      in Hnone by (symmetry; cases_Zb; cbn; try done; lia).
    destruct (Z.ltb_spec 0 (JS.get0 (it_data it)
                              ((pxY - sy) * it_w it + (pxX - sx))));
      [done|lia].
  - apply IH; [|done]. repeat case_match; done.
Qed.

Lemma searchIndexTiles_some idxTiles pxX pxY keys idx :
  searchIndexTiles parseNumber idxTiles pxX pxY keys = Some idx →
  ∃ key it startX startY,
    key ∈ keys ∧ Obj.get idxTiles key = Some it ∧
    JS.splitComma key !! 2%nat ≫= parseNumber = Some startX ∧
    JS.splitComma key !! 3%nat ≫= parseNumber = Some startY ∧
    0 ≤ pxX - startX < it_w it ∧ 0 ≤ pxY - startY < it_h it ∧
    JS.get0 (it_data it) ((pxY - startY) * it_w it + (pxX - startX)) = idx.
Proof.
  induction keys as [|k keys IH]; [done|]. cbn [searchIndexTiles].
  assert (searchIndexTiles parseNumber idxTiles pxX pxY keys = Some idx →
          ∃ key it startX startY,
            key ∈ k :: keys ∧ Obj.get idxTiles key = Some it ∧
            JS.splitComma key !! 2%nat ≫= parseNumber = Some startX ∧
            JS.splitComma key !! 3%nat ≫= parseNumber = Some startY ∧
            0 ≤ pxX - startX < it_w it ∧ 0 ≤ pxY - startY < it_h it ∧
            JS.get0 (it_data it)
              ((pxY - startY) * it_w it + (pxX - startX)) = idx) as Hrest.
  { intros H. destruct (IH H) as (key & it & sx & sy & Hin & Hr).
    exists key, it, sx, sy. split; [by right|done]. }
  destruct (Obj.get idxTiles k) as [it|] eqn:Hget; [|done].
  destruct (JS.splitComma k !! 2%nat ≫= parseNumber) as [sx|] eqn:Hsx;
    [|done].
  destruct (JS.splitComma k !! 3%nat ≫= parseNumber) as [sy|] eqn:Hsy;
    [|done].
  destruct ((it_w it =? 0) || (it_h it =? 0)); [done|].
  destruct ((0 <=? pxX - sx) && (0 <=? pxY - sy) &&
            (pxX - sx <? it_w it) && (pxY - sy <? it_h it)) eqn:Hin;
    [|done].
  destruct (0 <? JS.get0 _ _) eqn:Hpos; [|done].
  intros [= <-]. exists k, it, sx, sy.
  apply andb_true_iff in Hin as [Hin H4].
  apply andb_true_iff in Hin as [Hin H3].
  apply andb_true_iff in Hin as [H1 H2].
  apply Z.leb_le in H1, H2. apply Z.ltb_lt in H3, H4.
  split; [left|]. repeat split; try done; lia.
Qed.

(** What the body of the picker's loop finds in a template is the
    positive cell under the pixel of the first grid of the tile that has
    one, in the template as the loop leaves it. *)
Lemma pickInTemplate_cells m tileCoords pixelCoords t t' found :
  pickInTemplate colorpalette parseNumber m (tilePrefixText tileCoords)
    pixelCoords.1 pixelCoords.2 t = (t', found) →
  match found with
  | Some idx => cellUnder parseNumber tileCoords pixelCoords t' idx
  | None => ∀ v, cellUnder parseNumber tileCoords pixelCoords t' v → v ≤ 0
  end.
Proof.
  unfold pickInTemplate.
  set (t0 := match colorIndexTiles t with
             | Some _ => t
             | None => set_colorIndexTiles (Some []) t
             end).
  set (keys := filter _ (Obj.keys (default [] (colorIndexTiles t0)))).
  set (t1 := match keys, chunked t0 with
             | [], Some active => _
             | _, _ => t0
             end).
  set (keys2 := filter _ (Obj.keys (default [] (colorIndexTiles t1)))).
  assert (match keys2 with [] => keys | _ => keys2 end = keys2) as ->.
  { destruct keys as [|k ks] eqn:Hkeys.
    - by destruct keys2.
    - assert (keys2 = k :: ks) as ->; [|done].
      unfold keys2, t1. by rewrite <- Hkeys. }
  intros [= <- <-].
  destruct (searchIndexTiles _ _ _ _ keys2) as [idx|] eqn:Hs.
  - apply searchIndexTiles_some in Hs
      as (key & it & sx & sy & Hin & Hget & Hsx & Hsy & Hx & Hy & Hv).
    apply list_elem_of_filter in Hin as [Hst _].
    exists key, it, sx, sy. rewrite indexGrid_default. done.
  - intros v (key & it & sx & sy & Hget & Hst & Hsx & Hsy & Hx & Hy & <-).
    rewrite indexGrid_default in Hget.
    apply (searchIndexTiles_none _ _ _ _ Hs key it sx sy); try done.
    apply list_elem_of_filter. split; [done|]. by eapply get_Some_key.
Qed.

(** The loop writes only at the positions it visits. *)
Lemma pickLoop_frame m prefix pxX pxY todo arr idx arr' (j : nat) :
  pickLoop colorpalette parseNumber m prefix pxX pxY todo arr
  = (idx, arr') →
  j ∉ todo.*1 → arr' !! j = arr !! j.
Proof.
  revert arr. induction todo as [|[i tpl] todo IH]; intros arr;
    cbn [pickLoop].
  { by intros [= <- <-]. }
  destruct (pickInTemplate _ _ _ _ _ _ tpl) as [tpl' found].
  cbn [fmap list_fmap fst]. intros Hloop Hj.
  apply not_elem_of_cons in Hj as [Hne Hj].
  destruct found as [idx0|].
  - injection Hloop as <- <-. by rewrite list_lookup_insert_ne.
  - rewrite (IH _ Hloop Hj). by rewrite list_lookup_insert_ne.
Qed.

(** The loop over the templates, by what it leaves in the array: the
    templates visited without a result, then the one that answered. *)
Lemma pickLoop_final m prefix pxX pxY todo arr idx arr' :
  NoDup todo.*1 → Forall (λ it, arr !! it.1 = Some it.2) todo →
  pickLoop colorpalette parseNumber m prefix pxX pxY todo arr
  = (idx, arr') →
  ∃ pre post,
    todo = pre ++ post ∧
    Forall (λ it, ∃ t',
      arr' !! it.1 = Some t' ∧
      pickInTemplate colorpalette parseNumber m prefix pxX pxY it.2
      = (t', None)) pre ∧
    match post with
    | [] => idx = 0
    | it :: _ =>
        0 < idx ∧ ∃ t',
          arr' !! it.1 = Some t' ∧
          pickInTemplate colorpalette parseNumber m prefix pxX pxY it.2
          = (t', Some idx)
    end.
Proof.
  revert arr. induction todo as [|[i tpl] todo IH]; intros arr Hnd Harr;
    cbn [pickLoop].
  { intros [= <- <-]. by exists [], []. }
  cbn [fmap list_fmap fst] in Hnd. apply NoDup_cons in Hnd as [Hi Hnd].
  apply Forall_cons in Harr as [Hit Harr]. cbn [fst snd] in Hit.
  destruct (pickInTemplate colorpalette parseNumber m prefix pxX pxY tpl)
    as [tpl' found] eqn:Hpick.
  assert (<[i := tpl']> arr !! i = Some tpl') as Hnew.
  { apply list_lookup_insert_eq. by eapply lookup_lt_Some. }
  destruct found as [idx0|].
  - intros [= <- <-]. exists [], ((i, tpl) :: todo).
    split; [done|]. split; [done|]. split.
    + unfold pickInTemplate in Hpick. injection Hpick as _ Hfound.
      by eapply searchIndexTiles_positive.
    + exists tpl'. cbn [fst snd]. by rewrite Hpick.
  - intros Hloop.
    destruct (IH (<[i := tpl']> arr) Hnd) as (pre & post & -> & Hpre & Hpost);
      [|exact Hloop|].
    { apply Forall_forall. intros [i' t'] Hin.
      rewrite Forall_forall in Harr. cbn [fst snd].
      rewrite list_lookup_insert_ne; [by apply (Harr (i', t'))|].
      intros ->. apply Hi. apply list_elem_of_fmap. by exists (i', t'). }
    exists ((i, tpl) :: pre), post. split; [done|]. split; [|done].
    constructor; [|done]. exists tpl'. cbn [fst snd].
    split; [|done]. by rewrite (pickLoop_frame _ _ _ _ _ _ _ _ i Hloop Hi).
Qed.

Lemma insertIndexed_perm x l : insertIndexedBySortID x l ≡ₚ x :: l.
Proof.
  induction l as [|y l IH]; [done|]. cbn [insertIndexedBySortID].
  case_match; [done|]. rewrite IH. apply Permutation_swap.
Qed.

Lemma sortIndexed_perm l : sortIndexedBySortID l ≡ₚ l.
Proof.
  induction l as [|x l IH]; [done|].
  unfold sortIndexedBySortID in *. cbn [foldr].
  by rewrite insertIndexed_perm, IH.
Qed.

Lemma imap_positions (arr : list Template) :
  (imap (λ i t, (i, t)) arr).*1 = seq 0 (length arr).
Proof.
  apply list_eq. intros i. rewrite list_lookup_fmap, list_lookup_imap.
  destruct (arr !! i) as [t|] eqn:E; cbn.
  - symmetry. apply lookup_seq. split; [done|]. by eapply lookup_lt_Some.
  - symmetry. apply lookup_seq_ge. by apply lookup_ge_None.
Qed.

(** The picker visits each position of the array at most once. *)
Lemma picker_order_NoDup (arr : list Template) :
  NoDup (reverse
           (sortIndexedBySortID
              (filter (λ it, enabled it.2 = true)
                 (imap (λ i t, (i, t)) arr)))).*1.
Proof.
  rewrite reverse_Permutation, sortIndexed_perm.
  apply (sublist_NoDup _ (imap (λ i t, (i, t)) arr).*1).
  - rewrite imap_positions. apply NoDup_seq.
  - apply fmap_sublist, sublist_filter.
Qed.

Lemma sameButGrids_fields t t' :
  sameButGrids t t' → enabled t' = enabled t ∧ sortID t' = sortID t.
Proof.
  intros H. split.
  - by apply (f_equal enabled) in H.
  - by apply (f_equal sortID) in H.
Qed.

End CellFacts.

(** X20. The colour picker answers for the topmost layer, by the index
    grids as it leaves them.  A positive result is the entry, for the
    cell under the pixel, of a grid of the tile in some enabled
    template, and no enabled template of greater sort ID has a positive
    entry for a cell under the pixel; the result is 0 exactly when no
    enabled template has one. *)
Theorem getNearestPaletteIndexAt_topmost
    colorpalette parseNumber tileCoords pixelCoords m :
  let idx :=
    (getNearestPaletteIndexAt colorpalette parseNumber tileCoords
       pixelCoords m).1 in
  let m' :=
    (getNearestPaletteIndexAt colorpalette parseNumber tileCoords
       pixelCoords m).2 in
  (idx = 0 ∧
   ∀ (i : nat) t v, templatesArray m' !! i = Some t → enabled t = true →
     cellUnder parseNumber tileCoords pixelCoords t v → v ≤ 0) ∨
  (0 < idx ∧
   ∃ (i : nat) t,
     templatesArray m' !! i = Some t ∧ enabled t = true ∧
     cellUnder parseNumber tileCoords pixelCoords t idx ∧
     ∀ (i' : nat) t' v, templatesArray m' !! i' = Some t' →
       enabled t' = true → sortID t < sortID t' →
       cellUnder parseNumber tileCoords pixelCoords t' v → v ≤ 0).
Proof.
  cbn zeta.
  destruct (getNearestPaletteIndexAt_keeps colorpalette parseNumber
              tileCoords pixelCoords m) as (_ & _ & Hshape).
  revert Hshape. unfold getNearestPaletteIndexAt.
  fold (tilePrefixText tileCoords).
  set (order := reverse _).
  destruct (pickLoop _ _ _ _ _ _ _ _) as [idx arr'] eqn:Hloop.
  cbn [fst snd templatesArray set_templatesArray]. intros Hshape.
  apply pickLoop_final in Hloop as (pre & post & Horder & Hpre & Hpost).
  2:{ apply picker_order_NoDup. }
  2:{ apply Forall_forall. intros [i t] Hin.
      apply picker_order_elem in Hin as [Hi _]. exact Hi. }
  assert (∀ (i : nat) t', arr' !! i = Some t' → enabled t' = true →
            ∃ t, (i, t) ∈ order ∧ sortID t' = sortID t) as Hback.
  { intros i t' Hi' Hen'.
    destruct (Forall2_lookup_r _ _ _ _ _ Hshape Hi')
      as (t & Hi & Hs & _).
    apply sameButGrids_fields in Hs as [Hen Hsid].
    exists t. split; [|done]. apply picker_order_elem.
    split; [done|congruence]. }
  assert (∀ (i : nat) t t' v, (i, t) ∈ pre → arr' !! i = Some t' →
            cellUnder parseNumber tileCoords pixelCoords t' v → v ≤ 0)
    as Hnone.
  { intros i t t' v Hin Hi'. rewrite Forall_forall in Hpre.
    destruct (Hpre _ Hin) as (t'' & Hi'' & Hpick). cbn [fst snd] in *.
    assert (t'' = t') as -> by congruence.
    apply pickInTemplate_cells in Hpick. apply Hpick. }
  destruct post as [|[i0 t0] rest].
  - left. split; [done|]. intros i t' v Hi' Hen' Hcell.
    destruct (Hback i t' Hi' Hen') as (t & Hin & _).
    rewrite Horder, app_nil_r in Hin. by eapply Hnone.
  - right. destruct Hpost as (Hpos & t0' & Hi0 & Hpick). cbn [fst snd] in *.
    split; [done|].
    assert ((i0, t0) ∈ order) as Hin0.
    { rewrite Horder. apply elem_of_app. right. left. }
    apply picker_order_elem in Hin0 as [Hi00 Hen0].
    destruct (pickInTemplate_keeps colorpalette parseNumber m
                (tilePrefixText tileCoords) pixelCoords.1 pixelCoords.2 t0)
      as [Hs0 _].
    rewrite Hpick in Hs0. cbn [fst] in Hs0.
    apply sameButGrids_fields in Hs0 as [Hen0' Hsid0].
    exists i0, t0'. split; [done|]. split; [congruence|].
    split; [by apply pickInTemplate_cells in Hpick|].
    intros i' t' v Hi' Hen' Hlt Hcell.
    destruct (Hback i' t' Hi' Hen') as (t & Hin & Hsid).
    assert (ascendingSortIDs (reverse order).*2) as Hasc.
    { unfold order. rewrite reverse_involutive, sortIndexed_snd.
      apply sortBySortID_ascending. }
    rewrite Horder, reverse_app, reverse_cons, <- app_assoc in Hasc.
    rewrite fmap_app in Hasc. cbn [fmap list_fmap app] in Hasc.
    apply ascending_app_inv in Hasc as [Hpost' _]. cbn [snd] in Hpost'.
    rewrite Horder in Hin.
    apply elem_of_app in Hin as [Hin|Hin]; [by eapply Hnone|].
    exfalso. apply elem_of_cons in Hin as [[= -> ->]|Hin]; [lia|].
    rewrite Forall_forall in Hpost'.
    assert (sortID t ≤ sortID t0); [|lia].
    apply Hpost'. apply list_elem_of_fmap. exists (i', t).
    split; [done|]. by apply elem_of_reverse.
Qed.

(** On two stacked templates, the cell under the pixel (0, 0) of the
    topmost one holds the index that the picker returns. *)
Example getNearestPaletteIndexAt_cell :
  cellUnder demoNumber (0, 0) (0, 0)
    (default importedDot
       (templatesArray
          (getNearestPaletteIndexAt gapPalette demoNumber (0, 0) (0, 0)
             pickManager).2 !! 0%nat)) 2.
Proof.
  exists "0000,0000,000,000", {| it_w := 1; it_h := 1; it_data := [2] |}, 0, 0.
  repeat split; vm_compute; try reflexivity; try discriminate.
Qed.

(** The picker on two stacked templates: the index of the colour of the
    chunk, and a grid rebuilt for the template that answered. *)
Example getNearestPaletteIndexAt_sample :
  (getNearestPaletteIndexAt gapPalette demoNumber (0, 0) (0, 0)
     pickManager).1 = 2 ∧
  (λ t, indexGrid t "0000,0000,000,000")
    <$> templatesArray
          (getNearestPaletteIndexAt gapPalette demoNumber (0, 0) (0, 0)
             pickManager).2
  = [Some {| it_w := 1; it_h := 1; it_data := [2] |}; None].
Proof. split; vm_compute; reflexivity. Qed.

(* ===================================================================== *)
(** * Properties of the escaped text of the template list                 *)
(* ===================================================================== *)

Section EscapeFacts.

Lemma escapeChar_cases c :
  (c = "&"%char ∧ escapeChar c = "&amp;") ∨
  (c = "<"%char ∧ escapeChar c = "&lt;") ∨
  (c = ">"%char ∧ escapeChar c = "&gt;") ∨
  (c = "034"%char ∧ escapeChar c = "&quot;") ∨
  (c = "'"%char ∧ escapeChar c = "&#39;") ∨
  (htmlSpecial c = false ∧ escapeChar c = String c EmptyString).
Proof.
  unfold escapeChar, htmlSpecial.
  destruct (Ascii.eqb_spec c "&"%char) as [->|]; [by left|].
  destruct (Ascii.eqb_spec c "<"%char) as [->|]; [by right; left|].
  destruct (Ascii.eqb_spec c ">"%char) as [->|];
    [by right; right; left|].
  destruct (Ascii.eqb_spec c "034"%char) as [->|];
    [by right; right; right; left|].
  destruct (Ascii.eqb_spec c "'"%char) as [->|];
    [by right; right; right; right; left|].
  by right; right; right; right; right.
Qed.

Lemma htmlSpecial_amp c : htmlSpecial c = false → c ≠ "&"%char.
Proof. intros H ->. done. Qed.

Lemma htmlSpecial_safe c : htmlSpecial c = false → htmlSafe c.
Proof. intros H. repeat split; intros ->; done. Qed.

End EscapeFacts.

(** X21. The escaped text holds none of the characters that would end
    the text or an attribute value: no angle bracket and no quote. *)
Theorem escapeHtml_safe str : all_chars htmlSafe (escapeHtml str).
Proof.
  induction str as [|c str IH]; [done|]. cbn [escapeHtml].
  apply all_chars_app. split; [|done].
  destruct (escapeChar_cases c)
    as [[_ ->]|[[_ ->]|[[_ ->]|[[_ ->]|[[_ ->]|[Hs ->]]]]]];
    cbn; repeat split; try done.
  all: by apply htmlSpecial_safe.
Qed.

Lemma escapeHtml_injective s1 s2 :
  escapeHtml s1 = escapeHtml s2 → s1 = s2.
Proof.
  revert s2. induction s1 as [|c1 s1 IH]; intros [|c2 s2];
    cbn [escapeHtml].
  - done.
  - destruct (escapeChar_cases c2)
      as [[_ ->]|[[_ ->]|[[_ ->]|[[_ ->]|[[_ ->]|[_ ->]]]]]];
      rewrite ?app_cons; done.
  - destruct (escapeChar_cases c1)
      as [[_ ->]|[[_ ->]|[[_ ->]|[[_ ->]|[[_ ->]|[_ ->]]]]]];
      rewrite ?app_cons; done.
  - destruct (escapeChar_cases c1)
      as [[-> ->]|[[-> ->]|[[-> ->]|[[-> ->]|[[-> ->]|[H1 ->]]]]]];
    destruct (escapeChar_cases c2)
      as [[-> ->]|[[-> ->]|[[-> ->]|[[-> ->]|[[-> ->]|[H2 ->]]]]]];
      rewrite ?app_cons, ?app_empty; intros Heq;
      try discriminate Heq;
      try (injection Heq as Heq; f_equal; by apply IH);
      try (injection Heq as -> Heq; f_equal; by apply IH);
      try (injection Heq as Hc _;
           first [ by apply htmlSpecial_amp in H1
                 | by apply htmlSpecial_amp in H2 ]).
Qed.

(** X22. Escaping loses nothing: two different strings have different
    escaped texts, so distinct template keys stay distinct in the
    attributes of the list. *)
Theorem escapeHtml_distinct s1 s2 :
  s1 ≠ s2 → escapeHtml s1 ≠ escapeHtml s2.
Proof. intros Hne Heq. by apply Hne, escapeHtml_injective. Qed.

Lemma escapeHtml_distinct_witness :
  escapeHtml "<1 A>" ≠ escapeHtml "&lt;1 A>".
Proof.
  apply (escapeHtml_distinct "<1 A>" "&lt;1 A>"). discriminate.
Defined.

(* ===================================================================== *)
(** * The capacity of the registry                                        *)
(* ===================================================================== *)

Section StepFacts.

Variable colorpalette : list PaletteEntry.
Variable encodeBase64PNG : Bitmap → string.
Variable numberToEncoded : Z → string → string.
Variable formatNumber : Z → string.
Variable decodeBase64PNG : string → Bitmap.
Variable parseNumber : string → option Z.

Lemma serialCall_capacity m m' :
  serialCall colorpalette encodeBase64PNG numberToEncoded formatNumber
    decodeBase64PNG parseNumber m m' →
  withinCapacity m → withinCapacity m'.
Proof.
  intros Hstep Hm.
  destruct Hstep as [m blob name coords autoColor outcome m' Hc
                    | m json | m idKey | m idKey v
                    | m env tb tc out m' Hdraw | m cz d | m v | m v
                    | m tc pc].
  - by eapply createTemplate_capacity.
  - by apply importJSON_capacity.
  - destruct Hm as [Hmax Hlen]. split.
    { unfold removeTemplate. cbn. repeat case_match; done. }
    rewrite removeTemplate_array.
    pose proof (length_filter
                  (λ x, String.eqb (keyOf x) idKey = false)
                  (templatesArray m)). lia.
  - destruct Hm as [Hmax Hlen]. unfold withinCapacity.
    destruct (setTemplateEnabled_array idKey v m) as [-> ->].
    split; [done|]. case_match; rewrite ?setEnabledFirst_length; done.
  - destruct Hm as [Hmax Hlen]. unfold withinCapacity.
    destruct (drawTemplateOnTile_registry _ _ _ _ _ _ _ Hdraw)
      as (-> & _ & -> & _).
    done.
  - destruct Hm as [Hmax Hlen]. unfold withinCapacity.
    destruct (updateZoomState_frame cz d m) as (-> & _ & -> & _). done.
  - done.
  - done.
  - destruct Hm as [Hmax Hlen].
    destruct (getNearestPaletteIndexAt_keeps colorpalette parseNumber
                tc pc m) as (_ & Hrest & Hall).
    apply Forall2_length in Hall.
    apply (f_equal maxTemplates) in Hrest. cbn in Hrest.
    split; [congruence|]. rewrite <- Hall. done.
Qed.

End StepFacts.

(** X9. As long as the calls of the manager's methods run one after
    another, each to its end before the next one starts, the registry
    holds at most ten templates in every state that they lead to from a
    new manager, the colour picker included. *)
Theorem registry_never_exceeds_capacity
    colorpalette encodeBase64PNG numberToEncoded formatNumber
    decodeBase64PNG parseNumber name version m :
  rtc (serialCall colorpalette encodeBase64PNG numberToEncoded
         formatNumber decodeBase64PNG parseNumber)
    (newManager name version) m →
  maxTemplates m = 10 ∧ (length (templatesArray m) ≤ 10)%nat.
Proof.
  intros Hrtc.
  assert (withinCapacity m) as [Hmax Hlen]; [|split; [done|lia]].
  revert m Hrtc. apply (rtc_ind_r (λ m, withinCapacity m)).
  - split; cbn; [done|lia].
  - intros m1 m2 _ Hstep IH. by eapply serialCall_capacity.
Qed.

Lemma registry_never_exceeds_capacity_witness :
  maxTemplates
    (getNearestPaletteIndexAt gapPalette demoNumber (0, 0) (0, 0)
       (importJSON demoDecode demoNumber tenTemplatesJSON
          (newManager "Blue Marble" "0.82.1"))).2 = 10 ∧
  (length
     (templatesArray
        (getNearestPaletteIndexAt gapPalette demoNumber (0%Z, 0%Z)
           (0%Z, 0%Z)
           (importJSON demoDecode demoNumber tenTemplatesJSON
              (newManager "Blue Marble" "0.82.1"))).2) ≤ 10)%nat.
Proof.
  apply (registry_never_exceeds_capacity gapPalette demoEncode demoAuthor
           JS.toString demoDecode demoNumber "Blue Marble" "0.82.1").
  apply (rtc_l _ _
           (importJSON demoDecode demoNumber tenTemplatesJSON
              (newManager "Blue Marble" "0.82.1")));
    [apply step_import|].
  apply rtc_once.
  apply (step_pick gapPalette demoEncode demoAuthor JS.toString demoDecode
           demoNumber _ (0, 0) (0, 0)).
Defined.

(* ===================================================================== *)
(** * Creations that overlap                                              *)
(* ===================================================================== *)

(** The two halves of a creation, run one after the other, are
    [createTemplate]. *)
Lemma createTemplate_in_two_steps colorpalette encodeBase64PNG
    numberToEncoded formatNumber blob name coords autoColor m :
  createTemplate colorpalette encodeBase64PNG numberToEncoded formatNumber
    blob name coords autoColor m
  = '(p, m1) ← createTemplateBegin colorpalette encodeBase64PNG
                 numberToEncoded blob name coords autoColor m;
    match p with
    | None => Some (CapacityExceeded, m1)
    | Some p =>
        m2 ← createTemplateFinish formatNumber p m1; Some (Created, m2)
    end.
Proof.
  destruct coords as [[[c0 c1] c2] c3].
  unfold createTemplate, createTemplateBegin.
  case_match; [done|].
  destruct (nextSortIDFrom _ _ _) as [n|]; [|done].
  cbn [mbind option_bind].
  destruct (createTemplateTiles _ _ _) as [[t tiles]|]; [|done].
  cbn [mbind option_bind]. unfold createTemplateFinish.
  cbn [pt_template pt_tiles pt_coords pt_autoColor].
  set (m0 := handleDisplayStatus _ _).
  by destruct (templatesJSON m0).
Qed.

(** X24. The capacity guard does not hold across the [await] of
    [createTemplate]: in a state that an import leads to, with nine
    templates, a second creation that starts while the first is
    suspended at the slicing passes the guard as the first did, and
    both append, which leaves eleven templates under a bound of ten;
    the two new templates also get the same sort ID and the same key. *)
Theorem overlapping_creations_exceed_capacity :
  ∃ m',
    rtc (serialCall demoPalette demoEncode demoAuthor JS.toString
           demoDecode demoNumber)
      (newManager "Blue Marble" "0.82.1") nineManager ∧
    length (templatesArray nineManager) = 9%nat ∧
    maxTemplates nineManager = 10 ∧
    createTemplateOverlapped demoPalette demoEncode demoAuthor JS.toString
      opaquePixel "first" (0, 0, 0, 0) false
      opaquePixel "second" (0, 0, 10, 10) false nineManager = Some m' ∧
    maxTemplates m' = 10 ∧
    length (templatesArray m') = 11%nat ∧
    keyOf <$> drop 9 (templatesArray m') = ["9 A"; "9 A"].
Proof.
  eexists. split; [apply rtc_once, step_import|].
  split; [vm_compute; reflexivity|].
  split; [reflexivity|].
  split; [vm_compute; reflexivity|].
  repeat split; vm_compute; reflexivity.
Qed.
